(** * gemini-business2api: account provisioning core

    A shallow embedding of the task orchestrator
    ([core/register_service.py]), the two disposable-mailbox clients
    ([core/gptmail_client.py], [core/moemail_client.py]) and the login state
    machine ([core/gemini_automation_patchright.py]), followed by the
    properties the specification states about them.

    Python values are kept as the code has them: ints are [Z], JSON values of
    unknown type are [pyval], [Optional[...]] is [option], exceptions are an
    explicit [result].  Calls that leave the process (HTTP, browser, clock,
    randomness, the log callback) are answered by an environment that is a
    parameter of every definition. *)

From Stdlib Require Import ZArith QArith List String Ascii Bool Lia Lqa DecimalString.
From stdpp Require Import base gmap strings.
Import ListNotations.

Open Scope string_scope.
Open Scope Z_scope.

(* ===================================================================== *)
(** * Python basics *)
(* ===================================================================== *)

Module Py.

(** Python exceptions.  [TaskCancelledError] is declared in
    [core/base_task_service.py]; every handler of the code lists it before
    [except Exception], so it is an [Exception] subclass that the handlers
    single out. *)
Inductive exn : Type :=
| TaskCancelledError (msg : string)
| Exception (msg : string).

(** [str(exc)] *)
Definition str_exn (e : exn) : string :=
  match e with TaskCancelledError m => m | Exception m => m end.

Definition is_cancel (e : exn) : bool :=
  match e with TaskCancelledError _ => true | Exception _ => false end.

(** The outcome of a call: a value, or a raised exception. *)
Inductive result (A : Type) : Type :=
| Return (a : A)
| Raise (e : exn).
Arguments Return {A} a.
Arguments Raise {A} e.

(** A JSON scalar as [json.loads] hands it to Python. *)
Inductive pyval : Type :=
| PNone
| PBool (b : bool)
| PInt (z : Z)
| PFloat (q : Q)
| PStr (s : string).

(** [bool(v)] *)
Definition truthy (v : pyval) : bool :=
  match v with
  | PNone => false
  | PBool b => b
  | PInt z => negb (z =? 0)
  | PFloat q => negb (Qeq_bool q 0)
  | PStr s => negb (String.eqb s "")
  end.

(** [a or b] *)
Definition py_or (a b : pyval) : pyval := if truthy a then a else b.

(** [isinstance(v, int)]; [bool] is a subclass of [int]. *)
Definition as_int (v : pyval) : option Z :=
  match v with
  | PInt z => Some z
  | PBool b => Some (if b then 1 else 0)
  | _ => None
  end.

(** [isinstance(v, (int, float))], with the number it denotes. *)
Definition as_number (v : pyval) : option Q :=
  match v with
  | PInt z => Some (inject_Z z)
  | PBool b => Some (inject_Z (if b then 1 else 0))
  | PFloat q => Some q
  | _ => None
  end.

Definition Qltb (a b : Q) : bool := negb (Qle_bool b a).

(** [s or ""] for an optional string *)
Definition str_or_empty (s : option string) : string :=
  match s with Some x => x | None => "" end.

(** truth value of an [Optional[str]] *)
Definition truthy_str (s : option string) : bool :=
  match s with Some x => negb (String.eqb x "") | None => false end.

(** [needle in hay] *)
Fixpoint contains (needle hay : string) : bool :=
  String.prefix needle hay ||
  match hay with
  | EmptyString => false
  | String _ t => contains needle t
  end.

(** [s.split(sep)] for a non-empty separator.  [skip] counts the characters
    of a separator just matched that are still to be dropped. *)
Fixpoint split_go (sep : string) (skip : nat) (acc : string) (s : string)
  : list string :=
  match skip with
  | S k =>
      match s with
      | EmptyString => [acc]
      | String _ t => split_go sep k acc t
      end
  | O =>
      match s with
      | EmptyString => [acc]
      | String c t =>
          if String.prefix sep s
          then acc :: split_go sep (String.length sep - 1) "" t
          else split_go sep 0 (acc ++ String c "") t
      end
  end.

Definition split (sep s : string) : list string := split_go sep 0 "" s.

(** Characters removed by [str.strip()]: the ASCII ones.  A string is kept as
    its UTF-8 bytes, and the blanks Python strips beyond these (U+0085,
    U+00A0, U+1680, U+2000 to U+200A, U+2028, U+2029, U+202F, U+205F, U+3000)
    take more than one byte and stay in place: [strip] below is
    [str.strip()] on a string that holds none of them, an ASCII string in
    particular. *)
Definition is_space (c : ascii) : bool :=
  let n := nat_of_ascii c in
  ((9 <=? n) && (n <=? 13) || (28 <=? n) && (n <=? 32))%nat.

Fixpoint lstrip (s : string) : string :=
  match s with
  | EmptyString => EmptyString
  | String c t => if is_space c then lstrip t else s
  end.

Fixpoint rstrip (s : string) : string :=
  match s with
  | EmptyString => EmptyString
  | String c t =>
      match rstrip t with
      | EmptyString => if is_space c then EmptyString else String c EmptyString
      | t' => String c t'
      end
  end.

Definition strip (s : string) : string := rstrip (lstrip s).

(** [str(n)] for an int *)
Definition str_Z (z : Z) : string := NilZero.string_of_int (Z.to_int z).

(** A [datetime]: the instant it denotes, in microseconds since the epoch
    (what [.timestamp()] reports, times 10^6), and the UTC offset in seconds of
    its [tzinfo] when it has one. *)
Record datetime : Type := mk_datetime {
  dt_epoch_us : Z;
  dt_utcoffset : option Z
}.

(** [int(dt.timestamp())]: [int] truncates toward zero. *)
Definition int_timestamp (dt : datetime) : Z := Z.quot (dt_epoch_us dt) 1000000.

(** [int(dt.timestamp() * 1000)] *)
Definition int_timestamp_ms (dt : datetime) : Z := Z.quot (dt_epoch_us dt) 1000.

(** *** Calendar rendering *)

(** Civil date of a day number counted from 1970-01-01 (proleptic
    Gregorian calendar, as [datetime] has it). *)
Definition civil_from_days (days : Z) : Z * Z * Z :=
  let z := days + 719468 in
  let era := z / 146097 in
  let doe := z - era * 146097 in
  let yoe := (doe - doe / 1460 + doe / 36524 - doe / 146096) / 365 in
  let doy := doe - (365 * yoe + yoe / 4 - yoe / 100) in
  let mp := (5 * doy + 2) / 153 in
  let d := doy - (153 * mp + 2) / 5 + 1 in
  let m := if mp <? 10 then mp + 3 else mp - 9 in
  let y := yoe + era * 400 + (if m <=? 2 then 1 else 0) in
  (y, m, d).

(** A non-negative number in decimal, zero-padded to [width] digits. *)
Definition pad (width : nat) (z : Z) : string :=
  let digits := str_Z z in
  String.concat "" (repeat "0" (width - String.length digits)) ++ digits.

(** The wall clock of a datetime, in seconds since 1970-01-01 00:00:00 of its
    own zone. *)
Definition wall_seconds (dt : datetime) : Z :=
  dt_epoch_us dt / 1000000 + match dt_utcoffset dt with Some off => off | None => 0 end.

(** [dt.strftime("%Y-%m-%d %H:%M:%S")] *)
Definition strftime (dt : datetime) : string :=
  let w := wall_seconds dt in
  let '(y, m, d) := civil_from_days (w / 86400) in
  let sod := w mod 86400 in
  pad 4 y ++ "-" ++ pad 2 m ++ "-" ++ pad 2 d ++ " " ++
  pad 2 (sod / 3600) ++ ":" ++ pad 2 (sod mod 3600 / 60) ++ ":" ++ pad 2 (sod mod 60).

(** [datetime.min] and [datetime.max] as wall-clock seconds:
    0001-01-01 00:00:00 and 9999-12-31 23:59:59. *)
Definition MIN_WALL : Z := -62135596800.
Definition MAX_WALL : Z := 253402300799.

Definition representable (wall : Z) : bool := (MIN_WALL <=? wall) && (wall <=? MAX_WALL).

(** [datetime.fromtimestamp(ts, tz=timezone(timedelta(seconds=offset)))] for a
    timestamp in whole seconds: the UTC fields are built first, then moved to
    the zone; either step raises outside year 1..9999. *)
Definition fromtimestamp (ts : Z) (offset : Z) : result datetime :=
  if representable ts && representable (ts + offset)
  then Return (mk_datetime (ts * 1000000) (Some offset))
  else Raise (Exception "year is out of range").

(** [dt + timedelta(seconds=delta)]; raises [OverflowError] when the wall
    clock leaves year 1..9999. *)
Definition add_seconds (dt : datetime) (delta : Z) : result datetime :=
  if representable (wall_seconds dt + delta)
  then Return (mk_datetime (dt_epoch_us dt + delta * 1000000) (dt_utcoffset dt))
  else Raise (Exception "date value out of range").

(** [s.lower()] on the ASCII letters. *)
Definition lower_ascii (c : ascii) : ascii :=
  let n := nat_of_ascii c in
  if ((65 <=? n) && (n <=? 90))%nat then ascii_of_nat (n + 32) else c.

Fixpoint lower (s : string) : string :=
  match s with
  | EmptyString => EmptyString
  | String c t => String (lower_ascii c) (lower t)
  end.

(** [s[n:]] *)
Fixpoint drop_chars (n : nat) (s : string) : string :=
  match n, s with
  | O, _ => s
  | S k, String _ t => drop_chars k t
  | S _, EmptyString => EmptyString
  end.

(** [urllib.parse.quote(s, safe="")]: letters, digits and [_.-~] stay, every
    other byte becomes [%XX]. *)
Definition hex_digit (n : nat) : ascii :=
  if (n <? 10)%nat then ascii_of_nat (48 + n) else ascii_of_nat (55 + n).

Definition unreserved (c : ascii) : bool :=
  let n := nat_of_ascii c in
  ((48 <=? n) && (n <=? 57) || (65 <=? n) && (n <=? 90) || (97 <=? n) && (n <=? 122)
   || (n =? 95) || (n =? 46) || (n =? 45) || (n =? 126))%nat.

Fixpoint quote (s : string) : string :=
  match s with
  | EmptyString => EmptyString
  | String c t =>
      if unreserved c then String c (quote t)
      else
        let n := nat_of_ascii c in
        String "%" (String (hex_digit (n / 16)) (String (hex_digit (n mod 16)) (quote t)))
  end.

End Py.
Import Py.


(* ===================================================================== *)
(** * Mailbox clients *)
(* ===================================================================== *)

Module Mail.

(** What an HTTP body is to [res.json() if res.content else {}]: empty, not
    JSON of the expected shape (the access raises), or a payload. *)
Inductive body (P : Type) : Type :=
| BodyEmpty
| BodyInvalid
| BodyJson (p : P).
Arguments BodyEmpty {P}.
Arguments BodyInvalid {P}.
Arguments BodyJson {P} p.

Record response (P : Type) : Type := mk_response {
  status_code : Z;
  content : body P
}.
Arguments mk_response {P} _ _.
Arguments status_code {P} _.
Arguments content {P} _.

(** What a client does that the outside can see.  [_log] swallows every
    exception of its callback, so log lines cannot change the control flow
    and are left out. *)
Inductive event : Type :=
| EvFetch                                  (* fetch_verification_code entered *)
| EvListRequest                            (* GET of the message list *)
| EvDetailRequest (pos : nat) (id : pyval) (* GET of one message; pos from 0 *)
| EvSleep (seconds : Z).                   (* time.sleep(interval) *)

(** Result of the scan of the message list: the loop falls through, returns
    a code, or an exception leaves it (caught by the enclosing [try]). *)
Definition scan_result : Type := result (option string) * list event.

Section Clients.

(** [extract_verification_code], the shared pattern matcher imported from
    [core/mail_utils.py]. *)
Variable extract_verification_code : string -> option string.

(** ** GPTMail *)

Record gpt_message : Type := mk_gpt_message {
  g_id : pyval;          (* msg.get("id") *)
  g_timestamp : pyval    (* msg.get("timestamp") *)
}.

Record gpt_list : Type := mk_gpt_list {
  gl_success : pyval;              (* payload.get("success") *)
  gl_emails : list gpt_message     (* (payload.get("data") or {}).get("emails") or [] *)
}.

Record gpt_detail : Type := mk_gpt_detail {
  gd_success : pyval;              (* detail_payload.get("success") *)
  gd_content : option string;      (* data.get("content") *)
  gd_html_content : option string  (* data.get("html_content") *)
}.

(** One state of the GPTMail server: the answer to the list request and, for
    the message at each position, the answer to its detail request. *)
Record gpt_mailbox : Type := mk_gpt_mailbox {
  gpt_list_reply : result (response gpt_list);
  gpt_detail_reply : nat -> pyval -> result (response gpt_detail)
}.

(** [since_ts and isinstance(msg_ts, int) and msg_ts < since_ts] *)
Definition gpt_skip (since_ts : option Z) (msg_ts : pyval) : bool :=
  match since_ts with
  | None => false
  | Some ts =>
      negb (ts =? 0) &&
      match as_int msg_ts with
      | Some m => m <? ts
      | None => false
      end
  end.

(** The body of [for idx, msg in enumerate(emails[:10], 1)], from position
    [pos] on. *)
Fixpoint gpt_scan (mb : gpt_mailbox) (since_ts : option Z) (pos : nat)
    (msgs : list gpt_message) : scan_result :=
  match msgs with
  | [] => (Return None, [])
  | msg :: rest =>
      let msg_id := g_id msg in
      if negb (truthy msg_id) then gpt_scan mb since_ts (S pos) rest
      else if gpt_skip since_ts (g_timestamp msg) then gpt_scan mb since_ts (S pos) rest
      else
        let here := EvDetailRequest pos msg_id in
        let continue :=
          let '(r, tr) := gpt_scan mb since_ts (S pos) rest in (r, here :: tr) in
        match gpt_detail_reply mb pos msg_id with
        | Raise e => (Raise e, [here])
        | Return detail =>
            if negb (status_code detail =? 200) then continue
            else
              match content detail with
              | BodyInvalid => (Raise (Exception "invalid detail payload"), [here])
              | BodyEmpty => continue   (* {} has no "success" *)
              | BodyJson d =>
                  if negb (truthy (gd_success d)) then continue
                  else
                    let text := str_or_empty (gd_content d) ++ str_or_empty (gd_html_content d) in
                    let code := extract_verification_code text in
                    if truthy_str code then (Return code, [here]) else continue
              end
        end
  end.

Definition gpt_fetch_verification_code (email : option string)
    (since_time : option datetime) (mb : gpt_mailbox) : option string * list event :=
  if negb (truthy_str email) then (None, [EvFetch])
  else
    match gpt_list_reply mb with
    | Raise _ => (None, [EvFetch; EvListRequest])
    | Return res =>
        if negb (status_code res =? 200) then (None, [EvFetch; EvListRequest])
        else
          match content res with
          | BodyInvalid => (None, [EvFetch; EvListRequest])
          | BodyEmpty => (None, [EvFetch; EvListRequest])
          | BodyJson payload =>
              if negb (truthy (gl_success payload)) then (None, [EvFetch; EvListRequest])
              else
                match gl_emails payload with
                | [] => (None, [EvFetch; EvListRequest])
                | emails =>
                    let since_ts :=
                      match since_time with
                      | Some t => Some (int_timestamp t)
                      | None => None
                      end in
                    let '(r, tr) := gpt_scan mb since_ts 0 (firstn 10 emails) in
                    (match r with Return code => code | Raise _ => None end,
                     EvFetch :: EvListRequest :: tr)
                end
          end
    end.

(** ** MoeMail *)

Record moe_message : Type := mk_moe_message {
  m_id : pyval;           (* msg.get("id") *)
  m_messageId : pyval;    (* msg.get("messageId") *)
  m_received_at : pyval;  (* msg.get("received_at") *)
  m_receivedAt : pyval;   (* msg.get("receivedAt") *)
  m_sent_at : pyval       (* msg.get("sent_at") *)
}.

(** A message body object; a field is [None] when [.get] is falsy. *)
Record moe_body : Type := mk_moe_body {
  mb_html : option string;     (* message.get("html") *)
  mb_content : option string   (* message.get("content") *)
}.

Record moe_detail : Type := mk_moe_detail {
  md_message : option moe_body;  (* detail_payload.get("message"), when truthy *)
  md_data : option moe_body      (* detail_payload.get("data"), when truthy *)
}.

Record moe_mailbox : Type := mk_moe_mailbox {
  moe_list_reply : result (response (list moe_message));  (* payload.get("messages") or [] *)
  moe_detail_reply : nat -> pyval -> result (response moe_detail)
}.

(** [since_ms and isinstance(sent_at, (int, float)) and sent_at < since_ms] *)
Definition moe_skip (since_ms : option Z) (sent_at : pyval) : bool :=
  match since_ms with
  | None => false
  | Some ms =>
      negb (ms =? 0) &&
      match as_number sent_at with
      | Some q => Qltb q (inject_Z ms)
      | None => false
      end
  end.

(** [msg.get("received_at") or msg.get("receivedAt") or msg.get("sent_at")] *)
Definition moe_sent_at (msg : moe_message) : pyval :=
  py_or (m_received_at msg) (py_or (m_receivedAt msg) (m_sent_at msg)).

Definition empty_moe_body : moe_body := mk_moe_body None None.

(** [message = detail_payload.get("message") or detail_payload.get("data") or {}]
    and then [content = html or text] with [html = message.get("html") or ""],
    [text = message.get("content") or ""]. *)
Definition moe_content (payload : body moe_detail) : string :=
  let message :=
    match payload with
    | BodyJson d =>
        match md_message d, md_data d with
        | Some m, _ => m
        | None, Some m => m
        | None, None => empty_moe_body
        end
    | _ => empty_moe_body
    end in
  let html := str_or_empty (mb_html message) in
  let text := str_or_empty (mb_content message) in
  if negb (String.eqb html "") then html else text.

Fixpoint moe_scan (mb : moe_mailbox) (since_ms : option Z) (pos : nat)
    (msgs : list moe_message) : scan_result :=
  match msgs with
  | [] => (Return None, [])
  | msg :: rest =>
      let msg_id := py_or (m_id msg) (m_messageId msg) in
      if negb (truthy msg_id) then moe_scan mb since_ms (S pos) rest
      else if moe_skip since_ms (moe_sent_at msg) then moe_scan mb since_ms (S pos) rest
      else
        let here := EvDetailRequest pos msg_id in
        let continue :=
          let '(r, tr) := moe_scan mb since_ms (S pos) rest in (r, here :: tr) in
        match moe_detail_reply mb pos msg_id with
        | Raise e => (Raise e, [here])
        | Return detail =>
            if negb (status_code detail =? 200) then continue
            else
              match content detail with
              | BodyInvalid => (Raise (Exception "invalid detail payload"), [here])
              | payload =>
                  let body_text := moe_content payload in
                  if String.eqb body_text "" then continue
                  else
                    let code := extract_verification_code body_text in
                    if truthy_str code then (Return code, [here]) else continue
              end
        end
  end.

Definition moe_fetch_verification_code (email_id : option string)
    (since_time : option datetime) (mb : moe_mailbox) : option string * list event :=
  if negb (truthy_str email_id) then (None, [EvFetch])
  else
    match moe_list_reply mb with
    | Raise _ => (None, [EvFetch; EvListRequest])
    | Return res =>
        if negb (status_code res =? 200) then (None, [EvFetch; EvListRequest])
        else
          match content res with
          | BodyInvalid => (None, [EvFetch; EvListRequest])
          | BodyEmpty => (None, [EvFetch; EvListRequest])
          | BodyJson [] => (None, [EvFetch; EvListRequest])
          | BodyJson messages =>
              let since_ms :=
                match since_time with
                | Some t => Some (int_timestamp_ms t)
                | None => None
                end in
              let '(r, tr) := moe_scan mb since_ms 0 (firstn 10 messages) in
              (match r with Return code => code | Raise _ => None end,
               EvFetch :: EvListRequest :: tr)
          end
    end.

(** ** poll_for_code (the same text in both clients) *)

(** The iterations [i .. max_retries] of [for i in range(1, max_retries + 1)];
    [fetch k] is the [k]-th call (from 0) of [fetch_verification_code], each
    seeing the server as it is at that moment.  [time.sleep] raises
    [ValueError] for a negative length. *)
Fixpoint poll_loop (fetch : nat -> option string * list event) (interval : Z)
    (max_retries : nat) (i : nat) (todo : nat) : result (option string) * list event :=
  match todo with
  | O => (Return None, [])
  | S todo' =>
      let '(code, tr) := fetch (i - 1)%nat in
      if truthy_str code then (Return code, tr)
      else if (i <? max_retries)%nat then
        if interval <? 0
        then (Raise (Exception "sleep length must be non-negative"), tr)
        else
          let '(r, tr') := poll_loop fetch interval max_retries (S i) todo' in
          (r, (tr ++ EvSleep interval :: tr')%list)
      else
        let '(r, tr') := poll_loop fetch interval max_retries (S i) todo' in
        (r, (tr ++ tr')%list)
  end.

(** [timeout // interval] raises [ZeroDivisionError] for a zero interval and
    is the floor division otherwise. *)
Definition poll (fetch : nat -> option string * list event)
    (timeout interval : Z) : result (option string) * list event :=
  if interval =? 0 then (Raise (Exception "integer division or modulo by zero"), [])
  else
    let max_retries := Z.to_nat (Z.max 1 (timeout / interval)) in
    poll_loop fetch interval max_retries 1 max_retries.

Definition gpt_poll_for_code (email : option string) (server : nat -> gpt_mailbox)
    (timeout interval : Z) (since_time : option datetime)
  : result (option string) * list event :=
  poll (fun k => gpt_fetch_verification_code email since_time (server k)) timeout interval.

Definition moe_poll_for_code (email_id : option string) (server : nat -> moe_mailbox)
    (timeout interval : Z) (since_time : option datetime)
  : result (option string) * list event :=
  poll (fun k => moe_fetch_verification_code email_id since_time (server k)) timeout interval.

End Clients.

(** A stand-in for the pattern matcher, for concrete runs: the first six
    consecutive decimal digits. *)
Definition is_digit (c : ascii) : bool :=
  let n := nat_of_ascii c in ((48 <=? n) && (n <=? 57))%nat.

Fixpoint take_digits (n : nat) (s : string) : option string :=
  match n with
  | O => Some ""
  | S k =>
      match s with
      | String c t =>
          if is_digit c
          then match take_digits k t with Some r => Some (String c r) | None => None end
          else None
      | EmptyString => None
      end
  end.

Fixpoint six_digits (s : string) : option string :=
  match take_digits 6 s with
  | Some r => Some r
  | None => match s with String _ t => six_digits t | EmptyString => None end
  end.

(** The fetch and sleep events of a trace, in order. *)
Definition is_cycle_event (e : event) : bool :=
  match e with
  | EvFetch | EvSleep _ => true
  | _ => false
  end.

Definition cycle_events (tr : list event) : list event := List.filter is_cycle_event tr.

(** [k] fetch cycles with a sleep of [interval] between consecutive ones and
    none after the last. *)
Fixpoint cycles (k : nat) (interval : Z) : list event :=
  match k with
  | O => []
  | S O => [EvFetch]
  | S k' => EvFetch :: EvSleep interval :: cycles k' interval
  end.

(** Positions of the messages whose detail was requested. *)
Fixpoint detail_positions (tr : list event) : list nat :=
  match tr with
  | [] => []
  | EvDetailRequest pos _ :: rest => pos :: detail_positions rest
  | _ :: rest => detail_positions rest
  end.

End Mail.

(* ===================================================================== *)
(** * Login state machine: core/gemini_automation_patchright.py *)
(* ===================================================================== *)

Module Automation.

Definition AUTH_HOME_URL : string := "https://auth.business.gemini.google/".
Definition DEFAULT_XSRF_TOKEN : string := "KdLRzKwwBTD5wo8nUollAbY6cW0".
Definition WARMUP_URLS : list string :=
  ["https://www.google.com/"; "https://accounts.google.com/"; "https://myaccount.google.com/"].

(** An element handle of the page. *)
Definition elem : Type := nat.

(** A cookie as [context.cookies()] lists it; [expires] may be missing. *)
Record cookie : Type := mk_cookie {
  ck_name : string;
  ck_value : string;
  ck_expires : option Z
}.

(** A cookie as [context.add_cookies] takes it. *)
Record cookie_param : Type := mk_cookie_param {
  cp_name : string;
  cp_value : string;
  cp_url : string;
  cp_path : string;
  cp_secure : bool
}.

Record context_options : Type := mk_context_options {
  co_headless : bool;
  co_no_viewport : bool;
  co_locale : string;
  co_args : list string;
  co_proxy : option string;
  co_user_agent : option string;
  co_timezone_id : option string;
  co_geolocation : option (Q * Q * Q);
  co_permissions : list string
}.

(** Every call that leaves the class, indexed by the type of its answer.  A
    call that can raise answers with a [result]. *)
Inductive call : Type -> Type :=
| SyncPlaywrightStart : call (result unit)
| Mkdtemp (prefix : string) : call (result string)
| LaunchPersistentContext (user_data_dir : string) (options : context_options)
  : call (result unit)
| SetDefaultTimeout (ms : Z) : call (result unit)
| SetDefaultNavigationTimeout (ms : Z) : call (result unit)
| AddInitScript : call (result unit)
| ContextPages : call (result nat)
| NewPage : call (result unit)
| ContextClose : call (result unit)
| PlaywrightStop : call (result unit)
| PathExists (path : string) : call (result bool)
| Rmtree (path : string) : call (result unit)
| PageGoto (url : string) : call (result unit)
| PageReload : call (result unit)
| PageUrl : call string
| WaitForSelector (selector : string) (timeout_ms : Z) : call (result (option elem))
| QuerySelector (selector : string) : call (result (option elem))
| QuerySelectorAll (selector : string) : call (result (list elem))
| ElemClick (e : elem) : call (result unit)
| ElemInnerText (e : elem) : call (result string)
| ElemType (e : elem) (text : string) (delay : Z) : call (result unit)
| ElemFill (e : elem) (text : string) : call (result unit)
| ElemPress (e : elem) (key : string) : call (result unit)
| KeyboardPress (key : string) : call (result unit)
| MouseMove (x y : Z) : call (result unit)
| MouseWheel (dx dy : Z) : call (result unit)
| AddCookies (cookies : list cookie_param) : call (result unit)
| ContextCookies : call (result (list cookie))
| Makedirs (path : string) : call (result unit)
| Screenshot (path : string) : call (result unit)
| TimeSleep (seconds : Q) : call unit
| TimeTime : call Z                  (* int(time.time()) *)
| DatetimeNow : call Z               (* the clock, in microseconds since the epoch *)
| RandomUniform (a b : Q) : call Q
| RandomRandint (a b : Z) : call Z
| RandomChoices (k : nat) : call string
| LogCallback (level message : string) : call (result unit)
| PollForCode (timeout interval : Z) (since_time : datetime)
  : call (result (option string)).

(** A call together with its answer. *)
Inductive made_call : Type :=
| Made (T : Type) (c : call T) (answer : T).
Arguments Made {T} c answer.

(** The world outside: it answers a call knowing everything that happened
    before (most recent first). *)
Definition environment : Type := forall T : Type, list made_call -> call T -> T.

(** The instance: the attributes [__init__] sets from its arguments, the four
    handles (here: whether they are set), and the calls made so far. *)
Record settings : Type := mk_settings {
  user_agent : string;
  proxy : string;
  headless : bool;
  stealth_enabled : bool;
  webrtc_protect : bool;
  timezone : string;
  geo_latitude : option Q;
  geo_longitude : option Q;
  geo_accuracy : Z;
  random_delay_min_ms : Z;
  random_delay_max_ms : Z;
  verification_poll_attempts : Z;
  verification_poll_interval_seconds : Z;
  verification_resend_clicks : Z;
  warmup_enabled : bool;
  warmup_duration_seconds : Z;
  timeout : Z;
  has_log_callback : bool
}.

(** [__init__] *)
Definition init (user_agent proxy : string) (headless stealth_enabled webrtc_protect : bool)
    (timezone : string) (geo_latitude geo_longitude : option Q) (geo_accuracy : Z)
    (random_delay_min_ms random_delay_max_ms : Z)
    (verification_poll_attempts verification_poll_interval_seconds : Z)
    (verification_resend_clicks : Z) (warmup_enabled : bool)
    (warmup_duration_seconds timeout : Z) (has_log_callback : bool) : settings :=
  let dmin := Z.max 0 random_delay_min_ms in
  {| user_agent := user_agent;
     proxy := strip proxy;
     headless := headless;
     stealth_enabled := stealth_enabled;
     webrtc_protect := webrtc_protect;
     timezone := timezone;
     geo_latitude := geo_latitude;
     geo_longitude := geo_longitude;
     geo_accuracy := geo_accuracy;
     random_delay_min_ms := dmin;
     random_delay_max_ms := Z.max dmin random_delay_max_ms;
     verification_poll_attempts := Z.max 1 verification_poll_attempts;
     verification_poll_interval_seconds := Z.max 1 verification_poll_interval_seconds;
     verification_resend_clicks := Z.max 0 verification_resend_clicks;
     warmup_enabled := warmup_enabled;
     warmup_duration_seconds := Z.max 0 warmup_duration_seconds;
     timeout := timeout;
     has_log_callback := has_log_callback |}.

Record state : Type := mk_state {
  _playwright : bool;
  _context : bool;
  _page : bool;
  _user_data_dir : option string;
  history : list made_call
}.

Definition initial_state : state :=
  {| _playwright := false; _context := false; _page := false;
     _user_data_dir := None; history := [] |}.

(** The account configuration the flow emits. *)
Record account_config : Type := mk_account_config {
  cfg_id : string;
  cfg_csesidx : string;
  cfg_config_id : string;
  cfg_secure_c_ses : option string;
  cfg_host_c_oses : option string;
  cfg_expires_at : string
}.

(** [{"success": False, "error": ...}] or [{"success": True, "config": ...}] *)
Inductive flow_result : Type :=
| Failure (error : string)
| Success (config : account_config).

(** ** Computations *)

(** A method body: it runs from a state of the instance, makes calls, and
    ends with a value or an exception. *)
Definition M (A : Type) : Type := state -> result A * state.

Definition ret {A : Type} (a : A) : M A := fun s => (Return a, s).

Definition raise {A : Type} (e : exn) : M A := fun s => (Raise e, s).

Definition bind {A B : Type} (m : M A) (k : A -> M B) : M B :=
  fun s =>
    match m s with
    | (Return a, s') => k a s'
    | (Raise e, s') => (Raise e, s')
    end.

(** [try: m / except Exception as e: h e]; [TaskCancelledError] is an
    [Exception] and is caught as well. *)
Definition try_except {A : Type} (m : M A) (h : exn -> M A) : M A :=
  fun s =>
    match m s with
    | (Return a, s') => (Return a, s')
    | (Raise e, s') => h e s'
    end.

(** [try: m / except TaskCancelledError: raise / except Exception as e: h e] *)
Definition try_except_reraising_cancel {A : Type} (m : M A) (h : exn -> M A) : M A :=
  fun s =>
    match m s with
    | (Return a, s') => (Return a, s')
    | (Raise (TaskCancelledError msg), s') => (Raise (TaskCancelledError msg), s')
    | (Raise (Exception msg), s') => h (Exception msg) s'
    end.

(** [try: m / finally: f] *)
Definition try_finally {A : Type} (m : M A) (f : M unit) : M A :=
  fun s =>
    match m s with
    | (r, s') =>
        match f s' with
        | (Return _, s'') => (r, s'')
        | (Raise e, s'') => (Raise e, s'')
        end
    end.

Definition record_call (c : made_call) (s : state) : state :=
  {| _playwright := _playwright s; _context := _context s; _page := _page s;
     _user_data_dir := _user_data_dir s; history := c :: history s |}.

Definition set_playwright (b : bool) : M unit :=
  fun s => (Return tt, {| _playwright := b; _context := _context s; _page := _page s;
                          _user_data_dir := _user_data_dir s; history := history s |}).

Definition set_context (b : bool) : M unit :=
  fun s => (Return tt, {| _playwright := _playwright s; _context := b; _page := _page s;
                          _user_data_dir := _user_data_dir s; history := history s |}).

Definition set_page (b : bool) : M unit :=
  fun s => (Return tt, {| _playwright := _playwright s; _context := _context s; _page := b;
                          _user_data_dir := _user_data_dir s; history := history s |}).

Definition set_user_data_dir (d : option string) : M unit :=
  fun s => (Return tt, {| _playwright := _playwright s; _context := _context s;
                          _page := _page s; _user_data_dir := d; history := history s |}).

Definition get {A : Type} (f : state -> A) : M A := fun s => (Return (f s), s).

Declare Scope flow_scope.
Delimit Scope flow_scope with flow.
Notation "x <- m ;; k" := (bind m (fun x => k))
  (at level 100, m at next level, right associativity) : flow_scope.
Notation "m ;; k" := (bind m (fun _ => k))
  (at level 100, right associativity) : flow_scope.
Open Scope flow_scope.

Section Flow.

Variable env : environment.
Variable self : settings.

(** A call that cannot raise. *)
Definition perform {T : Type} (c : call T) : M T :=
  fun s =>
    let answer := env T (history s) c in
    (Return answer, record_call (Made c answer) s).

(** A call that can raise. *)
Definition invoke {T : Type} (c : call (result T)) : M T :=
  fun s =>
    let answer := env (result T) (history s) c in
    (answer, record_call (Made c answer) s).

(** ** Helpers of the class *)

Definition _log (level message : string) : M unit :=
  if has_log_callback self
  then try_except_reraising_cancel (invoke (LogCallback level message)) (fun _ => ret tt)
  else ret tt.

Definition Qmax0 (q : Q) : Q := if Qle_bool 0 q then q else 0%Q.

Definition _sleep (base_seconds : Q) : M unit :=
  extra <- (if 0 <? random_delay_max_ms self
            then u <- perform (RandomUniform (inject_Z (random_delay_min_ms self))
                                             (inject_Z (random_delay_max_ms self))) ;;
                 ret (u / 1000)%Q
            else ret 0%Q) ;;
  perform (TimeSleep (Qmax0 base_seconds + extra)%Q).

Definition _normalize_selector (selector : string) : string :=
  if String.prefix "css:" selector then drop_chars 4 selector
  else if String.prefix "tag:" selector then drop_chars 4 selector
  else selector.

Definition _query (selector : string) (timeout_ms : Z) : M (option elem) :=
  let selector := _normalize_selector selector in
  try_except
    (if 0 <? timeout_ms
     then invoke (WaitForSelector selector timeout_ms)
     else invoke (QuerySelector selector))
    (fun _ => ret None).

Definition _query_all (selector : string) : M (list elem) :=
  let selector := _normalize_selector selector in
  try_except (invoke (QuerySelectorAll selector)) (fun _ => ret []).

(** [a or b] on two queries: the second is not made when the first found
    something. *)
Definition query_or (a b : M (option elem)) : M (option elem) :=
  x <- a ;;
  match x with
  | Some e => ret (Some e)
  | None => b
  end.

Definition _save_screenshot (name : string) : M unit :=
  try_except
    (let screenshot_dir := "data/automation" in
     invoke (Makedirs screenshot_dir) ;;
     now <- perform TimeTime ;;
     let path := screenshot_dir ++ "/" ++ name ++ "_" ++ str_Z now ++ ".png" in
     invoke (Screenshot path))
    (fun _ => ret tt).

Definition _cleanup_user_data (user_data_dir : option string) : M unit :=
  match user_data_dir with
  | None => ret tt
  | Some d =>
      if String.eqb d "" then ret tt
      else
        try_except
          (exists_ <- invoke (PathExists d) ;;
           if (exists_ : bool) then invoke (Rmtree d) else ret tt)
          (fun _ => ret tt)
  end.

Definition _cleanup : M unit :=
  has_context <- get _context ;;
  (if (has_context : bool)
   then try_except (invoke ContextClose) (fun _ => ret tt)
   else ret tt) ;;
  set_context false ;;
  has_playwright <- get _playwright ;;
  (if (has_playwright : bool)
   then try_except (invoke PlaywrightStop) (fun _ => ret tt)
   else ret tt) ;;
  set_playwright false ;;
  set_page false ;;
  dir <- get _user_data_dir ;;
  _cleanup_user_data dir ;;
  set_user_data_dir None.

Definition stop : M unit := try_except _cleanup (fun _ => ret tt).

Definition _create_context : M unit :=
  invoke SyncPlaywrightStart ;;
  set_playwright true ;;
  dir <- invoke (Mkdtemp "patchright_") ;;
  set_user_data_dir (Some dir) ;;
  let args :=
    (["--no-sandbox"; "--disable-dev-shm-usage"; "--disable-setuid-sandbox";
      "--disable-blink-features=AutomationControlled"; "--window-size=1280,800";
      "--disable-quic"; "--disable-http2"]
     ++ (if webrtc_protect self
         then ["--force-webrtc-ip-handling-policy=disable_non_proxied_udp";
               "--webrtc-ip-handling-policy=disable_non_proxied_udp"]
         else [])
     ++ (if String.eqb (proxy self) "" then [] else [("--proxy-server=" ++ proxy self)%string]))%list in
  (if String.eqb (proxy self) "" then ret tt
   else _log "info" ("🌐 使用代理: " ++ proxy self)) ;;
  let geolocation :=
    match geo_latitude self, geo_longitude self with
    | Some lat, Some lon =>
        Some (lat, lon, inject_Z (if geo_accuracy self =? 0 then 50 else geo_accuracy self))
    | _, _ => None
    end in
  let options :=
    {| co_headless := headless self;
       co_no_viewport := true;
       co_locale := "zh-CN";
       co_args := args;
       co_proxy := if String.eqb (proxy self) "" then None else Some (proxy self);
       co_user_agent := if String.eqb (user_agent self) "" then None else Some (user_agent self);
       co_timezone_id := if String.eqb (timezone self) "" then None else Some (timezone self);
       co_geolocation := geolocation;
       co_permissions := match geolocation with Some _ => ["geolocation"] | None => [] end |} in
  invoke (LaunchPersistentContext dir options) ;;
  set_context true ;;
  invoke (SetDefaultTimeout (timeout self * 1000)) ;;
  invoke (SetDefaultNavigationTimeout (timeout self * 1000)) ;;
  (if stealth_enabled self
   then try_except (invoke AddInitScript) (fun _ => ret tt)
   else ret tt) ;;
  pages <- invoke ContextPages ;;
  (if (0 <? pages)%nat then ret tt else invoke NewPage) ;;
  set_page true.

(** [for _ in range(n)] of [_simulate_human_behavior] *)
Fixpoint mouse_moves (n : nat) : M unit :=
  match n with
  | O => ret tt
  | S k =>
      x <- perform (RandomRandint 100 900) ;;
      y <- perform (RandomRandint 100 700) ;;
      invoke (MouseMove x y) ;;
      pause <- perform (RandomUniform (1 # 10) (3 # 10)) ;;
      perform (TimeSleep pause) ;;
      mouse_moves k
  end.

Definition _simulate_human_behavior : M unit :=
  try_except
    (n <- perform (RandomRandint 2 5) ;;
     mouse_moves (Z.to_nat n) ;;
     dy <- perform (RandomRandint 120 480) ;;
     invoke (MouseWheel 0 dy))
    (fun _ => ret tt).

Fixpoint warmup_visits (urls : list string) : M unit :=
  match urls with
  | [] => ret tt
  | url :: rest =>
      try_except
        (_log "info" ("🔥 预热访问: " ++ url) ;;
         invoke (PageGoto url) ;;
         _simulate_human_behavior ;;
         _sleep (inject_Z (warmup_duration_seconds self)))
        (fun exc => _log "warning" ("⚠️ 预热异常: " ++ str_exn exc)) ;;
      warmup_visits rest
  end.

Definition _run_warmup : M unit := warmup_visits WARMUP_URLS.


(** [any(kw in text for kw in keywords)] *)
Definition any_keyword (keywords : list string) (text : string) : bool :=
  existsb (fun kw => contains kw text) keywords.

(** [(btn.inner_text() or "").strip()] inside [try ... except: text = ""];
    [post] is the [.lower()] some callers add. *)
Definition button_text (post : string -> string) (btn : elem) : M string :=
  try_except (t <- invoke (ElemInnerText btn) ;; ret (post (strip t))) (fun _ => ret "").

Definition send_code_keywords : list string :=
  ["通过电子邮件发送验证码"; "通过电子邮件发送"; "email"; "Email"; "Send code";
   "Send verification"; "Verification code"].

(** [f"{keywords}"] *)
Definition send_code_keywords_repr : string :=
  "['通过电子邮件发送验证码', '通过电子邮件发送', 'email', 'Email', 'Send code', 'Send verification', 'Verification code']".

(** The [for btn in ...] of [_click_send_code_button]; [true] is its
    [return True]. *)
Fixpoint send_code_scan (buttons : list elem) : M bool :=
  match buttons with
  | [] => ret false
  | btn :: rest =>
      text <- button_text (fun t => t) btn ;;
      if negb (String.eqb text "") && any_keyword send_code_keywords text then
        clicked <-
          try_except
            (_log "info" ("✅ 找到匹配按钮: '" ++ text ++ "'") ;;
             invoke (ElemClick btn) ;;
             _log "info" "✅ 成功点击发送验证码按钮" ;;
             _sleep 3 ;;
             ret true)
            (fun e => _log "warning" ("⚠️ 点击按钮失败: " ++ str_exn e) ;; ret false) ;;
        if (clicked : bool) then ret true else send_code_scan rest
      else send_code_scan rest
  end.

Definition _click_send_code_button : M bool :=
  _sleep 2 ;;
  direct_btn <- _query "#sign-in-with-email" 5000 ;;
  direct <-
    match direct_btn with
    | Some btn =>
        try_except
          (invoke (ElemClick btn) ;;
           _log "info" "✅ 找到并点击了发送验证码按钮 (ID: #sign-in-with-email)" ;;
           _sleep 3 ;;
           ret true)
          (fun e => _log "warning" ("⚠️ 点击按钮失败: " ++ str_exn e) ;; ret false)
    | None => ret false
    end ;;
  if (direct : bool) then ret true
  else
    found <-
      try_except
        (_log "info" ("🔍 通过关键词搜索按钮: " ++ send_code_keywords_repr) ;;
         buttons <- _query_all "tag:button" ;;
         send_code_scan buttons)
        (fun e => _log "warning" ("⚠️ 搜索按钮异常: " ++ str_exn e) ;; ret false) ;;
    if (found : bool) then ret true
    else
      code_input <- query_or (_query "css:input[jsname='ovqh0b']" 2000)
                             (_query "css:input[name='pinInput']" 1000) ;;
      match code_input with
      | Some _ => _log "info" "✅ 已在验证码输入页面，无需点击按钮" ;; ret true
      | None => _log "error" "❌ 未找到发送验证码按钮" ;; ret false
      end.

(** [for selector in selectors: el = self._query(...); if el: ...] *)
Fixpoint first_found (timeout_ms : Z) (selectors : list string) : M (option elem) :=
  match selectors with
  | [] => ret None
  | selector :: rest =>
      el <- _query selector timeout_ms ;;
      match el with
      | Some e => ret (Some e)
      | None => first_found timeout_ms rest
      end
  end.

Definition code_input_selectors : list string :=
  ["css:input[jsname='ovqh0b']"; "css:input[type='tel']"; "css:input[name='pinInput']";
   "css:input[autocomplete='one-time-code']"].

Fixpoint code_input_rounds (rounds : nat) : M (option elem) :=
  match rounds with
  | O => ret None
  | S k =>
      el <- first_found 1000 code_input_selectors ;;
      match el with
      | Some e => ret (Some e)
      | None => _sleep 2 ;; code_input_rounds k
      end
  end.

Definition _wait_for_code_input (timeout : Z) : M (option elem) :=
  code_input_rounds (Z.to_nat (Z.max 1 (timeout / 2))).

Definition _poll_for_verification_code (since_time : datetime) : M (option string) :=
  let poll_attempts := Z.max 1 (verification_poll_attempts self) in
  let poll_interval := Z.max 1 (verification_poll_interval_seconds self) in
  let poll_timeout := poll_attempts * poll_interval in
  invoke (PollForCode poll_timeout poll_interval since_time).

(** [for char in text: element.type(char, delay=random.randint(50, 150))] *)
Fixpoint type_chars (element : elem) (chars : list ascii) : M unit :=
  match chars with
  | [] => ret tt
  | c :: rest =>
      delay <- perform (RandomRandint 50 150) ;;
      invoke (ElemType element (String c "") delay) ;;
      type_chars element rest
  end.

Definition _simulate_human_input (element : elem) (text : string) : M bool :=
  try_except
    (invoke (ElemClick element) ;;
     p <- perform (RandomUniform (1 # 10) (3 # 10)) ;;
     perform (TimeSleep p) ;;
     type_chars element (list_ascii_of_string text) ;;
     q <- perform (RandomUniform (2 # 10) (5 # 10)) ;;
     perform (TimeSleep q) ;;
     _log "info" "simulated human input successfully" ;;
     ret true)
    (fun e => _log "warning" ("simulated input failed: " ++ str_exn e) ;; ret false).

(** [text and ("重新" in text or "resend" in text)] *)
Definition is_resend_label (text : string) : bool :=
  negb (String.eqb text "") && (contains "重新" text || contains "resend" text).

(** The [for btn in ...] of [_click_resend_code_button]. *)
Fixpoint resend_scan (buttons : list elem) : M bool :=
  match buttons with
  | [] => ret false
  | btn :: rest =>
      text <- button_text lower btn ;;
      if is_resend_label text then
        clicked <-
          try_except
            (_log "info" ("found resend button: " ++ text) ;;
             invoke (ElemClick btn) ;;
             _sleep 2 ;;
             ret true)
            (fun _ => ret false) ;;
        if (clicked : bool) then ret true else resend_scan rest
      else resend_scan rest
  end.

Definition _click_resend_code_button : M bool :=
  _sleep 2 ;;
  try_except
    (buttons <- _query_all "tag:button" ;; resend_scan buttons)
    (fun _ => ret false).

Definition _handle_agreement_page : M unit :=
  url <- perform PageUrl ;;
  if contains "/admin/create" url then
    agree_btn <- _query "css:button.agree-button" 5000 ;;
    match agree_btn with
    | Some btn => invoke (ElemClick btn) ;; _sleep 2
    | None => ret tt
    end
  else ret tt.

Fixpoint business_params_rounds (rounds : nat) : M bool :=
  match rounds with
  | O => ret false
  | S k =>
      url <- perform PageUrl ;;
      if contains "csesidx=" url || contains "/cid/" url
      then _log "info" ("business params ready: " ++ url) ;; ret true
      else _sleep 1 ;; business_params_rounds k
  end.

Definition _wait_for_business_params (timeout : Z) : M bool :=
  business_params_rounds (Z.to_nat timeout).

Definition username_selectors : list string :=
  ["css:input[type='text']"; "css:input[name='displayName']";
   "css:input[aria-label*='用户名' i]"; "css:input[aria-label*='display name' i]"].

Definition username_submit_keywords : list string :=
  ["确认"; "提交"; "继续"; "submit"; "continue"; "confirm"; "save"; "保存"; "下一步"; "next"].

Fixpoint find_username_submit (buttons : list elem) : M (option elem) :=
  match buttons with
  | [] => ret None
  | btn :: rest =>
      text <- button_text lower btn ;;
      if any_keyword username_submit_keywords text then ret (Some btn)
      else find_username_submit rest
  end.

Definition _handle_username_setup : M bool :=
  current_url <- perform PageUrl ;;
  if contains "auth.business.gemini.google/login" current_url then ret false
  else
    username_input <- first_found 2000 username_selectors ;;
    match username_input with
    | None => ret false
    | Some username_input =>
        suffix <- perform (RandomChoices 3) ;;
        let username := "Test" ++ suffix in
        try_except
          (invoke (ElemClick username_input) ;;
           _sleep (2 # 10) ;;
           try_except (invoke (ElemFill username_input "")) (fun _ => ret tt) ;;
           _sleep (1 # 10) ;;
           typed <- _simulate_human_input username_input username ;;
           (if (typed : bool) then ret tt
            else
              _log "warning" "simulated username input failed, fallback to direct input" ;;
              try_except (invoke (ElemType username_input username 80)) (fun _ => ret tt) ;;
              _sleep (3 # 10)) ;;
           buttons <- _query_all "tag:button" ;;
           submit_btn <- find_username_submit buttons ;;
           match submit_btn with
           | Some btn => invoke (ElemClick btn)
           | None => try_except (invoke (ElemPress username_input "Enter")) (fun _ => ret tt)
           end ;;
           _sleep 5 ;;
           ret true)
          (fun _ => ret false)
    end.

Definition SES_COOKIE : string := "__Secure-C_SES".
Definition OSES_COOKIE : string := "__Host-C_OSES".

(** [next((c for c in cookies if c["name"] == name), None)] *)
Definition find_cookie (name : string) (cookies : list cookie) : option cookie :=
  List.find (fun c => String.eqb (ck_name c) name) cookies.

(** A pure step that may raise. *)
Definition lift {A : Type} (r : result A) : M A := fun s => (r, s).

(** [l[1]] *)
Definition second (l : list string) : M string :=
  match nth_error l 1 with
  | Some x => ret x
  | None => raise (Exception "list index out of range")
  end.

(** [timezone(timedelta(hours=8))] and [timedelta(hours=12)], in seconds. *)
Definition beijing_tz : Z := 8 * 3600.
Definition twelve_hours : Z := 12 * 3600.

(** The [if ses_obj and "expires" in ses_obj: ... else: ...] of
    [_extract_config]. *)
Definition compute_expires_at (ses_obj : option cookie) : M string :=
  match ses_obj with
  | Some {| ck_expires := Some expires |} =>
      cookie_expire_beijing <- lift (fromtimestamp expires beijing_tz) ;;
      shifted <- lift (add_seconds cookie_expire_beijing (- twelve_hours)) ;;
      ret (strftime shifted)
  | _ =>
      now <- perform DatetimeNow ;;
      shifted <- lift (add_seconds (mk_datetime now (Some beijing_tz)) twelve_hours) ;;
      ret (strftime shifted)
  end.

Definition _extract_config (email : string) : M flow_result :=
  try_except
    (url0 <- perform PageUrl ;;
     (if negb (contains "cid/" url0)
      then invoke (PageGoto "https://business.gemini.google/") ;; _sleep 3
      else ret tt) ;;
     url <- perform PageUrl ;;
     if negb (contains "cid/" url) then ret (Failure "cid not found")
     else
       after_cid <- second (split "cid/" url) ;;
       let config_id := hd "" (split "/" (hd "" (split "?" after_cid))) in
       csesidx <-
         (if contains "csesidx=" url
          then after <- second (split "csesidx=" url) ;; ret (hd "" (split "&" after))
          else ret "") ;;
       cookies <- invoke ContextCookies ;;
       let ses := option_map ck_value (find_cookie SES_COOKIE cookies) in
       let host := option_map ck_value (find_cookie OSES_COOKIE cookies) in
       let ses_obj := find_cookie SES_COOKIE cookies in
       expires_at <- compute_expires_at ses_obj ;;
       ret (Success {| cfg_id := email;
                       cfg_csesidx := csesidx;
                       cfg_config_id := config_id;
                       cfg_secure_c_ses := ses;
                       cfg_host_c_oses := host;
                       cfg_expires_at := expires_at |}))
    (fun e => ret (Failure (str_exn e))).

(** ** The flow *)

(** Step 1 of [_run_flow]: the landing page, the two cookies, the deep link.
    Its value is [send_time]. *)
Definition open_login_link (email : string) : M datetime :=
  now <- perform DatetimeNow ;;
  let send_time := mk_datetime now None in
  _log "info" ("🌐 正在打开登录页面: " ++ email) ;;
  invoke (PageGoto AUTH_HOME_URL) ;;
  _sleep 2 ;;
  try_except
    (_log "info" "🍪 正在设置认证 Cookies..." ;;
     invoke (AddCookies
               [ {| cp_name := "__Host-AP_SignInXsrf"; cp_value := DEFAULT_XSRF_TOKEN;
                    cp_url := AUTH_HOME_URL; cp_path := "/"; cp_secure := true |};
                 {| cp_name := "_GRECAPTCHA"; cp_value := "09ABCL...";
                    cp_url := "https://google.com"; cp_path := "/"; cp_secure := true |} ]) ;;
     _log "info" "✅ Cookies 设置成功")
    (fun e => _log "warning" ("⚠️ 设置 Cookies 失败: " ++ str_exn e)) ;;
  let login_hint := quote email in
  let login_url :=
    "https://auth.business.gemini.google/login/email?"
    ++ "continueUrl=https%3A%2F%2Fbusiness.gemini.google%2F&loginHint=" ++ login_hint
    ++ "&xsrfToken=" ++ DEFAULT_XSRF_TOKEN in
  _log "info" "🔗 正在访问登录链接..." ;;
  invoke (PageGoto login_url) ;;
  _sleep 5 ;;
  ret send_time.

(** Step 2: [has_business_params] right after the deep link. *)
Definition logged_in_already (current_url : string) : bool :=
  contains "business.gemini.google" current_url &&
  (contains "csesidx=" current_url || contains "/cid/" current_url).

(** Step 5, the [for attempt in range(self.verification_resend_clicks)]:
    [inl] is a [return] of the flow, [inr code] the value of [code] when the
    loop is left. *)
Fixpoint resend_loop (todo : nat) (attempt : nat) : M (flow_result + option string) :=
  match todo with
  | O => ret (inr None)
  | S k =>
      now <- perform DatetimeNow ;;
      let send_time := mk_datetime now None in
      clicked <- _click_resend_code_button ;;
      if negb clicked then
        _log "error" "❌ 未找到重新发送按钮" ;;
        _save_screenshot "resend_button_missing" ;;
        ret (inl (Failure "resend code button not found"))
      else
        _log "info" ("🔄 已点击重新发送按钮 (" ++ str_Z (Z.of_nat attempt + 1) ++ "/"
                     ++ str_Z (verification_resend_clicks self) ++ ")，等待新验证码...") ;;
        code <- _poll_for_verification_code send_time ;;
        if truthy_str code then ret (inr code) else resend_loop k (S attempt)
  end.

(** Step 5: [inl] is a [return] of the flow, [inr] the code. *)
Definition obtain_code (send_time : datetime) : M (flow_result + string) :=
  _log "info" "📬 开始轮询邮箱获取验证码..." ;;
  code <- _poll_for_verification_code send_time ;;
  if truthy_str code then ret (inr (str_or_empty code))
  else if verification_resend_clicks self <=? 0 then
    _log "error" "❌ 验证码获取超时" ;;
    _save_screenshot "code_timeout" ;;
    ret (inl (Failure "verification code timeout"))
  else
    _log "warning" ("⚠️ 验证码获取超时，准备重发 "
                    ++ str_Z (verification_resend_clicks self) ++ " 次...") ;;
    r <- resend_loop (Z.to_nat (verification_resend_clicks self)) 0 ;;
    match r with
    | inl early => ret (inl early)
    | inr code =>
        if truthy_str code then ret (inr (str_or_empty code))
        else
          _log "error" "❌ 多次重发后仍未收到验证码" ;;
          _save_screenshot "code_timeout_after_resend" ;;
          ret (inl (Failure "verification code timeout after resend"))
    end.

(** Step 7, [for _ in range(wait_rounds)] *)
Fixpoint wait_redirect (rounds : nat) (current_url : string) : M string :=
  match rounds with
  | O => ret current_url
  | S k =>
      _sleep 2 ;;
      url <- perform PageUrl ;;
      if negb (contains "verify-oob-code" url) then ret url else wait_redirect k url
  end.

Definition submit_keywords : list string :=
  ["Verify"; "Continue"; "提交"; "继续"; "确认"; "下一步"; "验证"].

Fixpoint find_submit_button (buttons : list elem) : M (option elem) :=
  match buttons with
  | [] => ret None
  | btn :: rest =>
      t <- invoke (ElemInnerText btn) ;;
      let text := strip t in
      if negb (String.eqb text "") && any_keyword submit_keywords text then ret (Some btn)
      else find_submit_button rest
  end.

(** Step 7, [for attempt in range(max_submit_attempts)] with
    [max_submit_attempts = 3], [wait_rounds = 5]. *)
Fixpoint submit_attempts (todo : nat) (attempt : nat) (code_input : elem)
    (current_url : string) : M string :=
  match todo with
  | O => ret current_url
  | S k =>
      current_url <- wait_redirect 5 current_url ;;
      if negb (contains "verify-oob-code" current_url) then ret current_url
      else
        (if (attempt <? 2)%nat then
           _log "warning" ("⚠️ 未跳转，重试提交验证码 (" ++ str_Z (Z.of_nat attempt + 1)
                           ++ "/2)") ;;
           try_except (invoke (ElemPress code_input "Enter")) (fun _ => ret tt) ;;
           submit_btn <- _query "css:button[type='submit']" 2000 ;;
           submit_btn <-
             match submit_btn with
             | Some b => ret (Some b)
             | None => buttons <- _query_all "tag:button" ;; find_submit_button buttons
             end ;;
           match submit_btn with
           | Some b => try_except (invoke (ElemClick b)) (fun _ => ret tt)
           | None => ret tt
           end
         else ret tt) ;;
        submit_attempts k (S attempt) code_input current_url
  end.

(** Steps 12 and 13. *)
Definition await_params_and_extract (email : string) : M flow_result :=
  let finish :=
    _log "info" "🎊 登录流程完成，正在提取配置..." ;;
    _extract_config email in
  _log "info" "waiting for URL parameters" ;;
  ok <- _wait_for_business_params 30 ;;
  if (ok : bool) then finish
  else
    _log "warning" "URL parameters not generated, trying refresh" ;;
    try_except (invoke PageReload) (fun _ => ret tt) ;;
    _sleep 5 ;;
    ok <- _wait_for_business_params 30 ;;
    if (ok : bool) then finish
    else
      _log "error" "URL parameters generation failed" ;;
      current_url <- perform PageUrl ;;
      _log "error" ("final URL: " ++ current_url) ;;
      _save_screenshot "params_missing" ;;
      ret (Failure "URL parameters not found").

(** Steps 6 to 13. *)
Definition submit_code_and_extract (email code : string) : M flow_result :=
  _log "info" ("✅ 收到验证码: " ++ code) ;;
  code_input <- query_or (_query "css:input[jsname='ovqh0b']" 3000)
                         (_query "css:input[type='tel']" 2000) ;;
  match code_input with
  | None =>
      _log "error" "❌ 验证码输入框已失效" ;;
      ret (Failure "code input expired")
  | Some code_input =>
      _log "info" "⌨️ 正在输入验证码 (模拟人类输入)..." ;;
      typed <- _simulate_human_input code_input code ;;
      (if (typed : bool) then ret tt
       else
         _log "warning" "⚠️ 模拟输入失败，降级为直接输入" ;;
         try_except (invoke (ElemFill code_input code)) (fun _ => ret tt) ;;
         _sleep (1 # 2)) ;;
      _log "info" "⏎ 按下回车键提交验证码" ;;
      try_except (invoke (ElemPress code_input "Enter"))
        (fun _ => try_except (invoke (KeyboardPress "Enter")) (fun _ => ret tt)) ;;
      _log "info" "⏳ 等待验证后自动跳转..." ;;
      current_url <- perform PageUrl ;;
      current_url <- submit_attempts 3 0 code_input current_url ;;
      _log "info" ("📍 验证后 URL: " ++ current_url) ;;
      if contains "verify-oob-code" current_url then
        _log "error" "❌ 验证码提交失败，仍停留在验证页面" ;;
        _save_screenshot "verification_submit_failed" ;;
        ret (Failure "verification code submission failed")
      else
        _handle_agreement_page ;;
        current_url <- perform PageUrl ;;
        if contains "business.gemini.google" current_url
           && contains "csesidx=" current_url && contains "/cid/" current_url
        then
          _log "info" "already on business page with parameters" ;;
          _extract_config email
        else
          (if negb (contains "business.gemini.google" current_url) then
             _log "info" "navigating to business page" ;;
             invoke (PageGoto "https://business.gemini.google/") ;;
             _sleep 5 ;;
             current_url <- perform PageUrl ;;
             _log "info" ("URL after navigation: " ++ current_url)
           else ret tt) ;;
          url <- perform PageUrl ;;
          (if negb (contains "cid" url) then
             done <- _handle_username_setup ;;
             if (done : bool) then _sleep 5 else ret tt
           else ret tt) ;;
          await_params_and_extract email
  end.

(** Steps 3 to 13: what the flow does when the shortcut of step 2 is not
    taken. *)
Definition request_code_and_verify (email : string) (send_time : datetime) : M flow_result :=
  _log "info" "🔘 正在查找并点击发送验证码按钮..." ;;
  sent <- _click_send_code_button ;;
  if negb sent then
    _log "error" "❌ 未找到发送验证码按钮" ;;
    _save_screenshot "send_code_button_missing" ;;
    ret (Failure "send code button not found")
  else
    _log "info" "⏳ 等待验证码输入框出现..." ;;
    code_input <- _wait_for_code_input 30 ;;
    match code_input with
    | None =>
        _log "error" "❌ 验证码输入框未出现" ;;
        _save_screenshot "code_input_missing" ;;
        ret (Failure "code input not found")
    | Some _ =>
        r <- obtain_code send_time ;;
        match r with
        | inl early => ret early
        | inr code => submit_code_and_extract email code
        end
    end.

Definition _run_flow (email : string) : M flow_result :=
  send_time <- open_login_link email ;;
  current_url <- perform PageUrl ;;
  _log "info" ("📍 当前 URL: " ++ current_url) ;;
  if logged_in_already current_url then
    _log "info" "✅ 检测到已登录，直接提取配置" ;;
    _extract_config email
  else request_code_and_verify email send_time.

(** The [try] block of [login_and_extract]. *)
Definition login_body (email : string) : M flow_result :=
  _create_context ;;
  (if warmup_enabled self then _run_warmup else ret tt) ;;
  _run_flow email.

Definition login_and_extract (email : string) : M flow_result :=
  try_finally
    (try_except_reraising_cancel (login_body email)
       (fun exc =>
          _log "error" ("automation error: " ++ str_exn exc) ;;
          ret (Failure (str_exn exc))))
    _cleanup.

End Flow.

(** ** The cancellation signal *)

(** Whether the log callback has raised [TaskCancelledError] in a history. *)
Fixpoint signalled (h : list made_call) : bool :=
  match h with
  | [] => false
  | Made c answer :: older =>
      match c in call T return T -> bool with
      | LogCallback _ _ =>
          fun a =>
            match a with
            | Raise (TaskCancelledError _) => true
            | _ => signalled older
            end
      | _ => fun _ => signalled older
      end answer
  end.

(** A log callback that, once it has raised the signal, raises it at every
    later call: what a callback does that looks at a flag which stays set. *)
Definition persistent (env : environment) : Prop :=
  forall h level message,
    signalled h = true ->
    exists msg, env (result unit) h (LogCallback level message) = Raise (TaskCancelledError msg).

(** ** The caller of the flow *)

(** Step 3 of [_register_one] ([core/register_service.py]): the [try] around
    [automation.login_and_extract(client.email, client)] and the check of its
    result.  [_register_one] logs through the callback it also hands to the
    automation object; [login] is the [login_and_extract] of whichever engine
    was chosen.  [inr error] is [return {"success": False, "error": error}],
    [inl config] goes on to save the configuration. *)
Definition register_login (env : environment) (login : M flow_result)
  : M (account_config + string) :=
  result <-
    try_except
      (invoke env (LogCallback "info" "🔐 步骤 3/3: 执行 Gemini 自动登录...") ;;
       r <- login ;;
       ret (inl r))
      (fun exc =>
         invoke env (LogCallback "error" ("❌ 自动登录异常: " ++ str_exn exc)) ;;
         ret (inr (str_exn exc))) ;;
  match result with
  | inr error => ret (inr error)
  | inl (Failure error) =>
      invoke env (LogCallback "error" ("❌ 自动登录失败: " ++ error)) ;;
      ret (inr error)
  | inl (Success config) => ret (inl config)
  end.

End Automation.

(* ===================================================================== *)
(** * Task orchestrator: core/register_service.py *)
(* ===================================================================== *)

Module Register.

Inductive TaskStatus : Type := PENDING | RUNNING | SUCCESS | FAILED | CANCELLED.

(** The dict one attempt hands back: [{"success": ..., "error": ...}] or
    [{"success": True, "email": ..., "config": ...}] (the nested config object
    is not a scalar and is not kept). *)
Abbreviation attempt_dict := (gmap string pyval).

(** [{"success": False, "error": msg}] *)
Definition failure_dict (msg : string) : attempt_dict :=
  <["error" := PStr msg]> (<["success" := PBool false]> ∅).

(** [result.get("success")] as a truth value *)
Definition dict_success (d : attempt_dict) : bool :=
  match d !! "success" with Some v => truthy v | None => false end.

(** A log line: what the f-string of the call is built from. *)
Inductive log_message : Type :=
| LogQueued (count : Z) (domain : option string)  (* register task queued (count=.., domain=..) *)
| LogCreated (count : Z)                           (* task created (amount=..) *)
| LogStarted (count : Z)                           (* task started (.. accounts in total) *)
| LogCancelled (reason : string)                   (* register task cancelled: .. *)
| LogProgress (current total : Z)                  (* progress: ../.. *)
| LogSuccess (email : pyval)                       (* registered: .. *)
| LogFailure (error : pyval)                       (* registration failed: .. *)
| LogSleep (seconds : Q)                           (* sleeping .. seconds before the next one *)
| LogFinished (ok failed total : Z)                (* task finished (ok, failed, total) *)
| LogAttempt (text : string).                      (* a line written by _register_one *)

Record log_entry : Type := mk_log_entry {
  log_level : string;
  log_text : log_message
}.

(** Modelled from the spec: [BaseTask] of [core/base_task_service.py], the Job
    record of the data model (id, status, progress counter, append-only log,
    cancellation flag and reason, created and finished timestamps, list of
    per-attempt results), with the two counters [_run_register_async] keeps;
    [RegisterTask] adds [count] and [domain].  A new task is PENDING with
    zero counters, no results, no log and no cancellation. *)
Record RegisterTask : Type := mk_task {
  id : string;
  status : TaskStatus;
  progress : Z;
  success_count : Z;
  fail_count : Z;
  created_at : Z;
  finished_at : option Z;
  results : list attempt_dict;
  logs : list log_entry;
  cancel_requested : bool;
  cancel_reason : option string;
  count : Z;
  domain : option string
}.

Definition new_task (task_id : string) (now : Z) (n : Z) (d : option string) : RegisterTask :=
  {| id := task_id; status := PENDING; progress := 0; success_count := 0;
     fail_count := 0; created_at := now; finished_at := None; results := [];
     logs := []; cancel_requested := false; cancel_reason := None;
     count := n; domain := d |}.

Definition set_status (s : TaskStatus) (t : RegisterTask) : RegisterTask :=
  {| id := id t; status := s; progress := progress t; success_count := success_count t;
     fail_count := fail_count t; created_at := created_at t; finished_at := finished_at t;
     results := results t; logs := logs t; cancel_requested := cancel_requested t;
     cancel_reason := cancel_reason t; count := count t; domain := domain t |}.

Definition set_finished_at (now : Z) (t : RegisterTask) : RegisterTask :=
  {| id := id t; status := status t; progress := progress t; success_count := success_count t;
     fail_count := fail_count t; created_at := created_at t; finished_at := Some now;
     results := results t; logs := logs t; cancel_requested := cancel_requested t;
     cancel_reason := cancel_reason t; count := count t; domain := domain t |}.

(** [task.progress += 1; task.results.append(result)] *)
Definition record_result (r : attempt_dict) (t : RegisterTask) : RegisterTask :=
  {| id := id t; status := status t; progress := progress t + 1;
     success_count := success_count t; fail_count := fail_count t;
     created_at := created_at t; finished_at := finished_at t;
     results := (results t ++ [r])%list; logs := logs t;
     cancel_requested := cancel_requested t; cancel_reason := cancel_reason t;
     count := count t; domain := domain t |}.

Definition incr_success_count (t : RegisterTask) : RegisterTask :=
  {| id := id t; status := status t; progress := progress t;
     success_count := success_count t + 1; fail_count := fail_count t;
     created_at := created_at t; finished_at := finished_at t; results := results t;
     logs := logs t; cancel_requested := cancel_requested t;
     cancel_reason := cancel_reason t; count := count t; domain := domain t |}.

Definition incr_fail_count (t : RegisterTask) : RegisterTask :=
  {| id := id t; status := status t; progress := progress t;
     success_count := success_count t; fail_count := fail_count t + 1;
     created_at := created_at t; finished_at := finished_at t; results := results t;
     logs := logs t; cancel_requested := cancel_requested t;
     cancel_reason := cancel_reason t; count := count t; domain := domain t |}.

Definition add_logs (ls : list log_entry) (t : RegisterTask) : RegisterTask :=
  {| id := id t; status := status t; progress := progress t;
     success_count := success_count t; fail_count := fail_count t;
     created_at := created_at t; finished_at := finished_at t; results := results t;
     logs := (logs t ++ ls)%list; cancel_requested := cancel_requested t;
     cancel_reason := cancel_reason t; count := count t; domain := domain t |}.

(** Modelled from the spec: [_append_log] of [core/base_task_service.py]; the
    log of a Job is ordered and append-only, so a call adds one entry at the
    end. *)
Definition _append_log (level : string) (msg : log_message) (t : RegisterTask) : RegisterTask :=
  add_logs [mk_log_entry level msg] t.

(** Modelled from the spec: [cancel_task] of [core/base_task_service.py] on a
    running job sets the cancellation flag and its reason on the shared task
    object; the worker sees it at its next read. *)
Definition request_cancel (reason : option string) (t : RegisterTask) : RegisterTask :=
  {| id := id t; status := status t; progress := progress t;
     success_count := success_count t; fail_count := fail_count t;
     created_at := created_at t; finished_at := finished_at t; results := results t;
     logs := logs t; cancel_requested := true; cancel_reason := reason;
     count := count t; domain := domain t |}.

(** What another party did to the task while the worker was suspended in an
    [await]: nothing, or a cancel request with its reason. *)
Definition interfere (c : option (option string)) (t : RegisterTask) : RegisterTask :=
  match c with
  | Some reason => request_cancel reason t
  | None => t
  end.

(** [config.automation] and [config.basic], as far as the service reads them. *)
Record Config : Type := mk_config {
  register_domain : option string;
  register_default_count : Z;
  between_account_min_seconds : Z;
  between_account_max_seconds : Z
}.

(** What [await loop.run_in_executor(self._executor, self._register_one, ...)]
    amounts to for the worker: the value or exception of [_register_one], the
    lines it logged, and a cancel request that arrived meanwhile. *)
Record attempt_reply : Type := mk_attempt_reply {
  ar_outcome : result attempt_dict;
  ar_logs : list string;
  ar_cancel : option (option string)
}.

(** The surroundings of one run of the worker. *)
Record run_env : Type := mk_run_env {
  register_one : nat -> attempt_reply;           (* the attempt of iteration idx *)
  random_uniform : nat -> Z -> Z -> Q;           (* random.uniform(a, b) in iteration idx *)
  during_sleep : nat -> option (option string);  (* cancel request during the pause after idx *)
  time_time : Z                                  (* time.time() when the run ends *)
}.

Inductive loop_exit : Type :=
| Returned (t : RegisterTask)      (* a [return] inside the loop *)
| FellThrough (t : RegisterTask).  (* the loop ran to its end *)

(** The pause between two accounts. *)
Definition between_accounts (env : run_env) (cfg : Config) (idx : nat) (t : RegisterTask)
  : RegisterTask :=
  if Z.of_nat idx <? count t - 1 then
    let delay_min := between_account_min_seconds cfg in
    let delay_max := between_account_max_seconds cfg in
    if 0 <? delay_max then
      let delay_min := Z.max 0 delay_min in
      let delay_max := Z.max delay_min delay_max in
      let sleep_seconds := random_uniform env idx delay_min delay_max in
      if Qltb 0 sleep_seconds
      then interfere (during_sleep env idx) (_append_log "info" (LogSleep sleep_seconds) t)
      else t
    else t
  else t.

(** [result.get(key, default)] *)
Definition dict_get (d : attempt_dict) (key : string) (default : string) : pyval :=
  match d !! key with Some v => v | None => PStr default end.

(** The dict the worker records for what [_register_one] gave: its return
    value, or [{"success": False, "error": str(exc)}] for an exception. *)
Definition recorded (outcome : result attempt_dict) : attempt_dict :=
  match outcome with
  | Return r => r
  | Raise exc => failure_dict (str_exn exc)
  end.

(** One pass through the body of [for idx in range(task.count)]. *)
Inductive iteration_exit : Type :=
| Stop (t : RegisterTask) (started : bool)  (* [return]; was the attempt started? *)
| Next (t : RegisterTask).                  (* on to the next [idx] *)

Definition iteration (env : run_env) (cfg : Config) (idx : nat) (t : RegisterTask)
  : iteration_exit :=
  if cancel_requested t then
    let reason :=
      match cancel_reason t with
      | Some r => if String.eqb r "" then "cancelled" else r
      | None => "cancelled"
      end in
    let t := _append_log "warning" (LogCancelled reason) t in
    Stop (set_finished_at (time_time env) (set_status CANCELLED t)) false
  else
    let t := _append_log "info" (LogProgress (Z.of_nat idx + 1) (count t)) t in
    let reply := register_one env idx in
    let t := add_logs (map (fun s => mk_log_entry "info" (LogAttempt s)) (ar_logs reply)) t in
    let t := interfere (ar_cancel reply) t in
    match ar_outcome reply with
    | Raise (TaskCancelledError _) =>
        Stop (set_finished_at (time_time env) (set_status CANCELLED t)) true
    | outcome =>
        let result := recorded outcome in
        let t := record_result result t in
        let t :=
          if dict_success result
          then _append_log "info" (LogSuccess (dict_get result "email" "未知"))
                 (incr_success_count t)
          else _append_log "error" (LogFailure (dict_get result "error" "未知错误"))
                 (incr_fail_count t) in
        Next (between_accounts env cfg idx t)
    end.

(** The [todo] iterations from [idx] on, with the list of the attempts that
    were started. *)
Fixpoint register_loop (env : run_env) (cfg : Config) (todo : nat) (idx : nat)
    (t : RegisterTask) : loop_exit * list nat :=
  match todo with
  | O => (FellThrough t, [])
  | S todo' =>
      match iteration env cfg idx t with
      | Stop t' started => (Returned t', if started then [idx] else [])
      | Next t' =>
          let '(out, started) := register_loop env cfg todo' (S idx) t' in
          (out, idx :: started)
      end
  end.

Definition _run_register_async (env : run_env) (cfg : Config) (t : RegisterTask)
  : RegisterTask * list nat :=
  let t := _append_log "info" (LogStarted (count t)) t in
  let '(out, started) := register_loop env cfg (Z.to_nat (count t)) 0 t in
  match out with
  | Returned t => (t, started)
  | FellThrough t =>
      let t :=
        if cancel_requested t then set_status CANCELLED t
        else set_status (if fail_count t =? 0 then SUCCESS else FAILED) t in
      let t := set_finished_at (time_time env) t in
      (_append_log "info" (LogFinished (success_count t) (fail_count t) (count t)) t, started)
  end.

(** Modelled from the spec: the part of [BaseTaskService]
    ([core/base_task_service.py]) that [start_register] touches: the task
    table, the run of the single worker and its serial queue of pending
    jobs. *)
Record Service : Type := mk_service {
  _tasks : gmap string RegisterTask;
  _current_task_id : option string;
  _queue : list string
}.

(** Modelled from the spec: [get_current_task] of
    [core/base_task_service.py]: the job the worker holds, else the pending
    job at the head of the queue, else nothing. *)
Definition get_current_task (s : Service) : option RegisterTask :=
  match _current_task_id s with
  | Some i => _tasks s !! i
  | None =>
      match _queue s with
      | i :: _ => _tasks s !! i
      | [] => None
      end
  end.

(** Modelled from the spec: [_enqueue_task] of [core/base_task_service.py]
    puts the job at the end of the serial queue. *)
Definition _enqueue_task (task_id : string) (s : Service) : Service :=
  {| _tasks := _tasks s; _current_task_id := _current_task_id s;
     _queue := (_queue s ++ [task_id])%list |}.

(** [_append_log] on the task object that [_tasks] holds. *)
Definition log_task (task_id : string) (level : string) (msg : log_message) (s : Service)
  : Service :=
  {| _tasks := alter (_append_log level msg) task_id (_tasks s);
     _current_task_id := _current_task_id s; _queue := _queue s |}.

Definition active (st : TaskStatus) : bool :=
  match st with PENDING | RUNNING => true | _ => false end.

Definition msg_disabled : string := "已设置 ACCOUNTS_CONFIG 环境变量，注册功能已禁用".
Definition msg_already_running : string := "已有注册任务正在运行中".

(** [start_register], under [self._lock].  [environ] is
    [os.environ.get("ACCOUNTS_CONFIG")], [uuid] the value of [uuid.uuid4()],
    [now] the clock at construction.  The task object is shared between
    [_tasks], the queue and the caller, so the caller gets its id. *)
Definition start_register (cfg : Config) (environ : option string) (uuid : string) (now : Z)
    (n : option Z) (d : option string) (s : Service) : result string * Service :=
  if truthy_str environ then (Raise (Exception msg_disabled), s)
  else
    let busy :=
      match get_current_task s with
      | Some current => active (status current)
      | None => false
      end in
    if busy then (Raise (Exception msg_already_running), s)
    else
      let domain_value := strip (str_or_empty d) in
      let domain_value :=
        if String.eqb domain_value "" then
          let c := strip (str_or_empty (register_domain cfg)) in
          if String.eqb c "" then None else Some c
        else Some domain_value in
      let register_count :=
        match n with
        | Some c => if c =? 0 then register_default_count cfg else c
        | None => register_default_count cfg
        end in
      let register_count := Z.max 1 register_count in
      let task := new_task uuid now register_count domain_value in
      let s := {| _tasks := <[id task := task]> (_tasks s);
                  _current_task_id := _current_task_id s; _queue := _queue s |} in
      let s := log_task (id task) "info" (LogQueued register_count domain_value) s in
      let s := _enqueue_task (id task) s in
      let s := log_task (id task) "info" (LogCreated register_count) s in
      (Return (id task), s).

End Register.

(* ===================================================================== *)
(** * Concrete surroundings for test runs *)
(* ===================================================================== *)

Module Samples.
Import Register.

Definition sample_config : Config :=
  {| register_domain := Some " mail.example.org ";
     register_default_count := 2;
     between_account_min_seconds := 1;
     between_account_max_seconds := 3 |}.

Definition empty_service : Service :=
  {| _tasks := ∅; _current_task_id := None; _queue := [] |}.

(** [{"success": True, "email": address}] *)
Definition success_dict (address : string) : attempt_dict :=
  <["email" := PStr address]> (<["success" := PBool true]> ∅).

Definition quiet_reply (o : result attempt_dict) : attempt_reply :=
  {| ar_outcome := o; ar_logs := []; ar_cancel := None |}.

(** Attempt 0 times out in the verification step, every later one succeeds;
    nobody cancels. *)
Definition env_first_fails : run_env :=
  {| register_one := fun idx =>
       match idx with
       | O => quiet_reply (Return (failure_dict "verification code timeout"))
       | _ => quiet_reply (Return (success_dict "user@mail.example.org"))
       end;
     random_uniform := fun _ a _ => inject_Z a;
     during_sleep := fun _ => None;
     time_time := 1700000000 |}.

(** Every attempt succeeds; a cancel request arrives during the pause after
    the first one. *)
Definition env_cancel_after_first : run_env :=
  {| register_one := fun _ => quiet_reply (Return (success_dict "user@mail.example.org"));
     random_uniform := fun _ a _ => inject_Z a;
     during_sleep := fun idx => match idx with O => Some (Some "by user") | _ => None end;
     time_time := 1700000000 |}.

(** The first attempt succeeds, the second is interrupted by the
    cancellation signal. *)
Definition env_cancel_inside_second : run_env :=
  {| register_one := fun idx =>
       match idx with
       | O => quiet_reply (Return (success_dict "user@mail.example.org"))
       | _ => {| ar_outcome := Raise (TaskCancelledError "by user"); ar_logs := [];
                 ar_cancel := Some (Some "by user") |}
       end;
     random_uniform := fun _ a _ => inject_Z a;
     during_sleep := fun _ => None;
     time_time := 1700000000 |}.

(** The first attempt succeeds, the second raises an ordinary exception;
    nobody cancels. *)
Definition env_second_raises : run_env :=
  {| register_one := fun idx =>
       match idx with
       | O => quiet_reply (Return (success_dict "user@mail.example.org"))
       | _ => quiet_reply (Raise (Exception "browser crashed"))
       end;
     random_uniform := fun _ a _ => inject_Z a;
     during_sleep := fun _ => None;
     time_time := 1700000000 |}.

(** Every attempt succeeds; nobody cancels. *)
Definition env_all_succeed : run_env :=
  {| register_one := fun _ => quiet_reply (Return (success_dict "user@mail.example.org"));
     random_uniform := fun _ a _ => inject_Z a;
     during_sleep := fun _ => None;
     time_time := 1700000000 |}.

(** A task as the worker receives it. *)
Definition running_task (n : Z) : RegisterTask :=
  set_status RUNNING (new_task "job-1" 1699999999 n None).

Import Mail.

(** 2023-11-14 22:13:20.5 UTC, and the same instant taken up to the
    millisecond. *)
Definition half_past : datetime := mk_datetime 1700000000500000 None.
Definition half_past_ms : datetime := mk_datetime 1700000000000500 None.

Definition code_mail : response gpt_detail :=
  mk_response 200
    (BodyJson {| gd_success := PBool true;
                 gd_content := Some "Your verification code is 123456";
                 gd_html_content := None |}).

(** A GPTMail inbox whose only message was stamped at second 1700000000,
    half a second before [half_past]. *)
Definition same_second_gpt_mailbox : gpt_mailbox :=
  {| gpt_list_reply :=
       Return (mk_response 200
                 (BodyJson {| gl_success := PBool true;
                              gl_emails := [ {| g_id := PStr "m1";
                                                g_timestamp := PInt 1700000000 |} ] |}));
     gpt_detail_reply := fun _ _ => Return code_mail |}.

(** A GPTMail inbox with a fresh message in front of one from ten seconds
    before [half_past]; the old one carries another code. *)
Definition mixed_gpt_mailbox : gpt_mailbox :=
  {| gpt_list_reply :=
       Return (mk_response 200
                 (BodyJson {| gl_success := PBool true;
                              gl_emails := [ {| g_id := PStr "old";
                                                g_timestamp := PInt 1699999990 |};
                                             {| g_id := PStr "new";
                                                g_timestamp := PInt 1700000007 |} ] |}));
     gpt_detail_reply := fun pos _ =>
       match pos with
       | O => Return (mk_response 200
                        (BodyJson {| gd_success := PBool true;
                                     gd_content := Some "Your verification code is 654321";
                                     gd_html_content := None |}))
       | _ => Return code_mail
       end |}.

Definition moe_message_at (received_at : pyval) : moe_message :=
  {| m_id := PStr "m1"; m_messageId := PNone; m_received_at := received_at;
     m_receivedAt := PNone; m_sent_at := PNone |}.

(** A MoeMail inbox whose only message was received 0.3 ms before
    [half_past_ms]. *)
Definition same_millisecond_moe_mailbox : moe_mailbox :=
  {| moe_list_reply :=
       Return (mk_response 200
                 (BodyJson [moe_message_at (PFloat (17000000000002 # 10))]));
     moe_detail_reply := fun _ _ =>
       Return (mk_response 200
                 (BodyJson {| md_message :=
                                Some {| mb_html := Some "<b>123456</b>"; mb_content := None |};
                              md_data := None |})) |}.

(** A MoeMail inbox whose only message is a second old. *)
Definition old_moe_mailbox : moe_mailbox :=
  {| moe_list_reply :=
       Return (mk_response 200 (BodyJson [moe_message_at (PInt 1699999999000)]));
     moe_detail_reply := moe_detail_reply same_millisecond_moe_mailbox |}.

(** A server on which the code shows up at the third look. *)
Definition gpt_server_third_look (k : nat) : gpt_mailbox :=
  match k with
  | S (S _) => same_second_gpt_mailbox
  | _ => {| gpt_list_reply := Return (mk_response 200 BodyEmpty);
            gpt_detail_reply := fun _ _ => Return code_mail |}
  end.

Import Automation.

(** A page and its surroundings, as far as a test run needs them told: the
    address the page shows, the cookies of the context, the buttons with
    their texts, what the mailbox and the log callback answer, the clock. *)
Record scene : Type := mk_scene {
  sc_url : list made_call -> string;
  sc_cookies : result (list cookie);
  sc_buttons : list (elem * string);
  sc_poll : list made_call -> result (option string);
  sc_log : list made_call -> string -> result unit;
  sc_now : list made_call -> Z
}.

Definition stage (sc : scene) : environment :=
  fun T h c =>
    match c in call T return T with
    | SyncPlaywrightStart => Return tt
    | Mkdtemp prefix => Return ("/tmp/" ++ prefix ++ "0001")
    | LaunchPersistentContext _ _ => Return tt
    | SetDefaultTimeout _ => Return tt
    | SetDefaultNavigationTimeout _ => Return tt
    | AddInitScript => Return tt
    | ContextPages => Return 1%nat
    | NewPage => Return tt
    | ContextClose => Return tt
    | PlaywrightStop => Return tt
    | PathExists _ => Return true
    | Rmtree _ => Return tt
    | PageGoto _ => Return tt
    | PageReload => Return tt
    | PageUrl => sc_url sc h
    | WaitForSelector _ _ => Return None
    | QuerySelector _ => Return None
    | QuerySelectorAll selector =>
        Return (if String.eqb selector "button" then map fst (sc_buttons sc) else [])
    | ElemClick _ => Return tt
    | ElemInnerText e =>
        match List.find (fun p => Nat.eqb (fst p) e) (sc_buttons sc) with
        | Some p => Return (snd p)
        | None => Raise (Exception "element is not attached")
        end
    | ElemType _ _ _ => Return tt
    | ElemFill _ _ => Return tt
    | ElemPress _ _ => Return tt
    | KeyboardPress _ => Return tt
    | MouseMove _ _ => Return tt
    | MouseWheel _ _ => Return tt
    | AddCookies _ => Return tt
    | ContextCookies => sc_cookies sc
    | Makedirs _ => Return tt
    | Screenshot _ => Return tt
    | TimeSleep _ => tt
    | TimeTime => 1700000000
    | DatetimeNow => sc_now sc h
    | RandomUniform a _ => a
    | RandomRandint a _ => a
    | RandomChoices _ => "abc"
    | LogCallback _ message => sc_log sc h message
    | PollForCode _ _ _ => sc_poll sc h
    end.

(** The polls among the calls made so far. *)
Fixpoint polls_made (h : list made_call) : nat :=
  match h with
  | [] => O
  | Made c _ :: older =>
      match c with
      | PollForCode _ _ _ => S (polls_made older)
      | _ => polls_made older
      end
  end.

Definition sample_settings : settings :=
  init "" "" true true true "" None None 50 120 380 3 4 4 true 5 60 true.

Definition session_cookies (expires : option Z) : list cookie :=
  [ {| ck_name := "NID"; ck_value := "511"; ck_expires := Some 1715000000 |};
    {| ck_name := SES_COOKIE; ck_value := "CSE.AbCdEf"; ck_expires := expires |};
    {| ck_name := OSES_COOKIE; ck_value := "COS.GhIjKl"; ck_expires := None |} ].

(** Already signed in: the address carries the client id and the session
    index. *)
Definition scene_signed_in (expires : option Z) : scene :=
  {| sc_url := fun _ => "https://business.gemini.google/home/cid/0f1c2d3e?csesidx=206226908";
     sc_cookies := Return (session_cookies expires);
     sc_buttons := [];
     sc_poll := fun _ => Return None;
     sc_log := fun _ _ => Return tt;
     sc_now := fun _ => 1700000000250000 |}.

(** The address carries the session index but no client id. *)
Definition scene_session_index_only : scene :=
  {| sc_url := fun _ => "https://business.gemini.google/home?csesidx=206226908";
     sc_cookies := Return (session_cookies None);
     sc_buttons := [];
     sc_poll := fun _ => Return None;
     sc_log := fun _ _ => Return tt;
     sc_now := fun _ => 1700000000250000 |}.

(** The verification page with a resend button; the code is in the mailbox
    at the third poll; the clock moves on with every call. *)
Definition scene_code_at_third_poll : scene :=
  {| sc_url := fun _ => "https://auth.business.gemini.google/login/verify-oob-code";
     sc_cookies := Return [];
     sc_buttons := [(7%nat, "Back"); (8%nat, " Resend code ")];
     sc_poll := fun h => if (polls_made h <? 2)%nat then Return None else Return (Some "123456");
     sc_log := fun _ _ => Return tt;
     sc_now := fun h => 1700000000000000 + Z.of_nat (length h) |}.

(** As before, but the log callback raises the cancellation signal from the
    moment the flow reports the address it landed on. *)
Definition scene_cancelled_at_address : scene :=
  {| sc_url := sc_url scene_code_at_third_poll;
     sc_cookies := Return [];
     sc_buttons := sc_buttons scene_code_at_third_poll;
     sc_poll := sc_poll scene_code_at_third_poll;
     sc_log := fun _ message =>
       if String.prefix "📍" message then Raise (TaskCancelledError "cancelled by user")
       else Return tt;
     sc_now := sc_now scene_code_at_third_poll |}.

(** The same surroundings with the code input on the page. *)
Definition with_code_input (env : environment) : environment :=
  fun T h c =>
    match c in call T0 return T0 with
    | WaitForSelector selector _ =>
        Return (if String.eqb selector "input[jsname='ovqh0b']" then Some 5%nat else None)
    | c0 => env _ h c0
    end.

(** The verification page; no code ever arrives; the log callback raises the
    cancellation signal at the line that reports the resend button, and at no
    other line. *)
Definition scene_signal_at_resend : scene :=
  {| sc_url := sc_url scene_code_at_third_poll;
     sc_cookies := Return [];
     sc_buttons := sc_buttons scene_code_at_third_poll;
     sc_poll := fun _ => Return None;
     sc_log := fun _ message =>
       if String.prefix "found resend button" message
       then Raise (TaskCancelledError "cancelled by user")
       else Return tt;
     sc_now := sc_now scene_code_at_third_poll |}.

(** As before, but the callback goes on raising the signal once it has
    raised it. *)
Definition scene_cancel_from_resend : scene :=
  {| sc_url := sc_url scene_code_at_third_poll;
     sc_cookies := Return [];
     sc_buttons := sc_buttons scene_code_at_third_poll;
     sc_poll := fun _ => Return None;
     sc_log := fun h message =>
       if signalled h || String.prefix "found resend button" message
       then Raise (TaskCancelledError "cancelled by user")
       else Return tt;
     sc_now := sc_now scene_code_at_third_poll |}.

End Samples.

(* ===================================================================== *)
(** * Properties of the task orchestrator *)
(* ===================================================================== *)

Module RegisterFacts.
Import Register.

(** ** The worker loop *)

Definition cancelled_outcome (o : result attempt_dict) : bool :=
  match o with
  | Raise e => is_cancel e
  | Return _ => false
  end.

(** What the pause leaves alone. *)
Lemma between_accounts_keeps env cfg idx t :
  let t' := between_accounts env cfg idx t in
  progress t' = progress t /\ results t' = results t /\ fail_count t' = fail_count t /\
  success_count t' = success_count t /\ count t' = count t /\ status t' = status t /\
  finished_at t' = finished_at t /\
  (during_sleep env idx = None -> cancel_requested t' = cancel_requested t).
Proof.
  unfold between_accounts.
  destruct (Z.of_nat idx <? count t - 1); [|tauto].
  destruct (0 <? between_account_max_seconds cfg); [|tauto].
  destruct (Qltb 0 _); [|tauto].
  destruct (during_sleep env idx) as [reason|]; simpl; repeat split; auto; discriminate.
Qed.

(** An iteration that goes on to the next index has recorded one result. *)
Lemma iteration_Next_inv env cfg idx t t' :
  iteration env cfg idx t = Next t' ->
  let o := ar_outcome (register_one env idx) in
  cancel_requested t = false /\ cancelled_outcome o = false /\
  results t' = (results t ++ [recorded o])%list /\
  progress t' = progress t + 1 /\
  fail_count t' = fail_count t + (if dict_success (recorded o) then 0 else 1) /\
  count t' = count t /\
  (ar_cancel (register_one env idx) = None -> during_sleep env idx = None ->
   cancel_requested t' = false).
Proof.
  intros H o. unfold iteration in H.
  destruct (cancel_requested t) eqn:Hc; [discriminate|].
  split; [reflexivity|].
  set (t1 := interfere _ _) in H.
  assert (Hfields : results t1 = results t /\ progress t1 = progress t /\
                    fail_count t1 = fail_count t /\ count t1 = count t /\
                    (ar_cancel (register_one env idx) = None -> cancel_requested t1 = false)).
  { subst t1. destruct (ar_cancel (register_one env idx)); simpl; repeat split; auto.
    discriminate. }
  destruct Hfields as (Hr & Hp & Hf & Hn & Hcr).
  assert (Hgo : forall r, o = r -> cancelled_outcome r = false ->
            Next (between_accounts env cfg idx
                    (if dict_success (recorded r)
                     then _append_log "info" (LogSuccess (dict_get (recorded r) "email" "未知"))
                            (incr_success_count (record_result (recorded r) t1))
                     else _append_log "error" (LogFailure (dict_get (recorded r) "error" "未知错误"))
                            (incr_fail_count (record_result (recorded r) t1)))) = Next t' ->
            cancelled_outcome o = false /\
            results t' = (results t ++ [recorded o])%list /\
            progress t' = progress t + 1 /\
            fail_count t' = fail_count t + (if dict_success (recorded o) then 0 else 1) /\
            count t' = count t /\
            (ar_cancel (register_one env idx) = None -> during_sleep env idx = None ->
             cancel_requested t' = false)).
  { intros r Hor Hnc Heq. injection Heq as <-. rewrite Hor.
    match goal with |- context [between_accounts env cfg idx ?x] =>
      pose proof (between_accounts_keeps env cfg idx x) as K; set (t2 := x) in * end.
    simpl in K. destruct K as (Kp & Kr & Kf & _ & Kn & _ & _ & Kc).
    rewrite Kp, Kr, Kf, Kn.
    subst t2. destruct (dict_success (recorded r)); simpl;
      rewrite ?Hr, ?Hp, ?Hf, ?Hn; repeat split; auto; try lia;
      intros Ha Hs; rewrite (Kc Hs); simpl; auto. }
  fold o in H. destruct o as [r|[m|m]] eqn:Ho.
  - apply (Hgo (Return r)); auto.
  - discriminate.
  - apply (Hgo (Raise (Exception m))); auto.
Qed.

(** An iteration that returns has set CANCELLED and the finishing time, and
    recorded nothing. *)
Lemma iteration_Stop_inv env cfg idx t t' started :
  iteration env cfg idx t = Stop t' started ->
  status t' = CANCELLED /\ finished_at t' = Some (time_time env) /\
  results t' = results t /\ progress t' = progress t /\
  (started = false <-> cancel_requested t = true) /\
  (started = true -> cancelled_outcome (ar_outcome (register_one env idx)) = true).
Proof.
  unfold iteration. intros H.
  destruct (cancel_requested t) eqn:Hc.
  - injection H as <- <-. simpl. repeat split; auto. discriminate.
  - set (t1 := interfere _ _) in H.
    assert (Hfields : results t1 = results t /\ progress t1 = progress t).
    { subst t1. destruct (ar_cancel (register_one env idx)); simpl; auto. }
    destruct Hfields as (Hr & Hp).
    destruct (ar_outcome (register_one env idx)) as [r|[m|m]]; try discriminate.
    injection H as <- <-. simpl. rewrite Hr, Hp. repeat split; auto; discriminate.
Qed.

(** The loop over [a + b] iterations is the loop over the first [a] followed,
    when that one ran to its end, by the loop over the remaining [b]. *)
Lemma register_loop_app env cfg a b idx t :
  register_loop env cfg (a + b) idx t =
  match register_loop env cfg a idx t with
  | (FellThrough t', started) =>
      let '(out, started') := register_loop env cfg b (idx + a) t' in
      (out, (started ++ started')%list)
  | (Returned t', started) => (Returned t', started)
  end.
Proof.
  revert idx t. induction a as [|a IH]; intros idx t; simpl.
  - rewrite Nat.add_0_r. destruct (register_loop env cfg b idx t); reflexivity.
  - destruct (iteration env cfg idx t) as [t' st|t']; [reflexivity|].
    rewrite IH. replace (S idx + a)%nat with (idx + S a)%nat by lia.
    destruct (register_loop env cfg a (S idx) t') as [[t''|t''] st]; [reflexivity|].
    destruct (register_loop env cfg b (idx + S a) t''); reflexivity.
Qed.

(** A loop that ran to its end started every attempt and recorded one result
    for each. *)
Lemma register_loop_fell_through env cfg todo idx t t' started :
  register_loop env cfg todo idx t = (FellThrough t', started) ->
  started = seq idx todo /\
  results t' =
    (results t ++ map (fun i => recorded (ar_outcome (register_one env i))) (seq idx todo))%list /\
  progress t' = progress t + Z.of_nat todo /\
  count t' = count t /\
  fail_count t' = fail_count t +
    Z.of_nat (length (List.filter (fun d => negb (dict_success d))
                (map (fun i => recorded (ar_outcome (register_one env i))) (seq idx todo)))) /\
  (todo <> O -> cancel_requested t = false) /\
  ((forall i, (idx <= i < idx + todo)%nat ->
      ar_cancel (register_one env i) = None /\ during_sleep env i = None) ->
   cancel_requested t' = cancel_requested t).
Proof.
  revert idx t t' started. induction todo as [|todo IH]; intros idx t t' started H.
  - simpl in H. injection H as <- <-. simpl. rewrite app_nil_r.
    repeat split; auto; try lia.
  - simpl in H. destruct (iteration env cfg idx t) as [t1 st|t1] eqn:Hit; [discriminate|].
    destruct (register_loop env cfg todo (S idx) t1) as [out st] eqn:Hl.
    injection H as -> <-.
    apply iteration_Next_inv in Hit. simpl in Hit.
    destruct Hit as (Hc & _ & Hr & Hp & Hf & Hn & Hcr).
    apply IH in Hl. destruct Hl as (-> & Hr' & Hp' & Hn' & Hf' & _ & Hc').
    simpl. rewrite Hr', Hr, Hp', Hp, Hn', Hn, Hf', Hf, <- app_assoc. simpl.
    repeat split; auto; try lia.
    + destruct (dict_success (recorded (ar_outcome (register_one env idx)))); simpl; lia.
    + intros Hq. rewrite Hc'.
      * rewrite Hc. apply Hcr; apply Hq; lia.
      * intros i Hi. apply Hq. lia.
Qed.

(** With no cancellation coming in, the loop runs to its end. *)
Lemma register_loop_uncancelled env cfg todo idx t :
  cancel_requested t = false ->
  (forall i, (idx <= i < idx + todo)%nat ->
     ar_cancel (register_one env i) = None /\ during_sleep env i = None /\
     cancelled_outcome (ar_outcome (register_one env i)) = false) ->
  exists t', register_loop env cfg todo idx t = (FellThrough t', seq idx todo) /\
             cancel_requested t' = false.
Proof.
  revert idx t. induction todo as [|todo IH]; intros idx t Hc Hq.
  - exists t. simpl. auto.
  - simpl. destruct (iteration env cfg idx t) as [t1 st|t1] eqn:Hit.
    + exfalso. apply iteration_Stop_inv in Hit.
      destruct Hit as (_ & _ & _ & _ & Hs & Hs').
      destruct (Hq idx ltac:(lia)) as (_ & _ & Ho).
      destruct st.
      * rewrite (Hs' eq_refl) in Ho. discriminate.
      * destruct Hs as [Hs _]. rewrite (Hs eq_refl) in Hc. discriminate.
    + pose proof (iteration_Next_inv _ _ _ _ _ Hit) as K. simpl in K.
      destruct K as (_ & _ & _ & _ & _ & _ & Hcr).
      destruct (Hq idx ltac:(lia)) as (Ha & Hs & _).
      destruct (IH (S idx) t1 (Hcr Ha Hs)) as (t' & Hl & Hc').
      { intros i Hi. apply Hq. lia. }
      exists t'. rewrite Hl. auto.
Qed.

(** An attempt that raises the cancellation signal ends the run at once:
    nothing is recorded for it. *)
Lemma iteration_cancelled_attempt env cfg idx t msg :
  cancel_requested t = false ->
  ar_outcome (register_one env idx) = Raise (TaskCancelledError msg) ->
  exists t',
    iteration env cfg idx t = Stop t' true /\
    status t' = CANCELLED /\ finished_at t' = Some (time_time env) /\
    results t' = results t /\ progress t' = progress t /\
    success_count t' = success_count t /\ fail_count t' = fail_count t.
Proof.
  intros Hc Ho. unfold iteration. rewrite Hc, Ho. eexists. split; [reflexivity|].
  destruct (ar_cancel (register_one env idx)); simpl; repeat split; reflexivity.
Qed.

Lemma no_failures_iff (l : list attempt_dict) :
  (Z.of_nat (length (List.filter (fun d => negb (dict_success d)) l)) =? 0) = forallb dict_success l.
Proof.
  induction l as [|d l IH]; simpl; [reflexivity|].
  destruct (dict_success d); simpl; [exact IH|reflexivity].
Qed.

(** ** start_register *)

Lemma log_task_lookup tid level msg s :
  _tasks (log_task tid level msg s) !! tid = _append_log level msg <$> _tasks s !! tid.
Proof. unfold log_task. simpl. apply lookup_alter_eq. Qed.

Lemma log_task_lookup_ne tid j level msg s :
  tid <> j -> _tasks (log_task tid level msg s) !! j = _tasks s !! j.
Proof. intros H. unfold log_task. simpl. apply lookup_alter_ne. exact H. Qed.

(** The count a request is registered with. *)
Definition effective_count (cfg : Config) (n : option Z) : Z :=
  Z.max 1 (match n with
           | Some c => if c =? 0 then register_default_count cfg else c
           | None => register_default_count cfg
           end).

(** The domain a request is registered with. *)
Definition effective_domain (cfg : Config) (d : option string) : option string :=
  let v := strip (str_or_empty d) in
  if String.eqb v "" then
    let c := strip (str_or_empty (register_domain cfg)) in
    if String.eqb c "" then None else Some c
  else Some v.

(** What an accepted request leaves behind. *)
Lemma start_register_accepted cfg environ uuid now n d s :
  truthy_str environ = false ->
  (forall cur, get_current_task s = Some cur -> active (status cur) = false) ->
  exists s',
    start_register cfg environ uuid now n d s = (Return uuid, s') /\
    _tasks s' !! uuid =
      Some (_append_log "info" (LogCreated (effective_count cfg n))
              (_append_log "info" (LogQueued (effective_count cfg n) (effective_domain cfg d))
                 (new_task uuid now (effective_count cfg n) (effective_domain cfg d)))) /\
    _queue s' = (_queue s ++ [uuid])%list /\
    _current_task_id s' = _current_task_id s /\
    (forall j, j <> uuid -> _tasks s' !! j = _tasks s !! j).
Proof.
  intros He Hfree. unfold start_register. rewrite He.
  assert (Hb : match get_current_task s with
               | Some current => active (status current)
               | None => false
               end = false).
  { destruct (get_current_task s) as [cur|] eqn:Hg; auto. }
  rewrite Hb. fold (effective_count cfg n). fold (effective_domain cfg d).
  eexists. split; [reflexivity|]. simpl.
  repeat split.
  - rewrite lookup_alter_eq, lookup_alter_eq, lookup_insert_eq. reflexivity.
  - intros j Hj. rewrite !lookup_alter_ne, lookup_insert_ne by congruence. reflexivity.
Qed.

Lemma start_register_Return_inv cfg environ uuid now n d s tid s' :
  start_register cfg environ uuid now n d s = (Return tid, s') ->
  truthy_str environ = false /\
  (forall cur, get_current_task s = Some cur -> active (status cur) = false).
Proof.
  unfold start_register. intros H.
  destruct (truthy_str environ); [discriminate|]. split; [reflexivity|].
  intros cur Hc. rewrite Hc in H. destruct (active (status cur)); [discriminate|reflexivity].
Qed.

End RegisterFacts.

Module RegisterClaims.
Import Register RegisterFacts Samples.

(** [result.get("success")] is truthy for every recorded result. *)
Lemma forallb_success_iff (l : list attempt_dict) :
  forallb dict_success l = true <->
  forall d, In d l -> exists v, d !! "success" = Some v /\ truthy v = true.
Proof.
  rewrite forallb_forall. split; intros H d Hd.
  - specialize (H d Hd). unfold dict_success in H.
    destruct (d !! "success") as [v|]; [|discriminate]. exists v. auto.
  - destruct (H d Hd) as (v & Hv & Ht). unfold dict_success. rewrite Hv. exact Ht.
Qed.

(** C1: with no cancellation requested, a run over [N] attempts starts every
    attempt and records exactly one result per attempt ([progress = N],
    [len(results) = N]): the dict an attempt returned as it is, and for an
    attempt that raised the dict with exactly the two keys
    ["success": False] and ["error": str(exc)], without stopping the others.
    The run ends SUCCESS exactly when the "success" of every recorded result
    is truthy, as it is when every attempt returned such a dict, and FAILED
    otherwise, as it is when any attempt raised; [finished_at] is set. *)
Theorem run_without_cancellation_records_every_attempt
    (env : run_env) (cfg : Config) (t : RegisterTask) (N : nat) :
  count t = Z.of_nat N -> progress t = 0 -> results t = [] -> fail_count t = 0 ->
  cancel_requested t = false ->
  (forall i, (i < N)%nat ->
     ar_cancel (register_one env i) = None /\ during_sleep env i = None /\
     cancelled_outcome (ar_outcome (register_one env i)) = false) ->
  let t' := fst (_run_register_async env cfg t) in
  snd (_run_register_async env cfg t) = seq 0 N /\
  progress t' = Z.of_nat N /\
  length (results t') = N /\
  results t' = map (fun i => recorded (ar_outcome (register_one env i))) (seq 0 N) /\
  (forall i msg, (i < N)%nat -> ar_outcome (register_one env i) = Raise (Exception msg) ->
     nth_error (results t') i = Some (failure_dict msg)) /\
  status t' = (if forallb dict_success (results t') then SUCCESS else FAILED) /\
  finished_at t' = Some (time_time env) /\
  (forall i d, (i < N)%nat -> ar_outcome (register_one env i) = Return d ->
     nth_error (results t') i = Some d) /\
  (forall i msg, (i < N)%nat -> ar_outcome (register_one env i) = Raise (Exception msg) ->
     exists d, nth_error (results t') i = Some d /\
               d !! "success" = Some (PBool false) /\ d !! "error" = Some (PStr msg) /\
               forall k, k <> "success" -> k <> "error" -> d !! k = None) /\
  (status t' = SUCCESS <->
   forall d, In d (results t') -> exists v, d !! "success" = Some v /\ truthy v = true) /\
  (status t' = SUCCESS \/ status t' = FAILED) /\
  ((forall i, (i < N)%nat ->
      exists d v, ar_outcome (register_one env i) = Return d /\
                  d !! "success" = Some v /\ truthy v = true) ->
   status t' = SUCCESS) /\
  (forall i msg, (i < N)%nat -> ar_outcome (register_one env i) = Raise (Exception msg) ->
     status t' = FAILED).
Proof.
  intros Hn Hp Hr Hf Hc Hq. unfold _run_register_async.
  set (t1 := _append_log "info" (LogStarted (count t)) t).
  change (count t1) with (count t). rewrite Hn, Nat2Z.id.
  destruct (register_loop_uncancelled env cfg N 0 t1) as (t2 & Hl & Hc2); auto.
  { intros i Hi. apply Hq. lia. }
  rewrite Hl.
  apply register_loop_fell_through in Hl.
  destruct Hl as (_ & Hr2 & Hp2 & Hn2 & Hf2 & _ & _).
  simpl in Hr2, Hp2, Hf2. rewrite Hr in Hr2. rewrite Hp in Hp2. rewrite Hf in Hf2.
  simpl in Hr2.
  rewrite Hc2. simpl.
  assert (Hnth : forall i, (i < N)%nat ->
            nth_error (results t2) i = Some (recorded (ar_outcome (register_one env i)))).
  { intros i Hi. rewrite Hr2, nth_error_map, nth_error_seq.
    destruct (Nat.ltb_spec i N); [reflexivity|lia]. }
  assert (Hres : forall i msg, (i < N)%nat ->
            ar_outcome (register_one env i) = Raise (Exception msg) ->
            nth_error (results t2) i = Some (failure_dict msg)).
  { intros i msg Hi Ho. rewrite (Hnth i Hi), Ho. reflexivity. }
  assert (Hstatus : (if fail_count t2 =? 0 then SUCCESS else FAILED)
                    = (if forallb dict_success (results t2) then SUCCESS else FAILED)).
  { rewrite Hf2, Z.add_0_l, no_failures_iff, <- Hr2. reflexivity. }
  rewrite Hstatus.
  assert (Hfailed : forall i msg, (i < N)%nat ->
            ar_outcome (register_one env i) = Raise (Exception msg) ->
            forallb dict_success (results t2) = false).
  { intros i msg Hi Ho. destruct (forallb dict_success (results t2)) eqn:Hall; [|reflexivity].
    rewrite forallb_forall in Hall.
    specialize (Hall (failure_dict msg) (nth_error_In _ _ (Hres i msg Hi Ho))).
    discriminate Hall. }
  split; [reflexivity|]. split; [exact Hp2|].
  split; [rewrite Hr2, length_map, length_seq; reflexivity|].
  split; [exact Hr2|]. split; [exact Hres|]. split; [reflexivity|]. split; [reflexivity|].
  split; [|split; [|split; [|split; [|split]]]].
  - intros i d Hi Ho. rewrite (Hnth i Hi), Ho. reflexivity.
  - intros i msg Hi Ho. exists (failure_dict msg). split; [exact (Hres i msg Hi Ho)|].
    unfold failure_dict. split; [|split].
    + rewrite lookup_insert_ne by discriminate. apply lookup_insert_eq.
    + apply lookup_insert_eq.
    + intros k Hk1 Hk2. rewrite !lookup_insert_ne by congruence. apply lookup_empty.
  - rewrite <- forallb_success_iff.
    destruct (forallb dict_success (results t2)); split; congruence.
  - destruct (forallb dict_success (results t2)); auto.
  - intros Hall.
    assert (Hok : forallb dict_success (results t2) = true).
    { apply forallb_success_iff. intros d Hd. rewrite Hr2 in Hd.
      apply in_map_iff in Hd as (i & <- & Hi). apply in_seq in Hi.
      destruct (Hall i ltac:(lia)) as (d & v & -> & Hv & Ht). exists v. auto. }
    rewrite Hok. reflexivity.
  - intros i msg Hi Ho. rewrite (Hfailed i msg Hi Ho). reflexivity.
Qed.

Lemma run_without_cancellation_witness :
  let failed := fst (_run_register_async env_second_raises sample_config (running_task 2)) in
  let passed := fst (_run_register_async env_all_succeed sample_config (running_task 2)) in
  progress failed = 2 /\ length (results failed) = 2%nat /\ status failed = FAILED /\
  (exists d, nth_error (results failed) 1 = Some d /\
             d !! "success" = Some (PBool false) /\
             d !! "error" = Some (PStr "browser crashed")) /\
  progress passed = 2 /\ length (results passed) = 2%nat /\ status passed = SUCCESS.
Proof.
  cbv zeta.
  assert (Hq1 : forall i, (i < 2)%nat ->
            ar_cancel (register_one env_second_raises i) = None /\
            during_sleep env_second_raises i = None /\
            cancelled_outcome (ar_outcome (register_one env_second_raises i)) = false).
  { intros i Hi. destruct i as [|[|i]]; [repeat split; reflexivity .. | lia]. }
  assert (Hq2 : forall i, (i < 2)%nat ->
            ar_cancel (register_one env_all_succeed i) = None /\
            during_sleep env_all_succeed i = None /\
            cancelled_outcome (ar_outcome (register_one env_all_succeed i)) = false).
  { intros i Hi. repeat split; reflexivity. }
  destruct (run_without_cancellation_records_every_attempt
              env_second_raises sample_config (running_task 2) 2
              eq_refl eq_refl eq_refl eq_refl eq_refl Hq1)
    as (_ & Hp & Hl & _ & _ & _ & _ & _ & Hraised & _ & _ & _ & Hfailed).
  destruct (run_without_cancellation_records_every_attempt
              env_all_succeed sample_config (running_task 2) 2
              eq_refl eq_refl eq_refl eq_refl eq_refl Hq2)
    as (_ & Hp' & Hl' & _ & _ & _ & _ & _ & _ & _ & _ & Hpassed & _).
  split; [exact Hp|]. split; [exact Hl|].
  split; [exact (Hfailed 1%nat "browser crashed" ltac:(lia) eq_refl)|].
  split.
  { destruct (Hraised 1%nat "browser crashed" ltac:(lia) eq_refl) as (d & Hd & Hs & He & _).
    exists d. auto. }
  split; [exact Hp'|]. split; [exact Hl'|].
  apply Hpassed. intros i Hi.
  exists (success_dict "user@mail.example.org"), (PBool true).
  split; [reflexivity|]. split; reflexivity.
Defined.

(** C5: when the first [k] attempts have completed and the cancellation flag
    is set before attempt [k+1] starts, no further attempt starts, exactly [k]
    results are recorded, and the run ends CANCELLED with [finished_at]
    set. *)
Theorem cancel_between_attempts_stops_run
    (env : run_env) (cfg : Config) (t tk : RegisterTask) (k : nat) (started : list nat) :
  results t = [] ->
  (k <= Z.to_nat (count t))%nat ->
  register_loop env cfg k 0 (_append_log "info" (LogStarted (count t)) t)
    = (FellThrough tk, started) ->
  cancel_requested tk = true ->
  let t' := fst (_run_register_async env cfg t) in
  snd (_run_register_async env cfg t) = seq 0 k /\
  length (results t') = k /\
  results t' = results tk /\
  status t' = CANCELLED /\
  finished_at t' = Some (time_time env).
Proof.
  intros Hr Hk Hl Hc. unfold _run_register_async.
  set (t1 := _append_log "info" (LogStarted (count t)) t) in *.
  change (count t1) with (count t).
  replace (Z.to_nat (count t)) with (k + (Z.to_nat (count t) - k))%nat by lia.
  rewrite register_loop_app, Hl.
  apply register_loop_fell_through in Hl.
  destruct Hl as (-> & Hr2 & _).
  assert (Hlen : length (results tk) = k).
  { rewrite Hr2. simpl. rewrite Hr. simpl. rewrite length_map, length_seq. reflexivity. }
  destruct (Z.to_nat (count t) - k)%nat as [|m]; simpl.
  - rewrite Hc, app_nil_r. simpl. auto.
  - unfold iteration. rewrite Hc. simpl. rewrite app_nil_r. auto.
Qed.

Lemma cancel_between_attempts_witness :
  let t' := fst (_run_register_async env_cancel_after_first sample_config (running_task 2)) in
  length (results t') = 1%nat /\ status t' = CANCELLED /\ finished_at t' = Some 1700000000.
Proof.
  destruct (register_loop env_cancel_after_first sample_config 1 0
              (_append_log "info" (LogStarted (count (running_task 2))) (running_task 2)))
    as [[tk|tk] started] eqn:Hloop; [vm_compute in Hloop; discriminate|].
  assert (Hc : cancel_requested tk = true).
  { vm_compute in Hloop. injection Hloop as <- _. reflexivity. }
  assert (Hk : (1 <= Z.to_nat (count (running_task 2)))%nat) by (vm_compute; lia).
  destruct (cancel_between_attempts_stops_run
              env_cancel_after_first sample_config (running_task 2) tk 1 started
              eq_refl Hk Hloop Hc) as (_ & Hl & _ & Hs & Hf).
  split; [exact Hl|]. split; [exact Hs|exact Hf].
Defined.

(** C4 (as the code has it): with [ACCOUNTS_CONFIG] set to a non-empty
    value, [start_register] raises the registration-disabled error; with it
    unset or empty, it raises the already-running error whenever the current
    task is PENDING or RUNNING, and else stores a fresh PENDING task under
    the new id and puts it at the end of the queue.  A rejected call leaves
    the service as it was. *)
Theorem start_register_single_flight
    (cfg : Config) (environ : option string) (uuid : string) (now : Z)
    (n : option Z) (d : option string) (s : Service) :
  (truthy_str environ = true ->
     start_register cfg environ uuid now n d s = (Raise (Exception msg_disabled), s)) /\
  (truthy_str environ = false ->
     (forall cur, get_current_task s = Some cur -> active (status cur) = true ->
        start_register cfg environ uuid now n d s = (Raise (Exception msg_already_running), s)) /\
     ((forall cur, get_current_task s = Some cur -> active (status cur) = false) ->
        exists s' task,
          start_register cfg environ uuid now n d s = (Return uuid, s') /\
          _tasks s' !! uuid = Some task /\
          id task = uuid /\ status task = PENDING /\ progress task = 0 /\
          results task = [] /\ cancel_requested task = false /\ finished_at task = None /\
          _queue s' = (_queue s ++ [uuid])%list /\
          _current_task_id s' = _current_task_id s /\
          (forall j, j <> uuid -> _tasks s' !! j = _tasks s !! j))).
Proof.
  split; [|split].
  - intros He. unfold start_register. rewrite He. reflexivity.
  - intros cur Hc Ha. unfold start_register. rewrite H, Hc, Ha. reflexivity.
  - intros Hfree.
    destruct (start_register_accepted cfg environ uuid now n d s H Hfree)
      as (s' & Hs & Ht & Hq & Hcur & Hother).
    exists s'. eexists. split; [exact Hs|]. split; [exact Ht|].
    simpl. repeat split; auto.
Qed.

Lemma start_register_single_flight_witness :
  exists s' task,
    start_register sample_config None "job-7" 1700000000 (Some 3) None empty_service
      = (Return "job-7", s') /\
    _tasks s' !! "job-7" = Some task /\ status task = PENDING /\ _queue s' = ["job-7"].
Proof.
  destruct (start_register_single_flight sample_config None "job-7" 1700000000
              (Some 3) None empty_service) as (_ & H).
  destruct (H eq_refl) as (_ & Hfree).
  destruct Hfree as (s' & task & Hs & Ht & _ & Hst & _ & _ & _ & _ & Hq & _).
  { intros cur Hc. vm_compute in Hc. discriminate. }
  exists s', task. repeat split; auto.
Defined.

(** C4 as stated fails: with [ACCOUNTS_CONFIG] set to a non-empty value and
    no task at all, the call does not create a task; it raises the
    registration-disabled error. *)
Lemma start_register_disabled_counterexample :
  get_current_task empty_service = None /\
  start_register sample_config (Some "accounts.json") "job-7" 1700000000 (Some 3) None
    empty_service
  = (Raise (Exception msg_disabled), empty_service).
Proof. split; reflexivity. Qed.

(** C10: every task [start_register] creates has [count >= 1]: a requested
    count of [None] or [0] becomes the configured default, and whatever
    results is raised to 1 when it is below 1. *)
Theorem start_register_count_at_least_one
    (cfg : Config) (environ : option string) (uuid : string) (now : Z)
    (n : option Z) (d : option string) (s s' : Service) (tid : string) :
  start_register cfg environ uuid now n d s = (Return tid, s') ->
  exists task,
    _tasks s' !! tid = Some task /\
    1 <= count task /\
    (n = None \/ n = Some 0 -> count task = Z.max 1 (register_default_count cfg)) /\
    (forall c, n = Some c -> c <> 0 -> count task = Z.max 1 c).
Proof.
  intros H.
  destruct (start_register_Return_inv _ _ _ _ _ _ _ _ _ H) as (He & Hfree).
  destruct (start_register_accepted cfg environ uuid now n d s He Hfree)
    as (s1 & Hs & Ht & _).
  rewrite Hs in H. injection H as <- <-.
  eexists. split; [exact Ht|]. simpl. unfold effective_count.
  split; [lia|]. split.
  - intros [-> | ->]; reflexivity.
  - intros c -> Hc. destruct (Z.eqb_spec c 0); [contradiction|reflexivity].
Qed.

Lemma start_register_count_witness :
  exists task,
    _tasks (snd (start_register sample_config None "job-7" 1700000000 (Some (-4)) None
                   empty_service)) !! "job-7" = Some task /\
    count task = 1.
Proof.
  destruct (start_register_count_at_least_one sample_config None "job-7" 1700000000
              (Some (-4)) None empty_service
              (snd (start_register sample_config None "job-7" 1700000000 (Some (-4)) None
                      empty_service))
              "job-7" eq_refl) as (task & Ht & _ & _ & Hc).
  exists task. split; [exact Ht|]. apply (Hc (-4)); [reflexivity|lia].
Defined.

End RegisterClaims.

(* ===================================================================== *)
(** * Properties of the mailbox clients *)
(* ===================================================================== *)

Module MailFacts.
Import Mail.

(** The messages a client goes through: those of a usable list reply. *)
Definition gpt_inbox (mb : gpt_mailbox) : list gpt_message :=
  match gpt_list_reply mb with
  | Return {| status_code := 200; content := BodyJson payload |} =>
      if truthy (gl_success payload) then gl_emails payload else []
  | _ => []
  end.

Definition moe_inbox (mb : moe_mailbox) : list moe_message :=
  match moe_list_reply mb with
  | Return {| status_code := 200; content := BodyJson messages |} => messages
  | _ => []
  end.

(** The text GPTMail hands to the pattern matcher for a detail reply. *)
Definition gpt_text (r : result (response gpt_detail)) : option string :=
  match r with
  | Return {| status_code := 200; content := BodyJson d |} =>
      if truthy (gd_success d)
      then Some (str_or_empty (gd_content d) ++ str_or_empty (gd_html_content d))
      else None
  | _ => None
  end.

(** The text MoeMail hands to the pattern matcher for a detail reply. *)
Definition moe_text (r : result (response moe_detail)) : option string :=
  match r with
  | Return {| status_code := 200; content := BodyInvalid |} => None
  | Return {| status_code := 200; content := payload |} =>
      if String.eqb (moe_content payload) "" then None else Some (moe_content payload)
  | _ => None
  end.

Section Scans.

Variable extract : string -> option string.

(** A position whose detail the GPTMail scan requested holds a message with
    an id that the time filter let through. *)
Definition gpt_read (since_ts : option Z) (msgs : list gpt_message) (base : nat)
    (pos : nat) : Prop :=
  exists msg, (base <= pos)%nat /\ nth_error msgs (pos - base) = Some msg /\
              truthy (g_id msg) = true /\ gpt_skip since_ts (g_timestamp msg) = false.

Lemma gpt_read_shift since_ts m msgs base pos :
  gpt_read since_ts msgs (S base) pos -> gpt_read since_ts (m :: msgs) base pos.
Proof.
  intros (msg & Hle & Hn & Hid & Hs). exists msg. repeat split; auto; try lia.
  replace (pos - base)%nat with (S (pos - S base)) by lia. exact Hn.
Qed.

Lemma gpt_scan_reads mb since_ts msgs base :
  Forall (gpt_read since_ts msgs base)
         (detail_positions (snd (gpt_scan extract mb since_ts base msgs))).
Proof.
  revert base. induction msgs as [|m msgs IH]; intros base; simpl; [constructor|].
  assert (Hrest : Forall (gpt_read since_ts (m :: msgs) base)
                    (detail_positions (snd (gpt_scan extract mb since_ts (S base) msgs)))).
  { eapply List.Forall_impl; [|apply IH]. intros pos. apply gpt_read_shift. }
  destruct (truthy (g_id m)) eqn:Hid; simpl; [|exact Hrest].
  destruct (gpt_skip since_ts (g_timestamp m)) eqn:Hskip; [exact Hrest|].
  assert (Hhere : gpt_read since_ts (m :: msgs) base base).
  { exists m. rewrite Nat.sub_diag. repeat split; auto. }
  assert (Hcont : Forall (gpt_read since_ts (m :: msgs) base)
                    (detail_positions
                       (snd (let '(r, tr) := gpt_scan extract mb since_ts (S base) msgs in
                             (r, EvDetailRequest base (g_id m) :: tr))))).
  { destruct (gpt_scan extract mb since_ts (S base) msgs) as [r tr]. simpl.
    constructor; assumption. }
  assert (Hone : Forall (gpt_read since_ts (m :: msgs) base) [base]).
  { constructor; [assumption|constructor]. }
  destruct (gpt_detail_reply mb base (g_id m)) as [detail|e]; [|exact Hone].
  destruct (status_code detail =? 200); simpl; [|exact Hcont].
  destruct (content detail) as [| |d]; [exact Hcont|exact Hone|].
  destruct (truthy (gd_success d)); simpl; [|exact Hcont].
  destruct (truthy_str _); [exact Hone|exact Hcont].
Qed.

(** A code the GPTMail scan returns was cut out of the detail of a message it
    read. *)
Lemma gpt_scan_source mb since_ts msgs base code :
  fst (gpt_scan extract mb since_ts base msgs) = Return (Some code) ->
  exists pos msg text,
    (base <= pos)%nat /\ nth_error msgs (pos - base) = Some msg /\
    truthy (g_id msg) = true /\ gpt_skip since_ts (g_timestamp msg) = false /\
    gpt_text (gpt_detail_reply mb pos (g_id msg)) = Some text /\
    extract text = Some code /\ code <> "".
Proof.
  revert base. induction msgs as [|m msgs IH]; intros base; simpl; [discriminate|].
  assert (Hrest : fst (gpt_scan extract mb since_ts (S base) msgs) = Return (Some code) ->
                  exists pos msg text,
                    (base <= pos)%nat /\ nth_error (m :: msgs) (pos - base) = Some msg /\
                    truthy (g_id msg) = true /\ gpt_skip since_ts (g_timestamp msg) = false /\
                    gpt_text (gpt_detail_reply mb pos (g_id msg)) = Some text /\
                    extract text = Some code /\ code <> "").
  { intros H. destruct (IH _ H) as (pos & msg & text & Hle & Hn & K).
    exists pos, msg, text. split; [lia|]. split; [|exact K].
    replace (pos - base)%nat with (S (pos - S base)) by lia. exact Hn. }
  destruct (truthy (g_id m)) eqn:Hid; simpl; [|exact Hrest].
  destruct (gpt_skip since_ts (g_timestamp m)) eqn:Hskip; [exact Hrest|].
  assert (Hcont : fst (let '(r, tr) := gpt_scan extract mb since_ts (S base) msgs in
                       (r, EvDetailRequest base (g_id m) :: tr)) = Return (Some code) ->
                  exists pos msg text,
                    (base <= pos)%nat /\ nth_error (m :: msgs) (pos - base) = Some msg /\
                    truthy (g_id msg) = true /\ gpt_skip since_ts (g_timestamp msg) = false /\
                    gpt_text (gpt_detail_reply mb pos (g_id msg)) = Some text /\
                    extract text = Some code /\ code <> "").
  { destruct (gpt_scan extract mb since_ts (S base) msgs) as [r tr]. exact Hrest. }
  destruct (gpt_detail_reply mb base (g_id m)) as [detail|e] eqn:Hd; [|discriminate].
  destruct detail as [st body]. simpl.
  destruct (Z.eqb_spec st 200) as [->|Hst]; simpl; [|exact Hcont].
  destruct body as [| |d]; [exact Hcont|discriminate|].
  destruct (truthy (gd_success d)) eqn:Hsucc; simpl; [|exact Hcont].
  destruct (truthy_str (extract _)) eqn:Hcode; [|exact Hcont].
  simpl. intros H. injection H as H.
  exists base, m, (str_or_empty (gd_content d) ++ str_or_empty (gd_html_content d)).
  rewrite Nat.sub_diag, Hd. simpl. rewrite Hsucc.
  repeat split; auto.
  rewrite H in Hcode. simpl in Hcode. intros ->. discriminate.
Qed.

(** The same two facts for MoeMail. *)
Definition moe_read (since_ms : option Z) (msgs : list moe_message) (base : nat)
    (pos : nat) : Prop :=
  exists msg, (base <= pos)%nat /\ nth_error msgs (pos - base) = Some msg /\
              truthy (py_or (m_id msg) (m_messageId msg)) = true /\
              moe_skip since_ms (moe_sent_at msg) = false.

Lemma moe_read_shift since_ms m msgs base pos :
  moe_read since_ms msgs (S base) pos -> moe_read since_ms (m :: msgs) base pos.
Proof.
  intros (msg & Hle & Hn & Hid & Hs). exists msg. repeat split; auto; try lia.
  replace (pos - base)%nat with (S (pos - S base)) by lia. exact Hn.
Qed.

Lemma moe_scan_reads mb since_ms msgs base :
  Forall (moe_read since_ms msgs base)
         (detail_positions (snd (moe_scan extract mb since_ms base msgs))).
Proof.
  revert base. induction msgs as [|m msgs IH]; intros base; simpl; [constructor|].
  assert (Hrest : Forall (moe_read since_ms (m :: msgs) base)
                    (detail_positions (snd (moe_scan extract mb since_ms (S base) msgs)))).
  { eapply List.Forall_impl; [|apply IH]. intros pos. apply moe_read_shift. }
  destruct (truthy (py_or (m_id m) (m_messageId m))) eqn:Hid; simpl; [|exact Hrest].
  destruct (moe_skip since_ms (moe_sent_at m)) eqn:Hskip; [exact Hrest|].
  assert (Hhere : moe_read since_ms (m :: msgs) base base).
  { exists m. rewrite Nat.sub_diag. repeat split; auto. }
  assert (Hcont : Forall (moe_read since_ms (m :: msgs) base)
                    (detail_positions
                       (snd (let '(r, tr) := moe_scan extract mb since_ms (S base) msgs in
                             (r, EvDetailRequest base (py_or (m_id m) (m_messageId m)) :: tr))))).
  { destruct (moe_scan extract mb since_ms (S base) msgs) as [r tr]. simpl.
    constructor; assumption. }
  assert (Hone : Forall (moe_read since_ms (m :: msgs) base) [base]).
  { constructor; [assumption|constructor]. }
  destruct (moe_detail_reply mb base _) as [detail|e]; [|exact Hone].
  destruct (status_code detail =? 200); simpl; [|exact Hcont].
  destruct (content detail) as [| |d]; [| exact Hone |]; cbv beta iota zeta;
    try exact Hcont;
    (match goal with |- context [String.eqb ?a ""] => destruct (String.eqb a "") end;
     [exact Hcont|]);
    (destruct (truthy_str _); [exact Hone|exact Hcont]).
Qed.

Lemma moe_scan_source mb since_ms msgs base code :
  fst (moe_scan extract mb since_ms base msgs) = Return (Some code) ->
  exists pos msg text,
    (base <= pos)%nat /\ nth_error msgs (pos - base) = Some msg /\
    truthy (py_or (m_id msg) (m_messageId msg)) = true /\
    moe_skip since_ms (moe_sent_at msg) = false /\
    moe_text (moe_detail_reply mb pos (py_or (m_id msg) (m_messageId msg))) = Some text /\
    extract text = Some code /\ code <> "".
Proof.
  revert base. induction msgs as [|m msgs IH]; intros base; simpl; [discriminate|].
  assert (Hrest : fst (moe_scan extract mb since_ms (S base) msgs) = Return (Some code) ->
                  exists pos msg text,
                    (base <= pos)%nat /\ nth_error (m :: msgs) (pos - base) = Some msg /\
                    truthy (py_or (m_id msg) (m_messageId msg)) = true /\
                    moe_skip since_ms (moe_sent_at msg) = false /\
                    moe_text (moe_detail_reply mb pos (py_or (m_id msg) (m_messageId msg)))
                      = Some text /\
                    extract text = Some code /\ code <> "").
  { intros H. destruct (IH _ H) as (pos & msg & text & Hle & Hn & K).
    exists pos, msg, text. split; [lia|]. split; [|exact K].
    replace (pos - base)%nat with (S (pos - S base)) by lia. exact Hn. }
  destruct (truthy (py_or (m_id m) (m_messageId m))) eqn:Hid; simpl; [|exact Hrest].
  destruct (moe_skip since_ms (moe_sent_at m)) eqn:Hskip; [exact Hrest|].
  assert (Hcont : fst (let '(r, tr) := moe_scan extract mb since_ms (S base) msgs in
                       (r, EvDetailRequest base (py_or (m_id m) (m_messageId m)) :: tr))
                  = Return (Some code) ->
                  exists pos msg text,
                    (base <= pos)%nat /\ nth_error (m :: msgs) (pos - base) = Some msg /\
                    truthy (py_or (m_id msg) (m_messageId msg)) = true /\
                    moe_skip since_ms (moe_sent_at msg) = false /\
                    moe_text (moe_detail_reply mb pos (py_or (m_id msg) (m_messageId msg)))
                      = Some text /\
                    extract text = Some code /\ code <> "").
  { destruct (moe_scan extract mb since_ms (S base) msgs) as [r tr]. exact Hrest. }
  destruct (moe_detail_reply mb base _) as [detail|e] eqn:Hd; [|discriminate].
  destruct detail as [st body]. simpl.
  destruct (Z.eqb_spec st 200) as [->|Hst]; simpl; [|exact Hcont].
  assert (Hfound : forall text,
            moe_text (moe_detail_reply mb base (py_or (m_id m) (m_messageId m))) = Some text ->
            truthy_str (extract text) = true ->
            Return (extract text) = Return (Some code) ->
            exists pos msg text,
              (base <= pos)%nat /\ nth_error (m :: msgs) (pos - base) = Some msg /\
              truthy (py_or (m_id msg) (m_messageId msg)) = true /\
              moe_skip since_ms (moe_sent_at msg) = false /\
              moe_text (moe_detail_reply mb pos (py_or (m_id msg) (m_messageId msg)))
                = Some text /\
              extract text = Some code /\ code <> "").
  { intros text Ht Hc H. injection H as H. exists base, m, text.
    rewrite Nat.sub_diag. repeat split; auto.
    rewrite H in Hc. simpl in Hc. intros ->. discriminate. }
  assert (Hbody : forall payload : Mail.body moe_detail,
            moe_detail_reply mb base (py_or (m_id m) (m_messageId m))
              = Return (mk_response 200 payload) ->
            payload <> BodyInvalid ->
            fst (if String.eqb (moe_content payload) ""
                 then let '(r, tr) := moe_scan extract mb since_ms (S base) msgs in
                      (r, EvDetailRequest base (py_or (m_id m) (m_messageId m)) :: tr)
                 else if truthy_str (extract (moe_content payload))
                      then (Return (extract (moe_content payload)),
                            [EvDetailRequest base (py_or (m_id m) (m_messageId m))])
                      else let '(r, tr) := moe_scan extract mb since_ms (S base) msgs in
                           (r, EvDetailRequest base (py_or (m_id m) (m_messageId m)) :: tr))
            = Return (Some code) ->
            exists pos msg text,
              (base <= pos)%nat /\ nth_error (m :: msgs) (pos - base) = Some msg /\
              truthy (py_or (m_id msg) (m_messageId msg)) = true /\
              moe_skip since_ms (moe_sent_at msg) = false /\
              moe_text (moe_detail_reply mb pos (py_or (m_id msg) (m_messageId msg)))
                = Some text /\
              extract text = Some code /\ code <> "").
  { intros payload Hp Hinv.
    destruct (String.eqb (moe_content payload) "") eqn:He; [exact Hcont|].
    destruct (truthy_str (extract (moe_content payload))) eqn:Hc; [|exact Hcont].
    simpl. apply Hfound; auto.
    rewrite Hp. destruct payload as [| |d']; [vm_compute in He; discriminate|congruence|].
    unfold moe_text. simpl status_code. cbv beta iota. rewrite He. reflexivity. }
  destruct body as [| |d]; [|discriminate|];
    first [exact Hcont | apply Hbody; auto; discriminate].
Qed.

(** A scan asks for at most as many details as it has messages. *)
Lemma gpt_scan_requests mb since_ts msgs base :
  (length (detail_positions (snd (gpt_scan extract mb since_ts base msgs))) <= length msgs)%nat.
Proof.
  revert base. induction msgs as [|m msgs IH]; intros base; simpl; [lia|].
  specialize (IH (S base)).
  destruct (truthy (g_id m)); simpl; [|lia].
  destruct (gpt_skip since_ts (g_timestamp m)); [lia|].
  assert (Hcont : (length (detail_positions
                       (snd (let '(r, tr) := gpt_scan extract mb since_ts (S base) msgs in
                             (r, EvDetailRequest base (g_id m) :: tr)))) <= S (length msgs))%nat).
  { destruct (gpt_scan extract mb since_ts (S base) msgs) as [r tr]. simpl in *. lia. }
  destruct (gpt_detail_reply mb base (g_id m)) as [detail|e]; [|simpl; lia].
  destruct (status_code detail =? 200); simpl; [|exact Hcont].
  destruct (content detail) as [| |d]; [exact Hcont|simpl; lia|].
  destruct (truthy (gd_success d)); simpl; [|exact Hcont].
  destruct (truthy_str _); [simpl; lia|exact Hcont].
Qed.

Lemma moe_scan_requests mb since_ms msgs base :
  (length (detail_positions (snd (moe_scan extract mb since_ms base msgs))) <= length msgs)%nat.
Proof.
  revert base. induction msgs as [|m msgs IH]; intros base; simpl; [lia|].
  specialize (IH (S base)).
  destruct (truthy (py_or (m_id m) (m_messageId m))); simpl; [|lia].
  destruct (moe_skip since_ms (moe_sent_at m)); [lia|].
  assert (Hcont : (length (detail_positions
                       (snd (let '(r, tr) := moe_scan extract mb since_ms (S base) msgs in
                             (r, EvDetailRequest base (py_or (m_id m) (m_messageId m)) :: tr))))
                   <= S (length msgs))%nat).
  { destruct (moe_scan extract mb since_ms (S base) msgs) as [r tr]. simpl in *. lia. }
  destruct (moe_detail_reply mb base _) as [detail|e]; [|simpl; lia].
  destruct (status_code detail =? 200); simpl; [|exact Hcont].
  destruct (content detail) as [| |d]; [| simpl; lia |]; cbv beta iota zeta;
    try exact Hcont;
    (match goal with |- context [String.eqb ?a ""] => destruct (String.eqb a "") end;
     [exact Hcont|]);
    (destruct (truthy_str _); [simpl; lia|exact Hcont]).
Qed.

(** A scan makes detail requests and nothing else. *)
Lemma gpt_scan_quiet mb since_ts msgs base :
  cycle_events (snd (gpt_scan extract mb since_ts base msgs)) = [].
Proof.
  revert base. induction msgs as [|m msgs IH]; intros base; simpl; [reflexivity|].
  specialize (IH (S base)).
  destruct (gpt_scan extract mb since_ts (S base) msgs) as [r tr]. simpl in IH.
  repeat case_match; simpl; auto.
Qed.

Lemma moe_scan_quiet mb since_ms msgs base :
  cycle_events (snd (moe_scan extract mb since_ms base msgs)) = [].
Proof.
  revert base. induction msgs as [|m msgs IH]; intros base; simpl; [reflexivity|].
  specialize (IH (S base)).
  destruct (moe_scan extract mb since_ms (S base) msgs) as [r tr]. simpl in IH.
  repeat case_match; simpl; auto.
Qed.

(** ** fetch_verification_code *)

#[local] Arguments gpt_scan : simpl never.
#[local] Arguments moe_scan : simpl never.

Lemma gpt_fetch_trace email since mb :
  let out := gpt_fetch_verification_code extract email since mb in
  cycle_events (snd out) = [EvFetch] /\
  (length (detail_positions (snd out)) <= 10)%nat /\
  forall pos, In pos (detail_positions (snd out)) ->
    exists msg, (pos < 10)%nat /\ nth_error (gpt_inbox mb) pos = Some msg /\
                truthy (g_id msg) = true /\
                gpt_skip (option_map int_timestamp since) (g_timestamp msg) = false.
Proof.
  unfold gpt_fetch_verification_code, gpt_inbox.
  destruct (truthy_str email); simpl; [|repeat split; auto; try lia; contradiction].
  destruct (gpt_list_reply mb) as [[st body]|e]; simpl;
    [|repeat split; auto; try lia; contradiction].
  destruct (Z.eqb_spec st 200) as [->|Hst]; simpl;
    [|repeat split; auto; try lia; contradiction].
  destruct body as [| |payload]; simpl; try (repeat split; auto; try lia; contradiction).
  destruct (truthy (gl_success payload)); simpl;
    [|repeat split; auto; try lia; contradiction].
  destruct (gl_emails payload) as [|m emails] eqn:He;
    [simpl; repeat split; auto; try lia; contradiction|].
  cbv beta iota zeta. change (m :: firstn 9 emails) with (firstn 10 (m :: emails)).
  remember (firstn 10 (m :: emails)) as msgs eqn:Hmsgs.
  set (since_ts := match since with Some t => Some (int_timestamp t) | None => None end).
  assert (Hts : since_ts = option_map int_timestamp since) by (destruct since; reflexivity).
  pose proof (gpt_scan_reads mb since_ts msgs 0) as Hr.
  pose proof (gpt_scan_requests mb since_ts msgs 0) as Hn.
  pose proof (gpt_scan_quiet mb since_ts msgs 0) as Hq.
  destruct (gpt_scan extract mb since_ts 0 msgs) as [r tr].
  simpl in Hr, Hn, Hq |- *. rewrite Hq. split; [reflexivity|]. split.
  - rewrite Hmsgs, length_firstn in Hn. lia.
  - intros pos Hin. rewrite List.Forall_forall in Hr.
    destruct (Hr pos Hin) as (msg & _ & Hnth & Hid & Hs).
    rewrite Nat.sub_0_r, Hmsgs, nth_error_firstn in Hnth.
    destruct (Nat.ltb_spec pos 10); [|discriminate].
    exists msg. rewrite <- Hts. auto.
Qed.

Lemma gpt_fetch_source email since mb code :
  fst (gpt_fetch_verification_code extract email since mb) = Some code ->
  exists pos msg text,
    (pos < 10)%nat /\ nth_error (gpt_inbox mb) pos = Some msg /\
    gpt_skip (option_map int_timestamp since) (g_timestamp msg) = false /\
    gpt_text (gpt_detail_reply mb pos (g_id msg)) = Some text /\
    extract text = Some code /\ code <> "".
Proof.
  unfold gpt_fetch_verification_code, gpt_inbox.
  destruct (truthy_str email); simpl; [|discriminate].
  destruct (gpt_list_reply mb) as [[st body]|e]; simpl; [|discriminate].
  destruct (Z.eqb_spec st 200) as [->|Hst]; simpl; [|discriminate].
  destruct body as [| |payload]; simpl; try discriminate.
  destruct (truthy (gl_success payload)); simpl; [|discriminate].
  destruct (gl_emails payload) as [|m emails] eqn:He; [simpl; discriminate|].
  cbv beta iota zeta. change (m :: firstn 9 emails) with (firstn 10 (m :: emails)).
  remember (firstn 10 (m :: emails)) as msgs eqn:Hmsgs.
  set (since_ts := match since with Some t => Some (int_timestamp t) | None => None end).
  assert (Hts : since_ts = option_map int_timestamp since) by (destruct since; reflexivity).
  pose proof (gpt_scan_source mb since_ts msgs 0 code) as Hsrc.
  destruct (gpt_scan extract mb since_ts 0 msgs) as [[r|e] tr];
    simpl in Hsrc |- *; [|discriminate].
  intros ->. destruct (Hsrc eq_refl) as (pos & msg & text & _ & Hnth & _ & Hs & Ht & Hx & Hne).
  rewrite Nat.sub_0_r, Hmsgs, nth_error_firstn in Hnth.
  destruct (Nat.ltb_spec pos 10); [|discriminate].
  exists pos, msg, text. rewrite <- ?Hts. repeat split; assumption.
Qed.

Lemma moe_fetch_trace email_id since mb :
  let out := moe_fetch_verification_code extract email_id since mb in
  cycle_events (snd out) = [EvFetch] /\
  (length (detail_positions (snd out)) <= 10)%nat /\
  forall pos, In pos (detail_positions (snd out)) ->
    exists msg, (pos < 10)%nat /\ nth_error (moe_inbox mb) pos = Some msg /\
                truthy (py_or (m_id msg) (m_messageId msg)) = true /\
                moe_skip (option_map int_timestamp_ms since) (moe_sent_at msg) = false.
Proof.
  unfold moe_fetch_verification_code, moe_inbox.
  destruct (truthy_str email_id); simpl; [|repeat split; auto; try lia; contradiction].
  destruct (moe_list_reply mb) as [[st body]|e]; simpl;
    [|repeat split; auto; try lia; contradiction].
  destruct (Z.eqb_spec st 200) as [->|Hst]; simpl;
    [|repeat split; auto; try lia; contradiction].
  destruct body as [| |[|m messages]];
    try (simpl; repeat split; auto; try lia; contradiction).
  cbv beta iota zeta. change (m :: firstn 9 messages) with (firstn 10 (m :: messages)).
  remember (firstn 10 (m :: messages)) as msgs eqn:Hmsgs.
  set (since_ms := match since with Some t => Some (int_timestamp_ms t) | None => None end).
  assert (Hts : since_ms = option_map int_timestamp_ms since) by (destruct since; reflexivity).
  pose proof (moe_scan_reads mb since_ms msgs 0) as Hr.
  pose proof (moe_scan_requests mb since_ms msgs 0) as Hn.
  pose proof (moe_scan_quiet mb since_ms msgs 0) as Hq.
  destruct (moe_scan extract mb since_ms 0 msgs) as [r tr].
  simpl in Hr, Hn, Hq |- *. rewrite Hq. split; [reflexivity|]. split.
  - rewrite Hmsgs, length_firstn in Hn. lia.
  - intros pos Hin. rewrite List.Forall_forall in Hr.
    destruct (Hr pos Hin) as (msg & _ & Hnth & Hid & Hs).
    rewrite Nat.sub_0_r, Hmsgs, nth_error_firstn in Hnth.
    destruct (Nat.ltb_spec pos 10); [|discriminate].
    exists msg. rewrite <- Hts. auto.
Qed.

Lemma moe_fetch_source email_id since mb code :
  fst (moe_fetch_verification_code extract email_id since mb) = Some code ->
  exists pos msg text,
    (pos < 10)%nat /\ nth_error (moe_inbox mb) pos = Some msg /\
    moe_skip (option_map int_timestamp_ms since) (moe_sent_at msg) = false /\
    moe_text (moe_detail_reply mb pos (py_or (m_id msg) (m_messageId msg))) = Some text /\
    extract text = Some code /\ code <> "".
Proof.
  unfold moe_fetch_verification_code, moe_inbox.
  destruct (truthy_str email_id); simpl; [|discriminate].
  destruct (moe_list_reply mb) as [[st body]|e]; simpl; [|discriminate].
  destruct (Z.eqb_spec st 200) as [->|Hst]; simpl; [|discriminate].
  destruct body as [| |[|m messages]]; try (simpl; discriminate).
  cbv beta iota zeta. change (m :: firstn 9 messages) with (firstn 10 (m :: messages)).
  remember (firstn 10 (m :: messages)) as msgs eqn:Hmsgs.
  set (since_ms := match since with Some t => Some (int_timestamp_ms t) | None => None end).
  assert (Hts : since_ms = option_map int_timestamp_ms since) by (destruct since; reflexivity).
  pose proof (moe_scan_source mb since_ms msgs 0 code) as Hsrc.
  destruct (moe_scan extract mb since_ms 0 msgs) as [[r|e] tr];
    simpl in Hsrc |- *; [|discriminate].
  intros ->. destruct (Hsrc eq_refl) as (pos & msg & text & _ & Hnth & _ & Hs & Ht & Hx & Hne).
  rewrite Nat.sub_0_r, Hmsgs, nth_error_firstn in Hnth.
  destruct (Nat.ltb_spec pos 10); [|discriminate].
  exists pos, msg, text. rewrite <- ?Hts. repeat split; assumption.
Qed.

(** ** poll_for_code *)

Lemma cycle_events_app (a b : list event) :
  cycle_events (a ++ b) = (cycle_events a ++ cycle_events b)%list.
Proof. apply List.filter_app. Qed.

(** What [poll] promises about a run over the fetches [fetch 0], [fetch 1],
    ...: [k] cycles were made, between 1 and the bound; a sleep of [interval]
    separates consecutive cycles and none follows the last; every cycle but
    the last found nothing; the value is the code of the last cycle, or none
    when the bound was reached without one. *)
Definition polled (fetch : nat -> option string * list event) (timeout interval : Z)
    (out : result (option string) * list event) : Prop :=
  let bound := Z.to_nat (Z.max 1 (timeout / interval)) in
  exists (k : nat) (r : option string),
    fst out = Return r /\
    (1 <= k <= bound)%nat /\
    cycle_events (snd out) = cycles k interval /\
    (forall j, (j < k - 1)%nat -> truthy_str (fst (fetch j)) = false) /\
    (truthy_str r = true /\ r = fst (fetch (k - 1)%nat) \/
     r = None /\ k = bound /\ truthy_str (fst (fetch (k - 1)%nat)) = false).

Lemma poll_loop_cycles (fetch : nat -> option string * list event) (interval : Z) (n : nat) :
  (forall k, cycle_events (snd (fetch k)) = [EvFetch]) ->
  0 <= interval ->
  forall todo i, (1 <= todo)%nat -> (1 <= i)%nat -> (i + todo = S n)%nat ->
  exists (k : nat) (r : option string),
    fst (poll_loop fetch interval n i todo) = Return r /\
    (1 <= k <= todo)%nat /\
    cycle_events (snd (poll_loop fetch interval n i todo)) = cycles k interval /\
    (forall j, (j < k - 1)%nat -> truthy_str (fst (fetch (i - 1 + j)%nat)) = false) /\
    (truthy_str r = true /\ r = fst (fetch (i - 1 + (k - 1))%nat) \/
     r = None /\ k = todo /\ truthy_str (fst (fetch (i - 1 + (k - 1))%nat)) = false).
Proof.
  intros Hshape Hint. induction todo as [|todo IH]; intros i Htodo Hi1 Hi; [lia|].
  simpl. pose proof (Hshape (i - 1)%nat) as Hf.
  destruct (fetch (i - 1)%nat) as [code tr] eqn:Hfetch. simpl in Hf.
  destruct (truthy_str code) eqn:Hcode.
  - exists 1%nat, code. simpl. rewrite Nat.add_0_r, Hfetch. simpl.
    repeat split; auto; try lia; try (intros j Hj; lia).
  - destruct todo as [|todo].
    + (* the last cycle *)
      assert (Hlast : (i <? n)%nat = false) by (apply Nat.ltb_ge; lia).
      rewrite Hlast. simpl. rewrite app_nil_r.
      exists 1%nat, None. simpl. rewrite Nat.add_0_r, Hfetch. simpl.
      repeat split; auto; try lia; try (intros j Hj; lia).
    + assert (Hmore : (i <? n)%nat = true) by (apply Nat.ltb_lt; lia).
      rewrite Hmore.
      assert (Hneg : (interval <? 0) = false) by (apply Z.ltb_ge; lia).
      rewrite Hneg.
      destruct (IH (S i) ltac:(lia) ltac:(lia) ltac:(lia)) as (k & r & Hr & Hk & Hc & Hnone & Hlast).
      destruct (poll_loop fetch interval n (S i) (S todo)) as [r' tr'].
      simpl in Hr, Hc. subst r'.
      exists (S k), r. simpl.
      split; [reflexivity|]. split; [lia|]. split.
      * rewrite cycle_events_app, Hf. simpl. rewrite Hc.
        destruct k as [|k]; [lia|reflexivity].
      * replace (S i - 1)%nat with (S (i - 1)) in * by lia.
        split.
        -- intros j Hj. destruct j as [|j].
           ++ rewrite Nat.add_0_r, Hfetch. exact Hcode.
           ++ replace (i - 1 + S j)%nat with (S (i - 1) + j)%nat by lia.
              apply Hnone. lia.
        -- replace (i - 1 + (k - 0))%nat with (S (i - 1) + (k - 1))%nat by lia.
           destruct Hlast as [Hl | (Hl1 & Hl2 & Hl3)]; [left; exact Hl|].
           right. repeat split; auto.
Qed.

Lemma poll_polled (fetch : nat -> option string * list event) (timeout interval : Z) :
  (forall k, cycle_events (snd (fetch k)) = [EvFetch]) ->
  1 <= interval ->
  polled fetch timeout interval (poll fetch timeout interval).
Proof.
  intros Hshape Hint. unfold polled, poll.
  destruct (Z.eqb_spec interval 0) as [->|_]; [lia|].
  set (n := Z.to_nat (Z.max 1 (timeout / interval))).
  assert (Hn : (1 <= n)%nat) by (subst n; lia).
  destruct (poll_loop_cycles fetch interval n Hshape ltac:(lia) n 1%nat Hn ltac:(lia) ltac:(lia))
    as (k & r & Hr & Hk & Hc & Hnone & Hlast).
  exists k, r. simpl in Hnone, Hlast. repeat split; auto; lia.
Qed.

End Scans.

End MailFacts.

Module MailClaims.
Import Mail MailFacts Samples.




(** C8: for every timeout and every interval of at least 1, [poll_for_code]
    of either client makes between 1 and [max(1, timeout // interval)] fetch
    cycles, sleeps [interval] between consecutive cycles and never after the
    last, returns the first code a fetch yields and none when all cycles are
    used up; a fetch requests the detail of at most ten messages, all among
    the first ten of the list. *)
Theorem poll_for_code_is_bounded
    (extract : string -> option string) (email email_id : option string)
    (gpt_server : nat -> gpt_mailbox) (moe_server : nat -> moe_mailbox)
    (timeout interval : Z) (since_time : option datetime) :
  1 <= interval ->
  polled (fun k => gpt_fetch_verification_code extract email since_time (gpt_server k))
         timeout interval
         (gpt_poll_for_code extract email gpt_server timeout interval since_time) /\
  polled (fun k => moe_fetch_verification_code extract email_id since_time (moe_server k))
         timeout interval
         (moe_poll_for_code extract email_id moe_server timeout interval since_time) /\
  (forall k,
     let tr := snd (gpt_fetch_verification_code extract email since_time (gpt_server k)) in
     (length (detail_positions tr) <= 10)%nat /\
     forall pos, In pos (detail_positions tr) -> (pos < 10)%nat) /\
  (forall k,
     let tr := snd (moe_fetch_verification_code extract email_id since_time (moe_server k)) in
     (length (detail_positions tr) <= 10)%nat /\
     forall pos, In pos (detail_positions tr) -> (pos < 10)%nat).
Proof.
  intros Hint. repeat split.
  - apply poll_polled; [|exact Hint].
    intros k. apply (gpt_fetch_trace extract email since_time (gpt_server k)).
  - apply poll_polled; [|exact Hint].
    intros k. apply (moe_fetch_trace extract email_id since_time (moe_server k)).
  - apply (gpt_fetch_trace extract email since_time (gpt_server k)).
  - intros pos Hin.
    destruct (gpt_fetch_trace extract email since_time (gpt_server k)) as (_ & _ & Hread).
    destruct (Hread pos Hin) as (msg & Hp & _). exact Hp.
  - apply (moe_fetch_trace extract email_id since_time (moe_server k)).
  - intros pos Hin.
    destruct (moe_fetch_trace extract email_id since_time (moe_server k)) as (_ & _ & Hread).
    destruct (Hread pos Hin) as (msg & Hp & _). exact Hp.
Qed.

Lemma poll_for_code_witness :
  polled (fun k => gpt_fetch_verification_code six_digits (Some "user@mail.example.org")
                     None (gpt_server_third_look k))
         12 4
         (gpt_poll_for_code six_digits (Some "user@mail.example.org") gpt_server_third_look
            12 4 None) /\
  gpt_poll_for_code six_digits (Some "user@mail.example.org") gpt_server_third_look 12 4 None
  = (Return (Some "123456"),
     [EvFetch; EvListRequest; EvSleep 4; EvFetch; EvListRequest; EvSleep 4;
      EvFetch; EvListRequest; EvDetailRequest 0 (PStr "m1")]).
Proof.
  split.
  - apply (poll_for_code_is_bounded six_digits (Some "user@mail.example.org") None
             gpt_server_third_look (fun _ => old_moe_mailbox) 12 4 None).
    lia.
  - reflexivity.
Defined.

End MailClaims.

(* ===================================================================== *)
(** * Properties of the login state machine *)
(* ===================================================================== *)

Module AutomationFacts.
Import Automation.

(** ** The verification timeline of a run *)

(** Of all the calls of a run, those the resend escalation is about: a
    reading of the clock, a click that went through (with the text the
    button showed when it was last read), and a poll of the mailbox (with the
    time it was told to start from, and its answer). *)
Inductive step_event : Type :=
| Clock (now : Z)
| Clicked (b : elem) (label : option string)
| Polled (since_time : datetime) (answer : result (option string)).

(** The text of the latest [inner_text()] read of button [b]. *)
Fixpoint label_before (h : list made_call) (b : elem) : option string :=
  match h with
  | [] => None
  | Made c answer :: older =>
      match c in call T return T -> option string with
      | ElemInnerText b' =>
          fun a =>
            if Nat.eqb b' b
            then match a with Return t => Some t | Raise _ => None end
            else label_before older b
      | _ => fun _ => label_before older b
      end answer
  end.

Definition events_of (older : list made_call) (c : made_call) : list step_event :=
  match c with
  | Made c0 answer =>
      match c0 in call T return T -> list step_event with
      | DatetimeNow => fun now => [Clock now]
      | PollForCode _ _ since_time => fun a => [Polled since_time a]
      | ElemClick b =>
          fun a =>
            match a with
            | Return _ => [Clicked b (label_before older b)]
            | Raise _ => []
            end
      | _ => fun _ => []
      end answer
  end.

(** The timeline of a history (which is kept most recent first), in the
    order of time. *)
Fixpoint timeline (h : list made_call) : list step_event :=
  match h with
  | [] => []
  | c :: older => (timeline older ++ events_of older c)%list
  end.

Definition polls (evs : list step_event) : nat :=
  length (List.filter (fun e => match e with Polled _ _ => true | _ => false end) evs).

(** A computation that leaves the timeline as it is. *)
Definition quiet {A : Type} (m : M A) : Prop :=
  forall s, timeline (history (snd (m s))) = timeline (history s).

(** A computation that raises nothing but the cancellation signal. *)
Definition cancel_only {A : Type} (m : M A) : Prop :=
  forall s e, fst (m s) = Raise e -> is_cancel e = true.

(** A computation that raises nothing. *)
Definition total {A : Type} (m : M A) : Prop :=
  forall s, exists a, fst (m s) = Return a.

(** An instant, given in microseconds since the epoch, written as
    [%Y-%m-%d %H:%M:%S] in the zone [timezone(timedelta(hours=8))]. *)
Definition render_beijing (epoch_us : Z) : string :=
  strftime (mk_datetime epoch_us (Some (8 * 3600))).

(** The answer to the latest [context.cookies()] of a history. *)
Fixpoint latest_cookies (h : list made_call) : option (result (list cookie)) :=
  match h with
  | [] => None
  | Made c answer :: older =>
      match c in call T return T -> option (result (list cookie)) with
      | ContextCookies => fun a => Some a
      | _ => fun _ => latest_cookies older
      end answer
  end.

(** The latest reading of the clock in a history. *)
Fixpoint latest_clock (h : list made_call) : option Z :=
  match h with
  | [] => None
  | Made c answer :: older =>
      match c in call T return T -> option Z with
      | DatetimeNow => fun now => Some now
      | _ => fun _ => latest_clock older
      end answer
  end.

(** Whether a line with this text went to the log callback. *)
Fixpoint logged (h : list made_call) (text : string) : bool :=
  match h with
  | [] => false
  | Made c _ :: older =>
      match c with
      | LogCallback _ message => String.eqb message text || logged older text
      | _ => logged older text
      end
  end.

Section Frames.

Variable env : environment.
Variable self : settings.

Lemma quiet_ret {A : Type} (a : A) : quiet (ret a).
Proof. intros s. reflexivity. Qed.

Lemma quiet_raise {A : Type} (e : exn) : quiet (raise (A:=A) e).
Proof. intros s. reflexivity. Qed.

Lemma quiet_lift {A : Type} (r : result A) : quiet (lift r).
Proof. intros s. reflexivity. Qed.

Lemma quiet_bind {A B : Type} (m : M A) (k : A -> M B) :
  quiet m -> (forall a, quiet (k a)) -> quiet (bind m k).
Proof.
  intros Hm Hk s. unfold bind. specialize (Hm s).
  destruct (m s) as [[a|e] s1]; simpl in *; [|exact Hm].
  rewrite (Hk a s1). exact Hm.
Qed.

Lemma quiet_try_except {A : Type} (m : M A) (h : exn -> M A) :
  quiet m -> (forall e, quiet (h e)) -> quiet (try_except m h).
Proof.
  intros Hm Hh s. unfold try_except. specialize (Hm s).
  destruct (m s) as [[a|e] s1]; simpl in *; [exact Hm|].
  rewrite (Hh e s1). exact Hm.
Qed.

Lemma quiet_perform {T : Type} (c : call T) :
  (forall h a, events_of h (Made c a) = []) -> quiet (perform env c).
Proof.
  intros Hc s. unfold perform, record_call. cbn [snd history timeline].
  rewrite Hc. apply app_nil_r.
Qed.

Lemma quiet_invoke {T : Type} (c : call (result T)) :
  (forall h a, events_of h (Made c a) = []) -> quiet (invoke env c).
Proof.
  intros Hc s. unfold invoke, record_call. cbn [snd history timeline].
  rewrite Hc. apply app_nil_r.
Qed.

Lemma total_ret {A : Type} (a : A) : total (ret a).
Proof. intros s. exists a. reflexivity. Qed.

Lemma total_bind {A B : Type} (m : M A) (k : A -> M B) :
  total m -> (forall a, total (k a)) -> total (bind m k).
Proof.
  intros Hm Hk s. unfold bind. destruct (Hm s) as (a & Ha).
  destruct (m s) as [r s1]. simpl in Ha. subst r. apply Hk.
Qed.

Lemma total_try_except {A : Type} (m : M A) (h : exn -> M A) :
  (forall e, total (h e)) -> total (try_except m h).
Proof.
  intros Hh s. unfold try_except.
  destruct (m s) as [[a|e] s1]; [exists a; reflexivity|apply Hh].
Qed.

Lemma total_perform {T : Type} (c : call T) : total (perform env c).
Proof. intros s. eexists. reflexivity. Qed.

Ltac frame :=
  repeat first
    [ apply quiet_ret
    | apply quiet_raise
    | apply quiet_lift
    | apply quiet_bind; [|intros]
    | apply quiet_try_except; [|intros]
    | apply quiet_perform; reflexivity
    | apply quiet_invoke; reflexivity
    | match goal with
      | |- quiet (if ?b then _ else _) => destruct b
      | |- quiet (match ?x with _ => _ end) => destruct x
      end ].

Ltac totality :=
  repeat first
    [ apply total_ret
    | apply total_perform
    | apply total_bind; [|intros]
    | apply total_try_except; intros
    | match goal with
      | |- total (if ?b then _ else _) => destruct b
      | |- total (match ?x with _ => _ end) => destruct x
      end ].

Lemma _log_quiet level message : quiet (_log env self level message).
Proof.
  unfold _log. destruct (has_log_callback self); [|apply quiet_ret].
  intros s. unfold try_except_reraising_cancel, invoke. simpl.
  destruct (env (result unit) (history s) (LogCallback level message)) as [u|[m|m]];
    simpl; apply app_nil_r.
Qed.

Lemma _log_cancel_only level message : cancel_only (_log env self level message).
Proof.
  unfold _log. intros s e. destruct (has_log_callback self); [|discriminate].
  unfold try_except_reraising_cancel, invoke. simpl.
  destruct (env (result unit) (history s) (LogCallback level message)) as [u|[m|m]];
    simpl; try discriminate.
  intros H. injection H as <-. reflexivity.
Qed.

Lemma _sleep_quiet base : quiet (_sleep env self base).
Proof. unfold _sleep. frame. Qed.

Lemma _sleep_total base : total (_sleep env self base).
Proof. unfold _sleep. totality. Qed.

Lemma _query_all_quiet selector : quiet (_query_all env selector).
Proof. unfold _query_all. frame. Qed.

Lemma _query_all_total selector : total (_query_all env selector).
Proof. unfold _query_all. totality. Qed.

Lemma _save_screenshot_quiet name : quiet (_save_screenshot env name).
Proof. unfold _save_screenshot. frame. Qed.

Lemma _save_screenshot_total name : total (_save_screenshot env name).
Proof. unfold _save_screenshot. totality. Qed.

Lemma bind_Return {A B : Type} (m : M A) (k : A -> M B) s a s' :
  m s = (Return a, s') -> bind m k s = k a s'.
Proof. intros H. unfold bind. rewrite H. reflexivity. Qed.

Lemma bind_Raise {A B : Type} (m : M A) (k : A -> M B) s e s' :
  m s = (Raise e, s') -> bind m k s = (Raise e, s').
Proof. intros H. unfold bind. rewrite H. reflexivity. Qed.

Lemma try_except_Return {A : Type} (m : M A) (h : exn -> M A) s a s' :
  m s = (Return a, s') -> try_except m h s = (Return a, s').
Proof. intros H. unfold try_except. rewrite H. reflexivity. Qed.

Lemma try_except_Raise {A : Type} (m : M A) (h : exn -> M A) s e s' :
  m s = (Raise e, s') -> try_except m h s = h e s'.
Proof. intros H. unfold try_except. rewrite H. reflexivity. Qed.

Lemma invoke_run {T : Type} (c : call (result T)) s :
  invoke env c s = (env (result T) (history s) c,
                    record_call (Made c (env (result T) (history s) c)) s).
Proof. reflexivity. Qed.

Lemma perform_run {T : Type} (c : call T) s :
  perform env c s = (Return (env T (history s) c),
                     record_call (Made c (env T (history s) c)) s).
Proof. reflexivity. Qed.

Lemma run_quiet_total {A : Type} (m : M A) :
  quiet m -> total m ->
  forall s, exists a s', m s = (Return a, s') /\ timeline (history s') = timeline (history s).
Proof.
  intros Hq Ht s. destruct (Ht s) as (a & Ha). specialize (Hq s).
  destruct (m s) as [r s']. simpl in *. subst r. exists a, s'. auto.
Qed.

(** [_log] returns or raises the cancellation signal; it leaves the timeline
    and the button labels as they are. *)
Lemma _log_run level message s :
  exists r s',
    _log env self level message s = (r, s') /\
    (r = Return tt \/ exists msg, r = Raise (TaskCancelledError msg)) /\
    timeline (history s') = timeline (history s) /\
    forall b, label_before (history s') b = label_before (history s) b.
Proof.
  unfold _log. destruct (has_log_callback self).
  - unfold try_except_reraising_cancel, invoke, record_call. simpl.
    destruct (env (result unit) (history s) (LogCallback level message)) as [[]|[m|m]];
      eexists; eexists; (split; [reflexivity|]); simpl;
      rewrite app_nil_r; repeat split; eauto.
  - exists (Return tt), s. repeat split; auto.
Qed.

(** ** Step 5: the resend escalation *)

(** What a scan for the resend button leaves behind: nothing, and the value
    [False]; or one click that went through, on a button whose text (stripped,
    in lower case) holds one of the two keywords, and the value [True]. *)
Definition resend_click (s : state) (out : result bool * state) : Prop :=
  (fst out = Return false /\ timeline (history (snd out)) = timeline (history s)) \/
  (fst out = Return true /\
   exists b t, timeline (history (snd out)) = (timeline (history s) ++ [Clicked b (Some t)])%list /\
               is_resend_label (lower (strip t)) = true).

Lemma resend_click_frame s s0 out :
  timeline (history s) = timeline (history s0) ->
  resend_click s out -> resend_click s0 out.
Proof.
  intros Ht [[Hr Hl]|[Hr (b & t & Hl & Hk)]]; [left|right]; split; auto.
  - congruence.
  - exists b, t. split; [congruence|exact Hk].
Qed.

(** Reading a button's text: the value is the text as processed, or [""]
    when the read raised. *)
Lemma button_text_run post btn s :
  exists text s1,
    button_text env post btn s = (Return text, s1) /\
    timeline (history s1) = timeline (history s) /\
    (text = "" \/ exists t, text = post (strip t) /\ label_before (history s1) btn = Some t).
Proof.
  unfold button_text.
  destruct (env (result string) (history s) (ElemInnerText btn)) as [t|e] eqn:Htext.
  - exists (post (strip t)), (record_call (Made (ElemInnerText btn) (Return t)) s).
    split; [|split].
    + apply try_except_Return. erewrite bind_Return; [reflexivity|].
      rewrite invoke_run, Htext. reflexivity.
    + simpl. apply app_nil_r.
    + right. exists t. split; [reflexivity|]. simpl. rewrite Nat.eqb_refl. reflexivity.
  - exists "", (record_call (Made (ElemInnerText btn) (Raise e)) s).
    split; [|split].
    + erewrite try_except_Raise; [reflexivity|].
      erewrite bind_Raise; [reflexivity|]. rewrite invoke_run, Htext. reflexivity.
    + simpl. apply app_nil_r.
    + left. reflexivity.
Qed.

(** The guarded click of the resend scan. *)
Lemma resend_try_click btn text t s1 :
  label_before (history s1) btn = Some t ->
  exists clicked s3,
    try_except
      (bind (_log env self "info" ("found resend button: " ++ text))
         (fun _ => bind (invoke env (ElemClick btn))
                     (fun _ => bind (_sleep env self 2) (fun _ => ret true))))
      (fun _ => ret false) s1 = (Return clicked, s3) /\
    if (clicked : bool)
    then timeline (history s3) = (timeline (history s1) ++ [Clicked btn (Some t)])%list
    else timeline (history s3) = timeline (history s1).
Proof.
  intros Hl1.
  destruct (_log_run "info" ("found resend button: " ++ text) s1)
    as (r & s2 & Hlog & Hr & Ht2 & Hl2).
  destruct Hr as [-> | (msg & ->)].
  - destruct (env (result unit) (history s2) (ElemClick btn)) as [[]|e] eqn:Hclick.
    + destruct (run_quiet_total _ (_sleep_quiet 2) (_sleep_total 2)
                  (record_call (Made (ElemClick btn) (Return tt)) s2))
        as (u & s3 & Hsleep & Ht3).
      exists true, s3. split.
      * apply try_except_Return. erewrite bind_Return by exact Hlog.
        erewrite bind_Return by (rewrite invoke_run, Hclick; reflexivity).
        erewrite bind_Return by exact Hsleep. reflexivity.
      * rewrite Ht3. unfold record_call. cbn [history timeline events_of].
        rewrite Hl2, Hl1, Ht2. reflexivity.
    + exists false, (record_call (Made (ElemClick btn) (Raise e)) s2). split.
      * erewrite try_except_Raise; [reflexivity|].
        erewrite bind_Return by exact Hlog.
        erewrite bind_Raise; [reflexivity|]. rewrite invoke_run, Hclick. reflexivity.
      * unfold record_call. cbn [history timeline events_of]. rewrite app_nil_r. exact Ht2.
  - exists false, s2. split.
    + erewrite try_except_Raise; [reflexivity|]. erewrite bind_Raise; [reflexivity|exact Hlog].
    + exact Ht2.
Qed.

Lemma resend_scan_outcome buttons s : resend_click s (resend_scan env self buttons s).
Proof.
  revert s. induction buttons as [|btn rest IH]; intros s.
  - left. split; reflexivity.
  - cbn [resend_scan].
    destruct (button_text_run lower btn s) as (text & s1 & Htext & Ht1 & Hcases).
    erewrite bind_Return by exact Htext.
    destruct (is_resend_label text) eqn:Hlabel;
      [|eapply resend_click_frame; [|apply IH]; exact Ht1].
    destruct Hcases as [-> | (t & -> & Hl1)]; [discriminate|].
    destruct (resend_try_click btn (lower (strip t)) t s1 Hl1) as (clicked & s3 & Htry & Ht3).
    erewrite bind_Return by exact Htry.
    destruct clicked.
    + right. split; [reflexivity|]. exists btn, t. split; [|exact Hlabel].
      cbn [ret snd]. rewrite Ht3, Ht1. reflexivity.
    + eapply resend_click_frame; [|apply IH]. congruence.
Qed.

Lemma _click_resend_code_button_outcome s :
  resend_click s (_click_resend_code_button env self s).
Proof.
  unfold _click_resend_code_button.
  destruct (run_quiet_total _ (_sleep_quiet 2) (_sleep_total 2) s) as (u & s1 & Hsleep & Ht1).
  erewrite bind_Return by exact Hsleep.
  destruct (run_quiet_total _ (_query_all_quiet "tag:button") (_query_all_total "tag:button") s1)
    as (buttons & s2 & Hq & Ht2).
  pose proof (resend_scan_outcome buttons s2) as Hscan.
  apply (resend_click_frame s2 s) in Hscan; [|congruence].
  destruct (resend_scan env self buttons s2) as [[b|e] s3] eqn:Hrun.
  - erewrite try_except_Return; [exact Hscan|].
    erewrite bind_Return by exact Hq. exact Hrun.
  - destruct Hscan as [[Hr _]|[Hr _]]; discriminate.
Qed.

Definition cancelled {A : Type} (r : result A) : Prop :=
  exists msg, r = Raise (TaskCancelledError msg).

(** The timeline of the resend loop entered with a budget of [k] cycles, and
    what the loop gives back.  A cycle reads the clock, clicks a button whose
    text is a resend label, and polls the mailbox from the time just read; the
    loop ends with the first code, with the budget, when no button can be
    clicked, or with an exception. *)
Inductive resend_cycles : nat -> list step_event -> result (flow_result + option string) -> Prop :=
| cycles_used_up :
    resend_cycles 0 [] (Return (inr None))
| cycle_without_button k now r :
    r = Return (inl (Failure "resend code button not found")) \/ cancelled r ->
    resend_cycles (S k) [Clock now] r
| cycle_interrupted k now b t r :
    is_resend_label (lower (strip t)) = true -> cancelled r ->
    resend_cycles (S k) [Clock now; Clicked b (Some t)] r
| cycle_poll_raised k now b t e :
    is_resend_label (lower (strip t)) = true ->
    resend_cycles (S k)
      [Clock now; Clicked b (Some t); Polled (mk_datetime now None) (Raise e)] (Raise e)
| cycle_with_code k now b t code :
    is_resend_label (lower (strip t)) = true -> truthy_str code = true ->
    resend_cycles (S k)
      [Clock now; Clicked b (Some t); Polled (mk_datetime now None) (Return code)]
      (Return (inr code))
| cycle_without_code k now b t code rest r :
    is_resend_label (lower (strip t)) = true -> truthy_str code = false ->
    resend_cycles k rest r ->
    resend_cycles (S k)
      (Clock now :: Clicked b (Some t) :: Polled (mk_datetime now None) (Return code) :: rest) r.

Lemma resend_cycles_polls k evs r : resend_cycles k evs r -> (polls evs <= k)%nat.
Proof.
  induction 1; unfold polls in *; simpl in *; lia.
Qed.

Lemma _poll_for_verification_code_run since_time s :
  exists a s',
    _poll_for_verification_code env self since_time s = (a, s') /\
    timeline (history s') = (timeline (history s) ++ [Polled since_time a])%list.
Proof.
  unfold _poll_for_verification_code. rewrite invoke_run.
  eexists. eexists. split; [reflexivity|]. reflexivity.
Qed.

Lemma resend_loop_cycles todo attempt s :
  exists evs,
    timeline (history (snd (resend_loop env self todo attempt s)))
      = (timeline (history s) ++ evs)%list /\
    resend_cycles todo evs (fst (resend_loop env self todo attempt s)).
Proof.
  revert attempt s. induction todo as [|k IH]; intros attempt s.
  - exists []. simpl. rewrite app_nil_r. split; [reflexivity|constructor].
  - cbn [resend_loop].
    erewrite bind_Return by apply perform_run.
    set (now := env Z (history s) DatetimeNow).
    set (s1 := record_call (Made DatetimeNow now) s).
    assert (Ht1 : timeline (history s1) = (timeline (history s) ++ [Clock now])%list)
      by reflexivity.
    pose proof (_click_resend_code_button_outcome s1) as Hclick.
    destruct (_click_resend_code_button env self s1) as [rc s2] eqn:Hrun.
    destruct Hclick as [[Hr Ht2]|[Hr (b & t & Ht2 & Hlabel)]]; simpl in Hr, Ht2; subst rc.
    + (* no button *)
      erewrite bind_Return by exact Hrun. cbn [negb].
      destruct (_log_run "error" "❌ 未找到重新发送按钮" s2) as (r & s3 & Hlog & Hr & Ht3 & _).
      destruct Hr as [-> | (msg & ->)].
      * erewrite bind_Return by exact Hlog.
        destruct (run_quiet_total _ (_save_screenshot_quiet "resend_button_missing")
                    (_save_screenshot_total "resend_button_missing") s3)
          as (u & s4 & Hshot & Ht4).
        erewrite bind_Return by exact Hshot.
        exists [Clock now]. cbn [ret fst snd]. split; [congruence|].
        constructor. left. reflexivity.
      * erewrite bind_Raise by exact Hlog.
        exists [Clock now]. cbn [fst snd]. split; [congruence|].
        constructor. right. exists msg. reflexivity.
    + (* clicked *)
      erewrite bind_Return by exact Hrun. cbn [negb].
      match goal with |- context [_log env self "info" ?m] =>
        destruct (_log_run "info" m s2) as (r & s3 & Hlog & Hr & Ht3 & _) end.
      destruct Hr as [-> | (msg & ->)].
      * erewrite bind_Return by exact Hlog.
        destruct (_poll_for_verification_code_run (mk_datetime now None) s3)
          as (a & s4 & Hpoll & Ht4).
        destruct a as [code|e].
        -- erewrite bind_Return by exact Hpoll.
           destruct (truthy_str code) eqn:Hcode.
           ++ exists [Clock now; Clicked b (Some t); Polled (mk_datetime now None) (Return code)].
              cbn [ret fst snd]. split.
              ** rewrite Ht4, Ht3, Ht2, ?Ht1, <- ?app_assoc. reflexivity.
              ** apply cycle_with_code; assumption.
           ++ destruct (IH (S attempt) s4) as (rest & Hrest & Hcycles).
              exists (Clock now :: Clicked b (Some t)
                        :: Polled (mk_datetime now None) (Return code) :: rest).
              split.
              ** rewrite Hrest, Ht4, Ht3, Ht2, ?Ht1, <- ?app_assoc. reflexivity.
              ** apply cycle_without_code; assumption.
        -- erewrite bind_Raise by exact Hpoll.
           exists [Clock now; Clicked b (Some t); Polled (mk_datetime now None) (Raise e)].
           cbn [fst snd]. split.
           ++ rewrite Ht4, Ht3, Ht2, ?Ht1, <- ?app_assoc. reflexivity.
           ++ apply cycle_poll_raised; assumption.
      * erewrite bind_Raise by exact Hlog.
        exists [Clock now; Clicked b (Some t)]. cbn [fst snd]. split.
        -- rewrite Ht3, Ht2, ?Ht1, <- ?app_assoc. reflexivity.
        -- apply cycle_interrupted; [assumption|]. exists msg. reflexivity.
Qed.

(** The timeline of step 5 as a whole, and what it gives back: the first
    poll from [send_time]; when it has no code and the budget is positive,
    the resend cycles; the code, or the failure the attempt ends with. *)
Inductive escalation (budget : Z) (send_time : datetime)
  : list step_event -> result (flow_result + string) -> Prop :=
| not_started r :
    cancelled r -> escalation budget send_time [] r
| first_poll_raised e :
    escalation budget send_time [Polled send_time (Raise e)] (Raise e)
| first_poll_code code :
    truthy_str code = true ->
    escalation budget send_time [Polled send_time (Return code)]
      (Return (inr (str_or_empty code)))
| no_budget code r :
    truthy_str code = false -> budget <= 0 ->
    r = Return (inl (Failure "verification code timeout")) \/ cancelled r ->
    escalation budget send_time [Polled send_time (Return code)] r
| resend_not_started code r :
    truthy_str code = false -> 0 < budget -> cancelled r ->
    escalation budget send_time [Polled send_time (Return code)] r
| resend_ended_early code rest early :
    truthy_str code = false -> 0 < budget ->
    resend_cycles (Z.to_nat budget) rest (Return (inl early)) ->
    escalation budget send_time (Polled send_time (Return code) :: rest) (Return (inl early))
| resend_raised code rest e :
    truthy_str code = false -> 0 < budget ->
    resend_cycles (Z.to_nat budget) rest (Raise e) ->
    escalation budget send_time (Polled send_time (Return code) :: rest) (Raise e)
| resend_found code rest code' :
    truthy_str code = false -> 0 < budget -> truthy_str code' = true ->
    resend_cycles (Z.to_nat budget) rest (Return (inr code')) ->
    escalation budget send_time (Polled send_time (Return code) :: rest)
      (Return (inr (str_or_empty code')))
| resend_exhausted code rest code' r :
    truthy_str code = false -> 0 < budget -> truthy_str code' = false ->
    resend_cycles (Z.to_nat budget) rest (Return (inr code')) ->
    r = Return (inl (Failure "verification code timeout after resend")) \/ cancelled r ->
    escalation budget send_time (Polled send_time (Return code) :: rest) r.

Lemma escalation_polls budget send_time evs r :
  escalation budget send_time evs r -> (polls evs <= 1 + Z.to_nat budget)%nat.
Proof.
  destruct 1; unfold polls; simpl; try lia;
    match goal with H : resend_cycles _ _ _ |- _ =>
      apply resend_cycles_polls in H; unfold polls in H; lia end.
Qed.

Lemma obtain_code_escalation send_time s :
  exists evs,
    timeline (history (snd (obtain_code env self send_time s)))
      = (timeline (history s) ++ evs)%list /\
    escalation (verification_resend_clicks self) send_time evs
      (fst (obtain_code env self send_time s)).
Proof.
  unfold obtain_code.
  destruct (_log_run "info" "📬 开始轮询邮箱获取验证码..." s) as (r & s1 & Hlog & Hr & Ht1 & _).
  destruct Hr as [-> | (msg & ->)].
  2:{ erewrite bind_Raise by exact Hlog. exists []. cbn [fst snd].
      rewrite app_nil_r. split; [exact Ht1|]. constructor. exists msg. reflexivity. }
  erewrite bind_Return by exact Hlog.
  destruct (_poll_for_verification_code_run send_time s1) as (a & s2 & Hpoll & Ht2).
  destruct a as [code|e].
  2:{ erewrite bind_Raise by exact Hpoll. exists [Polled send_time (Raise e)].
      cbn [fst snd]. split; [congruence|]. constructor. }
  erewrite bind_Return by exact Hpoll.
  destruct (truthy_str code) eqn:Hcode.
  { exists [Polled send_time (Return code)]. cbn [ret fst snd].
    split; [congruence|]. constructor. exact Hcode. }
  destruct (Z.leb_spec (verification_resend_clicks self) 0) as [Hb|Hb].
  { destruct (_log_run "error" "❌ 验证码获取超时" s2) as (r & s3 & Hlog3 & Hr & Ht3 & _).
    exists [Polled send_time (Return code)].
    destruct Hr as [-> | (msg & ->)].
    - erewrite bind_Return by exact Hlog3.
      destruct (run_quiet_total _ (_save_screenshot_quiet "code_timeout")
                  (_save_screenshot_total "code_timeout") s3) as (u & s4 & Hshot & Ht4).
      erewrite bind_Return by exact Hshot. cbn [ret fst snd].
      split; [congruence|]. apply no_budget; auto.
    - erewrite bind_Raise by exact Hlog3. cbn [fst snd].
      split; [congruence|]. apply no_budget; auto. right. exists msg. reflexivity. }
  match goal with |- context [_log env self "warning" ?m] =>
    destruct (_log_run "warning" m s2) as (r & s3 & Hlog3 & Hr & Ht3 & _) end.
  destruct Hr as [-> | (msg & ->)].
  2:{ erewrite bind_Raise by exact Hlog3. exists [Polled send_time (Return code)].
      cbn [fst snd]. split; [congruence|].
      apply resend_not_started; auto. exists msg. reflexivity. }
  erewrite bind_Return by exact Hlog3.
  destruct (resend_loop_cycles (Z.to_nat (verification_resend_clicks self)) 0 s3)
    as (rest & Hrest & Hcycles).
  destruct (resend_loop env self (Z.to_nat (verification_resend_clicks self)) 0 s3)
    as [[[early|code']|e] s4] eqn:Hloop;
    rewrite ?Hloop in Hrest, Hcycles; cbn [fst snd] in Hrest, Hcycles.
  - erewrite bind_Return by exact Hloop.
    exists (Polled send_time (Return code) :: rest). cbn [ret fst snd]. split.
    + rewrite Hrest, Ht3, Ht2, Ht1, <- app_assoc. reflexivity.
    + apply resend_ended_early; auto.
  - erewrite bind_Return by exact Hloop. cbv beta iota.
    destruct (truthy_str code') eqn:Hcode'.
    + exists (Polled send_time (Return code) :: rest). cbn [ret fst snd]. split.
      * rewrite Hrest, Ht3, Ht2, Ht1, <- app_assoc. reflexivity.
      * apply resend_found; auto.
    + destruct (_log_run "error" "❌ 多次重发后仍未收到验证码" s4)
        as (r & s5 & Hlog5 & Hr & Ht5 & _).
      exists (Polled send_time (Return code) :: rest).
      destruct Hr as [-> | (msg & ->)].
      * erewrite bind_Return by exact Hlog5.
        destruct (run_quiet_total _ (_save_screenshot_quiet "code_timeout_after_resend")
                    (_save_screenshot_total "code_timeout_after_resend") s5)
          as (u & s6 & Hshot & Ht6).
        erewrite bind_Return by exact Hshot. cbn [ret fst snd]. split.
        -- rewrite Ht6, Ht5, Hrest, Ht3, Ht2, Ht1, <- app_assoc. reflexivity.
        -- eapply resend_exhausted; eauto.
      * erewrite bind_Raise by exact Hlog5. cbn [fst snd]. split.
        -- rewrite Ht5, Hrest, Ht3, Ht2, Ht1, <- app_assoc. reflexivity.
        -- eapply resend_exhausted; eauto. right. exists msg. reflexivity.
  - erewrite bind_Raise by exact Hloop.
    exists (Polled send_time (Return code) :: rest). cbn [fst snd]. split.
    + rewrite Hrest, Ht3, Ht2, Ht1, <- app_assoc. reflexivity.
    + apply resend_raised; auto.
Qed.

(** ** Config extraction *)

Lemma bind_inv {A B : Type} (m : M A) (k : A -> M B) s b s' :
  bind m k s = (Return b, s') ->
  exists a s1, m s = (Return a, s1) /\ k a s1 = (Return b, s').
Proof.
  unfold bind. destruct (m s) as [[a|e] s1]; [|discriminate].
  intros H. exists a, s1. auto.
Qed.

(** The expiry of a cookie that carries one: the instant twelve hours before
    it, written in the +08:00 zone; the steps raise outside year 1..9999. *)
Lemma compute_expires_at_cookie (c : cookie) (expires : Z) s :
  ck_expires c = Some expires ->
  compute_expires_at env (Some c) s =
  (if representable expires && representable (expires + beijing_tz)
   then if representable (expires + beijing_tz - twelve_hours)
        then Return (render_beijing ((expires - twelve_hours) * 1000000))
        else Raise (Exception "date value out of range")
   else Raise (Exception "year is out of range"), s).
Proof.
  intros He. unfold compute_expires_at. destruct c as [n v e]. simpl in He. subst e.
  unfold bind, lift, fromtimestamp.
  destruct (representable expires && representable (expires + beijing_tz)); [|reflexivity].
  unfold add_seconds, wall_seconds. cbn [dt_epoch_us dt_utcoffset].
  rewrite Z.div_mul by lia.
  replace (expires + beijing_tz + - twelve_hours) with (expires + beijing_tz - twelve_hours)
    by lia.
  destruct (representable (expires + beijing_tz - twelve_hours)); [|reflexivity].
  unfold ret, render_beijing.
  replace (expires * 1000000 + - twelve_hours * 1000000)
    with ((expires - twelve_hours) * 1000000) by lia.
  reflexivity.
Qed.

(** Without a session cookie, or without an expiry on it: the clock plus
    twelve hours, written in the +08:00 zone. *)
Lemma compute_expires_at_default (ses_obj : option cookie) s :
  match ses_obj with Some c => ck_expires c = None | None => True end ->
  let now := env Z (history s) DatetimeNow in
  compute_expires_at env ses_obj s =
  (if representable (now / 1000000 + beijing_tz + twelve_hours)
   then Return (render_beijing (now + twelve_hours * 1000000))
   else Raise (Exception "date value out of range"),
   record_call (Made DatetimeNow now) s).
Proof.
  intros Hc now.
  assert (Hrun : compute_expires_at env ses_obj s =
                 bind (perform env DatetimeNow)
                   (fun now => bind (lift (add_seconds (mk_datetime now (Some beijing_tz))
                                             twelve_hours))
                                 (fun shifted => ret (strftime shifted))) s).
  { destruct ses_obj as [[n v [e|]]|]; simpl in Hc; try discriminate; reflexivity. }
  rewrite Hrun. erewrite bind_Return by apply perform_run. fold now.
  unfold bind, lift, add_seconds, wall_seconds. cbn [dt_epoch_us dt_utcoffset].
  destruct (representable (now / 1000000 + beijing_tz + twelve_hours)); reflexivity.
Qed.

(** What an emitted configuration holds. *)
Lemma _extract_config_success email s config s' :
  _extract_config env self email s = (Return (Success config), s') ->
  exists cookies,
    latest_cookies (history s') = Some (Return cookies) /\
    cfg_secure_c_ses config = option_map ck_value (find_cookie SES_COOKIE cookies) /\
    cfg_host_c_oses config = option_map ck_value (find_cookie OSES_COOKIE cookies) /\
    match find_cookie SES_COOKIE cookies with
    | Some {| ck_expires := Some expires |} =>
        cfg_expires_at config = render_beijing ((expires - twelve_hours) * 1000000)
    | _ =>
        exists now, latest_clock (history s') = Some now /\
                    cfg_expires_at config = render_beijing (now + twelve_hours * 1000000)
    end.
Proof.
  unfold _extract_config, try_except. intros H.
  match type of H with context [match ?body s with _ => _ end] =>
    destruct (body s) as [[r|e] s0] eqn:Hbody; [|discriminate H] end.
  injection H as -> ->.
  apply bind_inv in Hbody as (url0 & s1 & H1 & Hbody).
  apply bind_inv in Hbody as (u & s2 & H2 & Hbody).
  apply bind_inv in Hbody as (url & s3 & H3 & Hbody).
  destruct (negb (contains "cid/" url)); [discriminate Hbody|].
  apply bind_inv in Hbody as (after_cid & s4 & H4 & Hbody).
  apply bind_inv in Hbody as (csesidx & s5 & H5 & Hbody).
  apply bind_inv in Hbody as (cookies & s6 & H6 & Hbody).
  rewrite invoke_run in H6. injection H6 as Hc <-.
  apply bind_inv in Hbody as (expires_at & s7 & H7 & Hbody).
  injection Hbody as <- <-. cbn [cfg_secure_c_ses cfg_host_c_oses cfg_expires_at].
  exists cookies.
  destruct (find_cookie SES_COOKIE cookies) as [[n v [e|]]|] eqn:Hf.
  - rewrite (compute_expires_at_cookie _ e) in H7 by reflexivity.
    destruct (representable e && representable (e + beijing_tz)); [|discriminate H7].
    destruct (representable (e + beijing_tz - twelve_hours)); [|discriminate H7].
    injection H7 as <- <-. simpl. rewrite Hc. auto.
  - rewrite compute_expires_at_default in H7 by reflexivity.
    match type of H7 with context [if ?b then _ else _] => destruct b end;
      [|discriminate H7].
    injection H7 as <- <-. simpl. rewrite Hc. repeat split; auto. eexists. split; reflexivity.
  - rewrite compute_expires_at_default in H7 by exact I.
    match type of H7 with context [if ?b then _ else _] => destruct b end;
      [|discriminate H7].
    injection H7 as <- <-. simpl. rewrite Hc. repeat split; auto. eexists. split; reflexivity.
Qed.

(** A computation that adds nothing to the timeline but readings of the
    clock. *)
Definition is_clock (e : step_event) : Prop :=
  match e with Clock _ => True | _ => False end.

Definition clocks_only {A : Type} (m : M A) : Prop :=
  forall s, exists evs,
    timeline (history (snd (m s))) = (timeline (history s) ++ evs)%list /\
    Forall is_clock evs.

Lemma clocks_only_quiet {A : Type} (m : M A) : quiet m -> clocks_only m.
Proof. intros Hq s. exists []. rewrite app_nil_r. split; [apply Hq|constructor]. Qed.

Lemma clocks_only_bind {A B : Type} (m : M A) (k : A -> M B) :
  clocks_only m -> (forall a, clocks_only (k a)) -> clocks_only (bind m k).
Proof.
  intros Hm Hk s. unfold bind. destruct (Hm s) as (evs & Ht & Hc).
  destruct (m s) as [[a|e] s1]; simpl in *; [|exists evs; auto].
  destruct (Hk a s1) as (evs' & Ht' & Hc').
  exists (evs ++ evs')%list. rewrite Ht', Ht, app_assoc. split; [reflexivity|].
  apply Forall_app. auto.
Qed.

Lemma clocks_only_try_except {A : Type} (m : M A) (h : exn -> M A) :
  clocks_only m -> (forall e, clocks_only (h e)) -> clocks_only (try_except m h).
Proof.
  intros Hm Hh s. unfold try_except. destruct (Hm s) as (evs & Ht & Hc).
  destruct (m s) as [[a|e] s1]; simpl in *; [exists evs; auto|].
  destruct (Hh e s1) as (evs' & Ht' & Hc').
  exists (evs ++ evs')%list. rewrite Ht', Ht, app_assoc. split; [reflexivity|].
  apply Forall_app. auto.
Qed.

Lemma clocks_only_now : clocks_only (perform env DatetimeNow).
Proof.
  intros s. exists [Clock (env Z (history s) DatetimeNow)].
  split; [reflexivity|]. repeat constructor.
Qed.

Lemma compute_expires_at_clocks_only ses_obj : clocks_only (compute_expires_at env ses_obj).
Proof.
  unfold compute_expires_at.
  destruct ses_obj as [[n v [e|]]|];
    repeat first [ apply clocks_only_now
                 | apply clocks_only_bind; [|intros]
                 | apply clocks_only_quiet; frame ].
Qed.

Lemma _extract_config_clocks_only email : clocks_only (_extract_config env self email).
Proof.
  unfold _extract_config.
  apply clocks_only_try_except; [|intros; apply clocks_only_quiet; frame].
  apply clocks_only_bind; [apply clocks_only_quiet; frame|intros url0].
  apply clocks_only_bind;
    [apply clocks_only_quiet; destruct (negb (contains "cid/" url0)); frame;
     apply _sleep_quiet|intros u].
  apply clocks_only_bind; [apply clocks_only_quiet; frame|intros url].
  destruct (negb (contains "cid/" url)); [apply clocks_only_quiet; frame|].
  apply clocks_only_bind; [apply clocks_only_quiet; unfold second; frame|intros after_cid].
  apply clocks_only_bind;
    [apply clocks_only_quiet; destruct (contains "csesidx=" url); unfold second; frame
    |intros csesidx].
  apply clocks_only_bind; [apply clocks_only_quiet; frame|intros cookies].
  apply clocks_only_bind; [apply compute_expires_at_clocks_only|intros expires_at].
  apply clocks_only_quiet; frame.
Qed.

(** ** Steps that always return *)

Lemma total_get {A : Type} (f : state -> A) : total (get f).
Proof. intros s. eexists. reflexivity. Qed.

Lemma total_set_context b : total (set_context b).
Proof. intros s. eexists. reflexivity. Qed.

Lemma total_set_playwright b : total (set_playwright b).
Proof. intros s. eexists. reflexivity. Qed.

Lemma total_set_page b : total (set_page b).
Proof. intros s. eexists. reflexivity. Qed.

Lemma total_set_user_data_dir d : total (set_user_data_dir d).
Proof. intros s. eexists. reflexivity. Qed.

Lemma _query_total selector timeout_ms : total (_query env selector timeout_ms).
Proof. unfold _query. totality. Qed.

Lemma first_found_total timeout_ms selectors : total (first_found env timeout_ms selectors).
Proof.
  induction selectors as [|selector rest IH]; simpl; [apply total_ret|].
  apply total_bind; [apply _query_total|intros [e|]]; [apply total_ret|exact IH].
Qed.

Lemma _click_resend_code_button_total : total (_click_resend_code_button env self).
Proof.
  unfold _click_resend_code_button.
  apply total_bind; [apply _sleep_total|intros _]. totality.
Qed.

Lemma _handle_username_setup_total : total (_handle_username_setup env self).
Proof.
  unfold _handle_username_setup.
  apply total_bind; [apply total_perform|intros current_url].
  destruct (contains "auth.business.gemini.google/login" current_url); [apply total_ret|].
  apply total_bind; [apply first_found_total|intros [username_input|]]; [|apply total_ret].
  apply total_bind; [apply total_perform|intros suffix]. totality.
Qed.

Lemma _cleanup_user_data_total dir : total (_cleanup_user_data env dir).
Proof.
  unfold _cleanup_user_data. destruct dir as [d|]; [|apply total_ret].
  destruct (String.eqb d ""); totality.
Qed.

Lemma _cleanup_total : total (_cleanup env).
Proof.
  unfold _cleanup.
  repeat first [ apply total_get | apply total_set_context | apply total_set_playwright
               | apply total_set_page | apply total_set_user_data_dir
               | apply _cleanup_user_data_total
               | apply total_bind; [|intros]
               | apply total_try_except; intros
               | apply total_ret
               | match goal with |- total (if ?b then _ else _) => destruct b end ].
Qed.

End Frames.

Lemma try_finally_run {A : Type} (m : M A) (f : M unit) s r s1 :
  total f -> m s = (r, s1) -> fst (try_finally m f s) = r.
Proof.
  intros Ht Hm. unfold try_finally. rewrite Hm. destruct (Ht s1) as (u & Hu).
  destruct (f s1) as [rf s2]. simpl in Hu. subst rf. reflexivity.
Qed.

(** ** How the cancellation signal travels *)

(** A computation during which the callback raises no signal. *)
Definition unheard {A : Type} (m : M A) : Prop :=
  forall s, signalled (history (snd (m s))) = signalled (history s).

(** Started before any signal, a computation during which the signal was
    raised ends by raising it. *)
Definition heeds {A : Type} (m : M A) : Prop :=
  forall s, signalled (history s) = false ->
            signalled (history (snd (m s))) = true -> cancelled (fst (m s)).

(** Started after the signal, the computation raises it. *)
Definition alert {A : Type} (m : M A) : Prop :=
  forall s, signalled (history s) = true -> cancelled (fst (m s)).

Create HintDb flow_unheard discriminated.
Create HintDb flow_heeds discriminated.

Section Cancellation.

Variable env : environment.
Variable self : settings.

Lemma unheard_ret {A : Type} (a : A) : unheard (ret a).
Proof. intros s. reflexivity. Qed.

Lemma unheard_raise {A : Type} (e : exn) : unheard (raise (A:=A) e).
Proof. intros s. reflexivity. Qed.

Lemma unheard_lift {A : Type} (r : result A) : unheard (lift r).
Proof. intros s. reflexivity. Qed.

Lemma unheard_get {A : Type} (f : state -> A) : unheard (get f).
Proof. intros s. reflexivity. Qed.

Lemma unheard_set_context b : unheard (set_context b).
Proof. intros s. reflexivity. Qed.

Lemma unheard_set_playwright b : unheard (set_playwright b).
Proof. intros s. reflexivity. Qed.

Lemma unheard_set_page b : unheard (set_page b).
Proof. intros s. reflexivity. Qed.

Lemma unheard_set_user_data_dir d : unheard (set_user_data_dir d).
Proof. intros s. reflexivity. Qed.

Lemma unheard_bind {A B : Type} (m : M A) (k : A -> M B) :
  unheard m -> (forall a, unheard (k a)) -> unheard (bind m k).
Proof.
  intros Hm Hk s. unfold bind. specialize (Hm s).
  destruct (m s) as [[a|e] s1]; simpl in *; [|exact Hm].
  rewrite (Hk a s1). exact Hm.
Qed.

Lemma unheard_try_except {A : Type} (m : M A) (h : exn -> M A) :
  unheard m -> (forall e, unheard (h e)) -> unheard (try_except m h).
Proof.
  intros Hm Hh s. unfold try_except. specialize (Hm s).
  destruct (m s) as [[a|e] s1]; simpl in *; [exact Hm|].
  rewrite (Hh e s1). exact Hm.
Qed.

Lemma unheard_perform {T : Type} (c : call T) :
  (forall h a, signalled (Made c a :: h) = signalled h) -> unheard (perform env c).
Proof. intros Hc s. unfold perform, record_call. cbn [snd history]. apply Hc. Qed.

Lemma unheard_invoke {T : Type} (c : call (result T)) :
  (forall h a, signalled (Made c a :: h) = signalled h) -> unheard (invoke env c).
Proof. intros Hc s. unfold invoke, record_call. cbn [snd history]. apply Hc. Qed.

Ltac silence :=
  repeat first
    [ apply unheard_ret | apply unheard_raise | apply unheard_lift | apply unheard_get
    | apply unheard_set_context | apply unheard_set_playwright | apply unheard_set_page
    | apply unheard_set_user_data_dir
    | solve [auto with flow_unheard nocore]
    | apply unheard_perform; reflexivity
    | apply unheard_invoke; reflexivity
    | apply unheard_bind; [|intros]
    | apply unheard_try_except; [|intros]
    | match goal with
      | |- unheard (if ?b then _ else _) => destruct b
      | |- unheard (match ?x with _ => _ end) => destruct x
      end ].

Lemma second_unheard l : unheard (second l).
Proof. unfold second. silence. Qed.

Lemma _sleep_unheard base : unheard (_sleep env self base).
Proof. unfold _sleep. silence. Qed.

Lemma _query_unheard selector timeout_ms : unheard (_query env selector timeout_ms).
Proof. unfold _query. silence. Qed.

Lemma _query_all_unheard selector : unheard (_query_all env selector).
Proof. unfold _query_all. silence. Qed.

Lemma _save_screenshot_unheard name : unheard (_save_screenshot env name).
Proof. unfold _save_screenshot. silence. Qed.

Lemma button_text_unheard post btn : unheard (button_text env post btn).
Proof. unfold button_text. silence. Qed.

#[local] Hint Resolve second_unheard _sleep_unheard _query_unheard _query_all_unheard
  _save_screenshot_unheard button_text_unheard : flow_unheard.

Lemma first_found_unheard timeout_ms selectors : unheard (first_found env timeout_ms selectors).
Proof. induction selectors as [|selector rest IH]; simpl; silence. Qed.

#[local] Hint Resolve first_found_unheard : flow_unheard.

Lemma code_input_rounds_unheard rounds : unheard (code_input_rounds env self rounds).
Proof. induction rounds as [|k IH]; simpl; silence. Qed.

Lemma _wait_for_code_input_unheard timeout : unheard (_wait_for_code_input env self timeout).
Proof. unfold _wait_for_code_input. apply code_input_rounds_unheard. Qed.

Lemma _poll_for_verification_code_unheard since_time :
  unheard (_poll_for_verification_code env self since_time).
Proof. unfold _poll_for_verification_code. silence. Qed.

Lemma type_chars_unheard element chars : unheard (type_chars env element chars).
Proof. induction chars as [|c rest IH]; simpl; silence. Qed.

Lemma mouse_moves_unheard n : unheard (mouse_moves env n).
Proof. induction n as [|k IH]; simpl; silence. Qed.

#[local] Hint Resolve _wait_for_code_input_unheard _poll_for_verification_code_unheard
  type_chars_unheard mouse_moves_unheard : flow_unheard.

Lemma _simulate_human_behavior_unheard : unheard (_simulate_human_behavior env).
Proof. unfold _simulate_human_behavior. silence. Qed.

Lemma find_username_submit_unheard buttons : unheard (find_username_submit env buttons).
Proof. induction buttons as [|btn rest IH]; simpl; silence. Qed.

Lemma find_submit_button_unheard buttons : unheard (find_submit_button env buttons).
Proof. induction buttons as [|btn rest IH]; simpl; silence. Qed.

Lemma wait_redirect_unheard rounds current_url :
  unheard (wait_redirect env self rounds current_url).
Proof. revert current_url. induction rounds as [|k IH]; intros current_url; simpl; silence. Qed.

Lemma _handle_agreement_page_unheard : unheard (_handle_agreement_page env self).
Proof. unfold _handle_agreement_page. silence. Qed.

Lemma compute_expires_at_unheard ses_obj : unheard (compute_expires_at env ses_obj).
Proof. unfold compute_expires_at. destruct ses_obj as [[n v [e|]]|]; silence. Qed.

#[local] Hint Resolve _simulate_human_behavior_unheard find_username_submit_unheard
  find_submit_button_unheard wait_redirect_unheard _handle_agreement_page_unheard
  compute_expires_at_unheard : flow_unheard.

Lemma _extract_config_unheard email : unheard (_extract_config env self email).
Proof. unfold _extract_config. silence. Qed.

Lemma _cleanup_user_data_unheard dir : unheard (_cleanup_user_data env dir).
Proof. unfold _cleanup_user_data. destruct dir as [d|]; silence. Qed.

#[local] Hint Resolve _extract_config_unheard _cleanup_user_data_unheard : flow_unheard.

Lemma _cleanup_unheard : unheard (_cleanup env).
Proof. unfold _cleanup. silence. Qed.

(** *** Computations that heed the signal *)

Lemma heeds_unheard {A : Type} (m : M A) : unheard m -> heeds m.
Proof. intros Hm s Hs Hafter. rewrite Hm, Hs in Hafter. discriminate. Qed.

Lemma heeds_bind {A B : Type} (m : M A) (k : A -> M B) :
  heeds m -> (forall a, heeds (k a)) -> heeds (bind m k).
Proof.
  intros Hm Hk s Hs Hafter. unfold bind in *. specialize (Hm s Hs).
  destruct (m s) as [[a|e] s1]; simpl in *.
  - destruct (signalled (history s1)) eqn:E.
    + destruct (Hm eq_refl) as (msg & H). discriminate.
    + apply (Hk a s1 E Hafter).
  - destruct (Hm Hafter) as (msg & H). injection H as ->. exists msg. reflexivity.
Qed.

Lemma heeds_try_except {A : Type} (m : M A) (h : exn -> M A) :
  heeds m -> (forall e, heeds (h e)) -> (forall e, alert (h e)) -> heeds (try_except m h).
Proof.
  intros Hm Hh Ha s Hs Hafter. unfold try_except in *. specialize (Hm s Hs).
  destruct (m s) as [[a|e] s1]; simpl in *.
  - destruct (Hm Hafter) as (msg & H). discriminate.
  - destruct (signalled (history s1)) eqn:E; [apply (Ha e s1 E)|apply (Hh e s1 E Hafter)].
Qed.

(** After a step that always returns, whatever it did with the signal, a
    continuation that is alert raises it. *)
Lemma heeds_after_lenient {A B : Type} (m : M A) (k : A -> M B) :
  total m -> (forall a, heeds (k a)) -> (forall a, alert (k a)) -> heeds (bind m k).
Proof.
  intros Ht Hk Ha s Hs Hafter. unfold bind in *. destruct (Ht s) as (a & Hr).
  destruct (m s) as [r s1]; simpl in *; subst r.
  destruct (signalled (history s1)) eqn:E; [apply (Ha a s1 E)|apply (Hk a s1 E Hafter)].
Qed.

Lemma alert_bind {A B : Type} (m : M A) (k : A -> M B) : alert m -> alert (bind m k).
Proof.
  intros Hm s Hs. unfold bind. destruct (Hm s Hs) as (msg & H).
  destruct (m s) as [r s1]; simpl in H; subst r. exists msg. reflexivity.
Qed.

Lemma heeds_log level message : heeds (_log env self level message).
Proof.
  unfold _log. destruct (has_log_callback self); [|apply heeds_unheard, unheard_ret].
  intros s Hs Hafter. unfold try_except_reraising_cancel, invoke in *. simpl in *.
  destruct (env (result unit) (history s) (LogCallback level message)) as [u|[m|m]];
    simpl in *.
  - rewrite Hs in Hafter. discriminate.
  - exists m. reflexivity.
  - rewrite Hs in Hafter. discriminate.
Qed.

Lemma heeds_callback level message : heeds (invoke env (LogCallback level message)).
Proof.
  intros s Hs Hafter. unfold invoke in *. simpl in *.
  destruct (env (result unit) (history s) (LogCallback level message)) as [u|[m|m]];
    simpl in *.
  - rewrite Hs in Hafter. discriminate.
  - exists m. reflexivity.
  - rewrite Hs in Hafter. discriminate.
Qed.

Hypothesis Hpersistent : persistent env.

Lemma alert_callback level message : alert (invoke env (LogCallback level message)).
Proof.
  intros s Hs. unfold invoke.
  destruct (Hpersistent (history s) level message Hs) as (msg & E). rewrite E. simpl.
  exists msg. reflexivity.
Qed.

Hypothesis Hcallback : has_log_callback self = true.

Lemma alert_log level message : alert (_log env self level message).
Proof.
  intros s Hs. unfold _log. rewrite Hcallback.
  unfold try_except_reraising_cancel, invoke.
  destruct (Hpersistent (history s) level message Hs) as (msg & E). rewrite E. simpl.
  exists msg. reflexivity.
Qed.

Ltac alerting :=
  solve [ repeat first
            [ apply alert_log
            | apply alert_callback
            | apply alert_bind
            | match goal with
              | |- alert (if ?b then _ else _) => destruct b
              | |- alert (match ?x with _ => _ end) => destruct x
              end ] ].

Ltac returning :=
  solve [ repeat first
            [ apply total_ret | apply total_perform | apply _sleep_total
            | apply _click_resend_code_button_total | apply _handle_username_setup_total
            | apply total_bind; [|intros]
            | match goal with
              | |- total (if ?b then _ else _) => destruct b
              end ] ].

Ltac heed :=
  repeat first
    [ solve [apply heeds_unheard; silence]
    | apply heeds_log
    | apply heeds_callback
    | solve [auto with flow_heeds nocore]
    | apply heeds_after_lenient; [returning | intros | intros; alerting]
    | apply heeds_bind; [|intros]
    | apply heeds_try_except; [ | intros | intros; alerting]
    | match goal with
      | |- heeds (if ?b then _ else _) => destruct b
      | |- heeds (match ?x with _ => _ end) => destruct x
      end ].

Lemma _create_context_heeds : heeds (_create_context env self).
Proof. unfold _create_context. heed. Qed.

Lemma warmup_visits_heeds urls : heeds (warmup_visits env self urls).
Proof. induction urls as [|url rest IH]; simpl; heed. Qed.

Lemma _run_warmup_heeds : heeds (_run_warmup env self).
Proof. apply warmup_visits_heeds. Qed.

Lemma open_login_link_heeds email : heeds (open_login_link env self email).
Proof. unfold open_login_link. heed. Qed.

Lemma send_code_scan_heeds buttons : heeds (send_code_scan env self buttons).
Proof. induction buttons as [|btn rest IH]; simpl; heed. Qed.

#[local] Hint Resolve _create_context_heeds _run_warmup_heeds open_login_link_heeds
  send_code_scan_heeds : flow_heeds.

Lemma _click_send_code_button_heeds : heeds (_click_send_code_button env self).
Proof. unfold _click_send_code_button. heed. Qed.

Lemma _simulate_human_input_heeds element text :
  heeds (_simulate_human_input env self element text).
Proof. unfold _simulate_human_input. heed. Qed.

Lemma resend_loop_heeds todo attempt : heeds (resend_loop env self todo attempt).
Proof. revert attempt. induction todo as [|k IH]; intros attempt; simpl; heed. Qed.

#[local] Hint Resolve _click_send_code_button_heeds _simulate_human_input_heeds
  resend_loop_heeds : flow_heeds.

Lemma obtain_code_heeds send_time : heeds (obtain_code env self send_time).
Proof. unfold obtain_code. heed. Qed.

Lemma submit_attempts_heeds todo attempt code_input current_url :
  heeds (submit_attempts env self todo attempt code_input current_url).
Proof.
  revert attempt current_url.
  induction todo as [|k IH]; intros attempt current_url; simpl; heed.
Qed.

Lemma business_params_rounds_heeds rounds : heeds (business_params_rounds env self rounds).
Proof. induction rounds as [|k IH]; simpl; heed. Qed.

Lemma _wait_for_business_params_heeds timeout :
  heeds (_wait_for_business_params env self timeout).
Proof. apply business_params_rounds_heeds. Qed.

#[local] Hint Resolve obtain_code_heeds submit_attempts_heeds
  _wait_for_business_params_heeds : flow_heeds.

Lemma await_params_and_extract_heeds email : heeds (await_params_and_extract env self email).
Proof. unfold await_params_and_extract. cbv zeta. heed. Qed.

Lemma await_params_and_extract_alert email : alert (await_params_and_extract env self email).
Proof. unfold await_params_and_extract. cbv zeta. alerting. Qed.

#[local] Hint Resolve await_params_and_extract_heeds : flow_heeds.

Lemma submit_code_and_extract_heeds email code :
  heeds (submit_code_and_extract env self email code).
Proof.
  unfold submit_code_and_extract. heed.
  all: apply await_params_and_extract_alert.
Qed.

#[local] Hint Resolve submit_code_and_extract_heeds : flow_heeds.

Lemma request_code_and_verify_heeds email send_time :
  heeds (request_code_and_verify env self email send_time).
Proof. unfold request_code_and_verify. heed. Qed.

#[local] Hint Resolve request_code_and_verify_heeds : flow_heeds.

Lemma _run_flow_heeds email : heeds (_run_flow env self email).
Proof. unfold _run_flow. heed. Qed.

#[local] Hint Resolve _run_flow_heeds : flow_heeds.

Lemma login_body_heeds email : heeds (login_body env self email).
Proof. unfold login_body. heed. Qed.

(** A signal raised at any log line of an attempt comes out of
    [login_and_extract]. *)
Lemma login_and_extract_heeds email : heeds (login_and_extract env self email).
Proof.
  intros s Hs Hafter. unfold login_and_extract, try_finally in *.
  pose proof (login_body_heeds email s Hs) as Hbody.
  unfold try_except_reraising_cancel in *.
  destruct (login_body env self email s) as [[r|[m|m]] s1]; simpl in Hbody.
  - destruct (_cleanup_total env s1) as (u & Hu).
    pose proof (_cleanup_unheard s1) as Hq.
    destruct (_cleanup env s1) as [rc s2]; simpl in *; subst rc; simpl in *.
    rewrite Hq in Hafter. destruct (Hbody Hafter) as (msg & H). discriminate.
  - destruct (_cleanup_total env s1) as (u & Hu).
    destruct (_cleanup env s1) as [rc s2]; simpl in *; subst rc; simpl in *.
    exists m. reflexivity.
  - assert (Hclean : signalled (history s1) = false).
    { destruct (signalled (history s1)); [|reflexivity].
      destruct (Hbody eq_refl) as (msg & H). discriminate. }
    assert (Hh : heeds (_log env self "error" ("automation error: " ++ str_exn (Exception m)) ;;
                        ret (Failure (str_exn (Exception m))))) by heed.
    specialize (Hh s1 Hclean).
    destruct ((_log env self "error" ("automation error: " ++ str_exn (Exception m)) ;;
               ret (Failure (str_exn (Exception m)))) s1) as [rh s2].
    destruct (_cleanup_total env s2) as (u & Hu).
    pose proof (_cleanup_unheard s2) as Hq.
    destruct (_cleanup env s2) as [rc s3]; simpl in *; subst rc; simpl in *.
    rewrite Hq in Hafter. apply Hh. exact Hafter.
Qed.

(** ... and, through the handler of [_register_one], reaches the worker. *)
Lemma register_login_heeds (login : M flow_result) :
  heeds login -> heeds (register_login env login).
Proof. intros Hlogin. unfold register_login. heed. Qed.

End Cancellation.


End AutomationFacts.

Module AutomationClaims.
Import Automation AutomationFacts Samples.

(** C7: step 5 polls once from [send_time]; when that poll yields no code
    and the resend budget is positive, it goes through at most that many
    extra cycles, each of which reads the clock anew, clicks a button whose
    text is a resend label and polls from the time just read; the first code
    ends it, and a budget used up without a code ends the attempt with the
    failure "verification code timeout after resend" (with "verification code
    timeout" when the budget is zero). *)
Theorem resend_escalation_is_bounded
    (env : environment) (self : settings) (send_time : datetime) (s : state) :
  exists evs,
    timeline (history (snd (obtain_code env self send_time s)))
      = (timeline (history s) ++ evs)%list /\
    escalation (verification_resend_clicks self) send_time evs
      (fst (obtain_code env self send_time s)) /\
    (polls evs <= 1 + Z.to_nat (verification_resend_clicks self))%nat.
Proof.
  destruct (obtain_code_escalation env self send_time s) as (evs & Ht & He).
  exists evs. split; [exact Ht|]. split; [exact He|].
  eapply escalation_polls. exact He.
Qed.

Lemma resend_escalation_witness :
  let send_time := mk_datetime 1700000000000000 None in
  let out := obtain_code (stage scene_code_at_third_poll) sample_settings send_time
               initial_state in
  fst out = Return (inr "123456") /\
  timeline (history (snd out)) =
    [ Polled send_time (Return None);
      Clock 1700000000000003; Clicked 8%nat (Some " Resend code ");
      Polled (mk_datetime 1700000000000003 None) (Return None);
      Clock 1700000000000015; Clicked 8%nat (Some " Resend code ");
      Polled (mk_datetime 1700000000000015 None) (Return (Some "123456")) ] /\
  exists evs,
    timeline (history (snd out)) = evs /\
    escalation 4 send_time evs (fst out) /\ (polls evs <= 5)%nat.
Proof.
  cbv zeta. split; [vm_compute; reflexivity|]. split; [vm_compute; reflexivity|].
  destruct (resend_escalation_is_bounded (stage scene_code_at_third_poll) sample_settings
              (mk_datetime 1700000000000000 None) initial_state) as (evs & Ht & He & Hp).
  exists evs. split; [exact Ht|]. split; [exact He|exact Hp].
Defined.

(** C9: the [expires_at] of an emitted configuration is, when the first
    [__Secure-C_SES] cookie of the context carries an expiry, the instant
    twelve hours before that expiry written in the fixed zone +08:00, and
    otherwise (no such cookie, or none with an expiry) the clock read at that
    point plus twelve hours, written in the same zone.  Both values are
    produced whenever they fall in the years 1 to 9999. *)
Theorem expires_at_follows_session_cookie
    (env : environment) (self : settings) (email : string) (s : state) :
  (forall config,
     fst (_extract_config env self email s) = Return (Success config) ->
     exists cookies,
       latest_cookies (history (snd (_extract_config env self email s)))
         = Some (Return cookies) /\
       match find_cookie SES_COOKIE cookies with
       | Some {| ck_expires := Some expires |} =>
           cfg_expires_at config = render_beijing ((expires - 12 * 3600) * 1000000)
       | _ =>
           exists now,
             latest_clock (history (snd (_extract_config env self email s))) = Some now /\
             cfg_expires_at config = render_beijing (now + 12 * 3600 * 1000000)
       end) /\
  (forall c expires,
     ck_expires c = Some expires ->
     MIN_WALL + 4 * 3600 <= expires <= MAX_WALL - 8 * 3600 ->
     compute_expires_at env (Some c) s
       = (Return (render_beijing ((expires - 12 * 3600) * 1000000)), s)) /\
  (forall ses_obj,
     match ses_obj with Some c => ck_expires c = None | None => True end ->
     let now := env Z (history s) DatetimeNow in
     MIN_WALL <= now / 1000000 <= MAX_WALL - 20 * 3600 ->
     fst (compute_expires_at env ses_obj s)
       = Return (render_beijing (now + 12 * 3600 * 1000000))).
Proof.
  split; [|split].
  - intros config H.
    destruct (_extract_config env self email s) as [r s'] eqn:Hrun. simpl in H. subst r.
    destruct (_extract_config_success env self email s config s' Hrun)
      as (cookies & Hc & _ & _ & He).
    exists cookies. split; [exact Hc|]. exact He.
  - intros c expires Hc Hrange.
    rewrite (compute_expires_at_cookie env c expires s Hc).
    unfold representable, beijing_tz, twelve_hours, MIN_WALL, MAX_WALL in *.
    repeat match goal with
           | |- context [?a <=? ?b] =>
               let E := fresh in destruct (Z.leb_spec a b) as [E|E]; [|exfalso; lia]
           end.
    reflexivity.
  - intros ses_obj Hc now Hrange.
    rewrite (compute_expires_at_default env ses_obj s Hc). fold now.
    unfold representable, beijing_tz, twelve_hours, MIN_WALL, MAX_WALL in *.
    repeat match goal with
           | |- context [?a <=? ?b] =>
               let E := fresh in destruct (Z.leb_spec a b) as [E|E]; [|exfalso; lia]
           end.
    reflexivity.
Qed.

Lemma expires_at_witness :
  let email := "user@example.com" in
  let with_expiry :=
    _extract_config (stage (scene_signed_in (Some 1700000000))) sample_settings email
      initial_state in
  let without_expiry :=
    _extract_config (stage (scene_signed_in None)) sample_settings email initial_state in
  (exists config, fst with_expiry = Return (Success config) /\
                  cfg_expires_at config = "2023-11-14 18:13:20") /\
  (exists config, fst without_expiry = Return (Success config) /\
                  cfg_expires_at config = "2023-11-15 18:13:20") /\
  compute_expires_at (stage (scene_signed_in None))
    (Some {| ck_name := SES_COOKIE; ck_value := "CSE.AbCdEf"; ck_expires := Some 1700000000 |})
    initial_state = (Return "2023-11-14 18:13:20", initial_state).
Proof.
  cbv zeta.
  pose proof (expires_at_follows_session_cookie (stage (scene_signed_in (Some 1700000000)))
                sample_settings "user@example.com" initial_state) as (Hsome & _ & _).
  pose proof (expires_at_follows_session_cookie (stage (scene_signed_in None))
                sample_settings "user@example.com" initial_state) as (Hnone & Hcookie & _).
  split; [|split].
  - eexists. split; [vm_compute; reflexivity|].
    match goal with |- cfg_expires_at ?c = _ =>
      destruct (Hsome c ltac:(vm_compute; reflexivity)) as (cookies & Hc & He) end.
    vm_compute in Hc. injection Hc as <-. exact He.
  - eexists. split; [vm_compute; reflexivity|].
    match goal with |- cfg_expires_at ?c = _ =>
      destruct (Hnone c ltac:(vm_compute; reflexivity)) as (cookies & Hc & He) end.
    vm_compute in Hc. injection Hc as <-.
    destruct He as (now & Hn & He). vm_compute in Hn. injection Hn as <-. exact He.
  - apply (Hcookie (mk_cookie SES_COOKIE "CSE.AbCdEf" (Some 1700000000)) 1700000000 eq_refl).
    unfold MIN_WALL, MAX_WALL. lia.
Defined.

(** C2: after the deep link the flow reads the address once; it goes
    straight to config extraction exactly when the address contains
    "business.gemini.google" and at least one of "csesidx=" and "/cid/" (one
    of the two is enough), and then nothing is clicked and no mailbox is
    polled any more; otherwise it goes on to look for the send-code button. *)
Theorem shortcut_when_either_parameter
    (env : environment) (self : settings) (email : string) (s s1 : state)
    (send_time : datetime) :
  open_login_link env self email s = (Return send_time, s1) ->
  let current_url := env string (history s1) PageUrl in
  let s2 := record_call (Made PageUrl current_url) s1 in
  let report := _log env self "info" ("📍 当前 URL: " ++ current_url) in
  (logged_in_already current_url = true <->
     contains "business.gemini.google" current_url = true /\
     (contains "csesidx=" current_url = true \/ contains "/cid/" current_url = true)) /\
  (logged_in_already current_url = true ->
     _run_flow env self email s =
       (report ;; _log env self "info" "✅ 检测到已登录，直接提取配置" ;;
        _extract_config env self email) s2 /\
     exists evs,
       timeline (history (snd (_run_flow env self email s)))
         = (timeline (history s1) ++ evs)%list /\
       Forall is_clock evs) /\
  (logged_in_already current_url = false ->
     _run_flow env self email s =
       (report ;; request_code_and_verify env self email send_time) s2).
Proof.
  intros Hopen current_url s2 report.
  assert (Hrun : _run_flow env self email s =
                 (report ;;
                  if logged_in_already current_url
                  then _log env self "info" "✅ 检测到已登录，直接提取配置" ;;
                       _extract_config env self email
                  else request_code_and_verify env self email send_time) s2).
  { unfold _run_flow. erewrite bind_Return by exact Hopen.
    erewrite bind_Return by apply perform_run. reflexivity. }
  split; [|split].
  - unfold logged_in_already. rewrite andb_true_iff, orb_true_iff. tauto.
  - intros Hyes. rewrite Hrun, Hyes. split; [reflexivity|].
    assert (Hc : clocks_only
                   (report ;; _log env self "info" "✅ 检测到已登录，直接提取配置" ;;
                    _extract_config env self email)).
    { apply clocks_only_bind; [apply clocks_only_quiet, _log_quiet|intros _].
      apply clocks_only_bind; [apply clocks_only_quiet, _log_quiet|intros _].
      apply _extract_config_clocks_only. }
    destruct (Hc s2) as (evs & Ht & Hclock). exists evs. split; [|exact Hclock].
    rewrite Ht. unfold s2, record_call. cbn [history timeline].
    change (events_of (history s1) (Made PageUrl current_url)) with (@nil step_event).
    rewrite app_nil_r. reflexivity.
  - intros Hno. rewrite Hrun, Hno. reflexivity.
Qed.

Lemma shortcut_witness :
  let env := stage (scene_signed_in (Some 1700000000)) in
  let email := "user@example.com" in
  let run := _run_flow env sample_settings email initial_state in
  logged_in_already "https://business.gemini.google/home/cid/0f1c2d3e?csesidx=206226908" = true /\
  fst run =
    Return (Success {| cfg_id := email; cfg_csesidx := "206226908";
                       cfg_config_id := "0f1c2d3e";
                       cfg_secure_c_ses := Some "CSE.AbCdEf";
                       cfg_host_c_oses := Some "COS.GhIjKl";
                       cfg_expires_at := "2023-11-14 18:13:20" |}) /\
  exists evs,
    timeline (history (snd run)) = (Clock 1700000000250000 :: evs)%list /\
    Forall is_clock evs.
Proof.
  cbv zeta.
  set (env := stage (scene_signed_in (Some 1700000000))).
  set (email := "user@example.com").
  assert (Hopen : open_login_link env sample_settings email initial_state =
                  (Return (mk_datetime 1700000000250000 None),
                   snd (open_login_link env sample_settings email initial_state))).
  { rewrite (surjective_pairing (open_login_link env sample_settings email initial_state)) at 1.
    apply (f_equal (fun r => (r, _))). vm_compute. reflexivity. }
  destruct (shortcut_when_either_parameter env sample_settings email initial_state _ _ Hopen)
    as (_ & Hyes & _).
  split; [vm_compute; reflexivity|].
  split; [vm_compute; reflexivity|].
  destruct (Hyes ltac:(vm_compute; reflexivity)) as (_ & evs & Ht & Hc).
  exists evs. split; [|exact Hc]. rewrite Ht.
  replace (timeline (history (snd (open_login_link env sample_settings email initial_state))))
    with [Clock 1700000000250000] by (vm_compute; reflexivity).
  reflexivity.
Defined.

(** The address carries "csesidx=" but no "/cid/": the flow still takes the
    shortcut.  It announces the direct extraction, never looks for the
    send-code button, and ends with the failure of the extraction. *)
Lemma shortcut_without_client_id_counterexample :
  let url := "https://business.gemini.google/home?csesidx=206226908" in
  let run := _run_flow (stage scene_session_index_only) sample_settings "user@example.com"
               initial_state in
  contains "csesidx=" url = true /\ contains "/cid/" url = false /\
  logged_in_already url = true /\
  fst run = Return (Failure "cid not found") /\
  logged (history (snd run)) "✅ 检测到已登录，直接提取配置" = true /\
  logged (history (snd run)) "🔘 正在查找并点击发送验证码按钮..." = false /\
  timeline (history (snd run)) = [Clock 1700000000250000].
Proof. cbv zeta. repeat split; vm_compute; reflexivity. Qed.


End AutomationClaims.

(* ===================================================================== *)
(** * Further properties of the worker loop *)
(* ===================================================================== *)

Module RegisterExtras.
Import Register RegisterFacts Samples.

(** The counters agree with the recorded results. *)
Definition consistent (t : RegisterTask) : Prop :=
  progress t = Z.of_nat (length (results t)) /\
  success_count t = Z.of_nat (length (List.filter dict_success (results t))) /\
  fail_count t = Z.of_nat (length (List.filter (fun d => negb (dict_success d)) (results t))).

Definition task_of (out : loop_exit) : RegisterTask :=
  match out with Returned t => t | FellThrough t => t end.

(** What one pass through the loop body does to the counters. *)
Lemma iteration_counters env cfg idx t :
  match iteration env cfg idx t with
  | Stop t' _ =>
      status t' = CANCELLED /\ finished_at t' = Some (time_time env) /\
      results t' = results t /\ progress t' = progress t /\
      success_count t' = success_count t /\ fail_count t' = fail_count t
  | Next t' =>
      let d := recorded (ar_outcome (register_one env idx)) in
      results t' = (results t ++ [d])%list /\ progress t' = progress t + 1 /\
      success_count t' = success_count t + (if dict_success d then 1 else 0) /\
      fail_count t' = fail_count t + (if dict_success d then 0 else 1) /\
      status t' = status t /\ finished_at t' = finished_at t
  end.
Proof.
  unfold iteration. destruct (cancel_requested t); [simpl; auto 10|].
  set (t1 := interfere _ _).
  assert (Hfields : results t1 = results t /\ progress t1 = progress t /\
                    success_count t1 = success_count t /\ fail_count t1 = fail_count t /\
                    status t1 = status t /\ finished_at t1 = finished_at t).
  { subst t1. destruct (ar_cancel (register_one env idx)); simpl; auto 10. }
  destruct Hfields as (Hr & Hp & Hs & Hf & Hst & Hfin).
  assert (Hgo : forall r,
            let d := recorded r in
            let t2 := between_accounts env cfg idx
                        (if dict_success d
                         then _append_log "info" (LogSuccess (dict_get d "email" "未知"))
                                (incr_success_count (record_result d t1))
                         else _append_log "error" (LogFailure (dict_get d "error" "未知错误"))
                                (incr_fail_count (record_result d t1))) in
            results t2 = (results t ++ [d])%list /\ progress t2 = progress t + 1 /\
            success_count t2 = success_count t + (if dict_success d then 1 else 0) /\
            fail_count t2 = fail_count t + (if dict_success d then 0 else 1) /\
            status t2 = status t /\ finished_at t2 = finished_at t).
  { intros r d t2. subst t2.
    match goal with |- context [between_accounts env cfg idx ?x] =>
      pose proof (between_accounts_keeps env cfg idx x) as K; set (t3 := x) in * end.
    simpl in K. destruct K as (Kp & Kr & Kf & Ks & _ & Kst & Kfin & _).
    rewrite Kp, Kr, Kf, Ks, Kst, Kfin. subst t3.
    destruct (dict_success d); simpl; rewrite ?Hr, ?Hp, ?Hs, ?Hf, ?Hst, ?Hfin;
      repeat split; auto; lia. }
  destruct (ar_outcome (register_one env idx)) as [r|[m|m]] eqn:Ho.
  - apply (Hgo (Return r)).
  - simpl. rewrite Hr, Hp, Hs, Hf. auto 10.
  - apply (Hgo (Raise (Exception m))).
Qed.

Lemma consistent_record (t t' : RegisterTask) (d : attempt_dict) :
  consistent t ->
  results t' = (results t ++ [d])%list -> progress t' = progress t + 1 ->
  success_count t' = success_count t + (if dict_success d then 1 else 0) ->
  fail_count t' = fail_count t + (if dict_success d then 0 else 1) ->
  consistent t'.
Proof.
  intros (Hp & Hs & Hf) Hr Hp' Hs' Hf'. unfold consistent.
  rewrite Hr, Hp', Hs', Hf', !List.filter_app, !length_app. simpl.
  destruct (dict_success d); simpl; lia.
Qed.

(** The loop, for every environment: [k] results were added, the counters
    follow them, and a [return] inside the loop has set CANCELLED and the
    finishing time. *)
Lemma register_loop_counters env cfg todo idx t :
  consistent t ->
  exists k : nat,
    let out := fst (register_loop env cfg todo idx t) in
    let started := snd (register_loop env cfg todo idx t) in
    (k <= todo)%nat /\ consistent (task_of out) /\
    length (results (task_of out)) = (length (results t) + k)%nat /\
    (started = seq idx k \/ started = seq idx (S k) /\ (k < todo)%nat) /\
    match out with
    | FellThrough t' =>
        k = todo /\ started = seq idx k /\ status t' = status t /\
        finished_at t' = finished_at t
    | Returned t' => status t' = CANCELLED /\ finished_at t' = Some (time_time env)
    end.
Proof.
  revert idx t. induction todo as [|todo IH]; intros idx t Hc.
  - exists 0%nat. simpl. rewrite Nat.add_0_r. auto 10.
  - simpl. pose proof (iteration_counters env cfg idx t) as Hit.
    destruct (iteration env cfg idx t) as [t1 st|t1].
    + destruct Hit as (Hst & Hfin & Hr & Hp & Hs & Hf).
      exists 0%nat. simpl. rewrite Nat.add_0_r, Hr.
      split; [lia|]. split.
      { destruct Hc as (C1 & C2 & C3). unfold consistent. rewrite Hr, Hp, Hs, Hf. auto. }
      split; [reflexivity|]. split; [|auto].
      destruct st; [right; split; [reflexivity|lia]|left; reflexivity].
    + simpl in Hit. destruct Hit as (Hr & Hp & Hs & Hf & Hst & Hfin).
      assert (Hc1 : consistent t1) by (eapply consistent_record; eauto).
      destruct (IH (S idx) t1 Hc1) as (k & Hk & Hck & Hlen & Hstarted & Hout).
      destruct (register_loop env cfg todo (S idx) t1) as [out started].
      simpl in *. exists (S k).
      split; [lia|]. split; [exact Hck|]. split.
      { rewrite Hlen, Hr, length_app. simpl. lia. }
      split.
      { destruct Hstarted as [->|(-> & Hlt)]; [left; reflexivity|right; split; [reflexivity|lia]]. }
      destruct out as [t'|t']; [exact Hout|].
      destruct Hout as (-> & -> & Hs' & Hf'). rewrite Hs', Hf'. auto.
Qed.

(** X1: whoever cancels and whatever the attempts do, a run that starts from
    zeroed counters ends with [progress = len(results) = success_count +
    fail_count], with [success_count] the number of recorded results whose
    "success" is truthy, with [progress <= count], with a finishing time, and
    in one of SUCCESS, FAILED and CANCELLED.  SUCCESS and FAILED are reported
    only when every one of the [count] attempts was recorded, SUCCESS only
    without a failed one; the attempts started are the first [progress], or
    one more when the last was interrupted by the cancellation signal. *)
Theorem run_ends_with_consistent_counters
    (env : run_env) (cfg : Config) (t : RegisterTask) :
  progress t = 0 -> results t = [] -> success_count t = 0 -> fail_count t = 0 ->
  0 <= count t ->
  let t' := fst (_run_register_async env cfg t) in
  let started := snd (_run_register_async env cfg t) in
  progress t' = Z.of_nat (length (results t')) /\
  success_count t' + fail_count t' = progress t' /\
  success_count t' = Z.of_nat (length (List.filter dict_success (results t'))) /\
  progress t' <= count t /\
  finished_at t' = Some (time_time env) /\
  (status t' = SUCCESS \/ status t' = FAILED \/ status t' = CANCELLED) /\
  (status t' = SUCCESS ->
     progress t' = count t /\ fail_count t' = 0 /\ forallb dict_success (results t') = true) /\
  (status t' = FAILED -> progress t' = count t /\ 0 < fail_count t') /\
  (started = seq 0 (length (results t')) \/
   started = seq 0 (S (length (results t'))) /\ status t' = CANCELLED).
Proof.
  intros Hp Hr Hs Hf Hn. unfold _run_register_async.
  set (t1 := _append_log "info" (LogStarted (count t)) t).
  change (count t1) with (count t).
  assert (Hc1 : consistent t1).
  { unfold consistent. subst t1. simpl. rewrite Hp, Hr, Hs, Hf. auto. }
  destruct (register_loop_counters env cfg (Z.to_nat (count t)) 0 t1 Hc1)
    as (k & Hk & Hck & Hlen & Hstarted & Hout).
  destruct (register_loop env cfg (Z.to_nat (count t)) 0 t1) as [out started].
  simpl in Hk, Hck, Hlen, Hstarted, Hout.
  assert (Hlen1 : length (results t1) = 0%nat) by (subst t1; simpl; rewrite Hr; reflexivity).
  change (length (results t)) with (length (results t1)) in Hlen.
  rewrite Hlen1 in Hlen. simpl in Hlen.
  assert (Hsum : forall l : list attempt_dict,
            Z.of_nat (length (List.filter dict_success l)) +
            Z.of_nat (length (List.filter (fun d => negb (dict_success d)) l)) =
            Z.of_nat (length l)).
  { induction l as [|d l IH]; simpl; [reflexivity|].
    destruct (dict_success d); simpl; lia. }
  destruct out as [t2|t2]; simpl in Hck, Hlen |- *.
  - destruct Hout as (Hst & Hfin). destruct Hck as (C1 & C2 & C3).
    pose proof (Hsum (results t2)) as Hs2.
    rewrite Hst, Hfin.
    repeat split; auto; try lia; try discriminate.
    all: destruct Hstarted as [->|(-> & _)]; rewrite Hlen; auto.
  - destruct Hout as (-> & -> & Hst & Hfin). destruct Hck as (C1 & C2 & C3).
    pose proof (Hsum (results t2)) as Hs2.
    assert (Hfail : (fail_count t2 =? 0) = forallb dict_success (results t2)).
    { rewrite C3. apply no_failures_iff. }
    destruct (cancel_requested t2); simpl.
    + repeat split; auto; try lia; try discriminate;
        try (left; rewrite Hlen; reflexivity).
    + destruct (Z.eqb_spec (fail_count t2) 0) as [Hz|Hz]; simpl;
        repeat split; auto; try lia; try discriminate;
        try (left; rewrite Hlen; reflexivity).
Qed.

Lemma run_ends_with_consistent_counters_witness :
  let t' := fst (_run_register_async env_cancel_inside_second sample_config (running_task 2)) in
  progress t' = 1 /\ success_count t' = 1 /\ fail_count t' = 0 /\
  status t' = CANCELLED /\
  snd (_run_register_async env_cancel_inside_second sample_config (running_task 2)) = [0; 1]%nat.
Proof.
  destruct (run_ends_with_consistent_counters env_cancel_inside_second sample_config
              (running_task 2) eq_refl eq_refl eq_refl eq_refl ltac:(vm_compute; discriminate))
    as (Hp & Hsum & Hs & _ & _ & _ & _ & _ & _).
  cbv zeta in *.
  assert (Hres : length (results (fst (_run_register_async env_cancel_inside_second
                                         sample_config (running_task 2)))) = 1%nat)
    by (vm_compute; reflexivity).
  rewrite Hres in Hp.
  assert (Hsc : success_count (fst (_run_register_async env_cancel_inside_second
                                      sample_config (running_task 2))) = 1)
    by (rewrite Hs; vm_compute; reflexivity).
  split; [exact Hp|]. split; [exact Hsc|]. split; [lia|].
  split; vm_compute; reflexivity.
Defined.

End RegisterExtras.

(* ===================================================================== *)
(** * What an attempt opens and releases *)
(* ===================================================================== *)

Module Lifecycle.
Import Automation AutomationFacts Samples.

(** The calls that open and release what an attempt holds: the driver, the
    temporary profile directory, the browser context. *)
Inductive life_event : Type :=
| Started (r : result unit)                 (* sync_playwright().start() *)
| TempDir (r : result string)               (* tempfile.mkdtemp(prefix="patchright_") *)
| Launched (dir : string) (r : result unit) (* launch_persistent_context(user_data_dir=dir) *)
| Closed (r : result unit)                  (* context.close() *)
| Stopped (r : result unit)                 (* playwright.stop() *)
| Looked (path : string) (r : result bool)  (* os.path.exists(path) *)
| Removed (path : string) (r : result unit) (* shutil.rmtree(path, ignore_errors=True) *).

Definition life_of (c : made_call) : option life_event :=
  match c with
  | Made c0 answer =>
      match c0 in call T return T -> option life_event with
      | SyncPlaywrightStart => fun r => Some (Started r)
      | Mkdtemp _ => fun r => Some (TempDir r)
      | LaunchPersistentContext dir _ => fun r => Some (Launched dir r)
      | ContextClose => fun r => Some (Closed r)
      | PlaywrightStop => fun r => Some (Stopped r)
      | PathExists path => fun r => Some (Looked path r)
      | Rmtree path => fun r => Some (Removed path r)
      | _ => fun _ => None
      end answer
  end.

(** The life events of a history (which is kept most recent first), in the
    order of time. *)
Fixpoint life (h : list made_call) : list life_event :=
  match h with
  | [] => []
  | c :: older =>
      (life older ++ match life_of c with Some e => [e] | None => [] end)%list
  end.

(** What the steps of the flow must leave alone: the life events and the
    handles that [_cleanup] goes by. *)
Definition footprint (s : state) : list life_event * bool * bool * option string :=
  (life (history s), _playwright s, _context s, _user_data_dir s).

Definition aloof {A : Type} (m : M A) : Prop :=
  forall s, footprint (snd (m s)) = footprint s.

(** No handle is set. *)
Definition idle (s : state) : Prop :=
  _playwright s = false /\ _context s = false /\ _page s = false /\ _user_data_dir s = None.

(** What [_cleanup_user_data] does about the directory [dir], in order. *)
Inductive released : option string -> list life_event -> Prop :=
| released_none : released None []
| released_empty : released (Some "") []
| released_error dir e : dir <> "" -> released (Some dir) [Looked dir (Raise e)]
| released_absent dir : dir <> "" -> released (Some dir) [Looked dir (Return false)]
| released_removed dir r :
    dir <> "" -> released (Some dir) [Looked dir (Return true); Removed dir r].

(** The life events of one attempt, in order: whatever was opened is
    released, in the order context, driver, directory, and nothing else
    is. *)
Inductive session : list life_event -> Prop :=
| session_no_driver e :
    session [Started (Raise e)]
| session_no_directory e r :
    session [Started (Return tt); TempDir (Raise e); Stopped r]
| session_no_launch dir r tail :
    released (Some dir) tail ->
    session ([Started (Return tt); TempDir (Return dir); Stopped r] ++ tail)
| session_launch_failed dir e r tail :
    released (Some dir) tail ->
    session ([Started (Return tt); TempDir (Return dir); Launched dir (Raise e); Stopped r]
             ++ tail)
| session_launched dir rc rs tail :
    released (Some dir) tail ->
    session ([Started (Return tt); TempDir (Return dir); Launched dir (Return tt);
              Closed rc; Stopped rs] ++ tail).

(** What [_cleanup] does, in order, going by the handles it finds. *)
Definition cleaned (ctx pw : bool) (dir : option string) (evs : list life_event) : Prop :=
  exists closing stopping tail,
    evs = (closing ++ stopping ++ tail)%list /\
    (if ctx then exists r, closing = [Closed r] else closing = []) /\
    (if pw then exists r, stopping = [Stopped r] else stopping = []) /\
    released dir tail.

(** How far [_create_context] got, and the handles it has set by then. *)
Inductive created : list life_event -> bool -> bool -> option string -> Prop :=
| created_no_driver e :
    created [Started (Raise e)] false false None
| created_no_directory e :
    created [Started (Return tt); TempDir (Raise e)] true false None
| created_no_launch dir :
    created [Started (Return tt); TempDir (Return dir)] true false (Some dir)
| created_launch_failed dir e :
    created [Started (Return tt); TempDir (Return dir); Launched dir (Raise e)]
      true false (Some dir)
| created_launched dir :
    created [Started (Return tt); TempDir (Return dir); Launched dir (Return tt)]
      true true (Some dir).

Create HintDb flow_aloof discriminated.

Section Aloof.

Variable env : environment.
Variable self : settings.

Lemma aloof_ret {A : Type} (a : A) : aloof (ret a).
Proof. intros s. reflexivity. Qed.

Lemma aloof_raise {A : Type} (e : exn) : aloof (raise (A:=A) e).
Proof. intros s. reflexivity. Qed.

Lemma aloof_lift {A : Type} (r : result A) : aloof (lift r).
Proof. intros s. reflexivity. Qed.

Lemma aloof_bind {A B : Type} (m : M A) (k : A -> M B) :
  aloof m -> (forall a, aloof (k a)) -> aloof (bind m k).
Proof.
  intros Hm Hk s. unfold bind. specialize (Hm s).
  destruct (m s) as [[a|e] s1]; simpl in *; [|exact Hm].
  rewrite (Hk a s1). exact Hm.
Qed.

Lemma aloof_try_except {A : Type} (m : M A) (h : exn -> M A) :
  aloof m -> (forall e, aloof (h e)) -> aloof (try_except m h).
Proof.
  intros Hm Hh s. unfold try_except. specialize (Hm s).
  destruct (m s) as [[a|e] s1]; simpl in *; [exact Hm|].
  rewrite (Hh e s1). exact Hm.
Qed.

Lemma aloof_perform {T : Type} (c : call T) :
  (forall a, life_of (Made c a) = None) -> aloof (perform env c).
Proof.
  intros Hc s. unfold perform, footprint, record_call. cbn [snd history life _playwright
    _context _user_data_dir]. rewrite Hc, app_nil_r. reflexivity.
Qed.

Lemma aloof_invoke {T : Type} (c : call (result T)) :
  (forall a, life_of (Made c a) = None) -> aloof (invoke env c).
Proof.
  intros Hc s. unfold invoke, footprint, record_call. cbn [snd history life _playwright
    _context _user_data_dir]. rewrite Hc, app_nil_r. reflexivity.
Qed.

Lemma _log_aloof level message : aloof (_log env self level message).
Proof.
  unfold _log. destruct (has_log_callback self); [|apply aloof_ret].
  intros s. unfold try_except_reraising_cancel, invoke.
  destruct (env (result unit) (history s) (LogCallback level message)) as [u|[m|m]];
    unfold footprint; cbn [snd ret history record_call life life_of _playwright _context
                           _user_data_dir]; rewrite app_nil_r; reflexivity.
Qed.

Lemma second_aloof l : aloof (second l).
Proof. unfold second. destruct (nth_error l 1); [apply aloof_ret|apply aloof_raise]. Qed.

#[local] Hint Resolve _log_aloof second_aloof : flow_aloof.

Ltac standoff :=
  repeat first
    [ apply aloof_ret | apply aloof_raise | apply aloof_lift
    | solve [auto with flow_aloof nocore]
    | apply aloof_perform; reflexivity
    | apply aloof_invoke; reflexivity
    | apply aloof_bind; [|intros]
    | apply aloof_try_except; [|intros]
    | match goal with
      | |- aloof (if ?b then _ else _) => destruct b
      | |- aloof (match ?x with _ => _ end) => destruct x
      end ].

Lemma first_found_aloof timeout_ms selectors : aloof (first_found env timeout_ms selectors).
Proof. induction selectors as [|selector rest IH]; simpl; standoff. Qed.

Lemma code_input_rounds_aloof rounds : aloof (code_input_rounds env self rounds).
Proof.
  pose proof first_found_aloof.
  induction rounds as [|k IH]; simpl; standoff.
Qed.

Lemma _wait_for_code_input_aloof timeout : aloof (_wait_for_code_input env self timeout).
Proof. apply code_input_rounds_aloof. Qed.

Lemma type_chars_aloof element chars : aloof (type_chars env element chars).
Proof. induction chars as [|c rest IH]; simpl; standoff. Qed.

Lemma mouse_moves_aloof n : aloof (mouse_moves env n).
Proof. induction n as [|k IH]; simpl; standoff. Qed.

#[local] Hint Resolve first_found_aloof _wait_for_code_input_aloof type_chars_aloof
  mouse_moves_aloof : flow_aloof.

Lemma warmup_visits_aloof urls : aloof (warmup_visits env self urls).
Proof. induction urls as [|url rest IH]; simpl; standoff. Qed.

Lemma _run_warmup_aloof : aloof (_run_warmup env self).
Proof. apply warmup_visits_aloof. Qed.

Lemma send_code_scan_aloof buttons : aloof (send_code_scan env self buttons).
Proof. induction buttons as [|btn rest IH]; simpl; standoff. Qed.

Lemma resend_scan_aloof buttons : aloof (resend_scan env self buttons).
Proof. induction buttons as [|btn rest IH]; simpl; standoff. Qed.

Lemma business_params_rounds_aloof rounds : aloof (business_params_rounds env self rounds).
Proof. induction rounds as [|k IH]; simpl; standoff. Qed.

Lemma _wait_for_business_params_aloof timeout :
  aloof (_wait_for_business_params env self timeout).
Proof. apply business_params_rounds_aloof. Qed.

Lemma find_username_submit_aloof buttons : aloof (find_username_submit env buttons).
Proof. induction buttons as [|btn rest IH]; simpl; standoff. Qed.

Lemma find_submit_button_aloof buttons : aloof (find_submit_button env buttons).
Proof. induction buttons as [|btn rest IH]; simpl; standoff. Qed.

Lemma wait_redirect_aloof rounds current_url :
  aloof (wait_redirect env self rounds current_url).
Proof. revert current_url. induction rounds as [|k IH]; intros current_url; simpl; standoff. Qed.

#[local] Hint Resolve _run_warmup_aloof send_code_scan_aloof resend_scan_aloof
  _wait_for_business_params_aloof find_username_submit_aloof find_submit_button_aloof
  wait_redirect_aloof : flow_aloof.

Lemma compute_expires_at_aloof ses_obj : aloof (compute_expires_at env ses_obj).
Proof. unfold compute_expires_at. destruct ses_obj as [[n v [e|]]|]; standoff. Qed.

#[local] Hint Resolve compute_expires_at_aloof : flow_aloof.

Lemma resend_loop_aloof todo attempt : aloof (resend_loop env self todo attempt).
Proof. revert attempt. induction todo as [|k IH]; intros attempt; simpl; standoff. Qed.

Lemma submit_attempts_aloof todo attempt code_input current_url :
  aloof (submit_attempts env self todo attempt code_input current_url).
Proof.
  revert attempt current_url.
  induction todo as [|k IH]; intros attempt current_url; simpl; standoff.
Qed.

#[local] Hint Resolve resend_loop_aloof submit_attempts_aloof : flow_aloof.

Lemma await_params_and_extract_aloof email : aloof (await_params_and_extract env self email).
Proof. unfold await_params_and_extract. cbv zeta. standoff. Qed.

#[local] Hint Resolve await_params_and_extract_aloof : flow_aloof.

Lemma _run_flow_aloof email : aloof (_run_flow env self email).
Proof. unfold _run_flow. standoff. Qed.

Lemma aloof_set_page b : aloof (set_page b).
Proof. intros s. reflexivity. Qed.

Lemma aloof_run {A : Type} (m : M A) s :
  aloof m ->
  life (history (snd (m s))) = life (history s) /\
  _playwright (snd (m s)) = _playwright s /\ _context (snd (m s)) = _context s /\
  _user_data_dir (snd (m s)) = _user_data_dir s.
Proof.
  intros Hm. specialize (Hm s). unfold footprint in Hm.
  injection Hm as H1 H2 H3 H4. auto.
Qed.

(** The four handles. *)
Definition handles (s : state) : bool * bool * bool * option string :=
  (_playwright s, _context s, _page s, _user_data_dir s).

(** [if handle: try: release() except Exception: pass] *)
Lemma release_call_run (flag : bool) (c : call (result unit)) s :
  let m := if flag then try_except (invoke env c) (fun _ => ret tt) else ret tt in
  fst (m s) = Return tt /\ handles (snd (m s)) = handles s /\
  history (snd (m s)) =
    if flag then Made c (env (result unit) (history s) c) :: history s else history s.
Proof.
  destruct flag; cbn; [|auto].
  unfold try_except, invoke.
  destruct (env (result unit) (history s) c) as [u|e]; cbn; auto.
  destruct u. auto.
Qed.

Lemma _cleanup_user_data_run dir s :
  let out := _cleanup_user_data env dir s in
  fst out = Return tt /\ handles (snd out) = handles s /\
  (exists tail,
     life (history (snd out)) = (life (history s) ++ tail)%list /\ released dir tail) /\
  (dir = None -> history (snd out) = history s).
Proof.
  unfold _cleanup_user_data. destruct dir as [d|]; cbn.
  2:{ split; [reflexivity|]. split; [reflexivity|]. split; [|reflexivity].
      exists []. rewrite app_nil_r. split; [reflexivity|constructor]. }
  destruct (String.eqb_spec d "") as [->|Hd]; cbn.
  { split; [reflexivity|]. split; [reflexivity|]. split; [|discriminate].
    exists []. rewrite app_nil_r. split; [reflexivity|constructor]. }
  unfold try_except, bind, invoke.
  destruct (env (result bool) (history s) (PathExists d)) as [[|]|e] eqn:Hlook; cbn.
  - destruct (env (result unit) _ (Rmtree d)) as [u|e] eqn:Hrm; cbn;
      (split; [try destruct u; reflexivity|]); (split; [reflexivity|]);
      (split; [|discriminate]);
      eexists; (split; [rewrite <- app_assoc; reflexivity|]); cbn;
      apply released_removed; exact Hd.
  - split; [reflexivity|]. split; [reflexivity|]. split; [|discriminate].
    eexists. split; [reflexivity|]. apply released_absent. exact Hd.
  - split; [reflexivity|]. split; [reflexivity|]. split; [|discriminate].
    eexists. split; [reflexivity|]. apply released_error. exact Hd.
Qed.

(** [_cleanup] never raises, clears every handle, and releases what the
    handles say is held. *)
Lemma _cleanup_run s :
  fst (_cleanup env s) = Return tt /\ idle (snd (_cleanup env s)) /\
  (exists evs,
     life (history (snd (_cleanup env s))) = (life (history s) ++ evs)%list /\
     cleaned (_context s) (_playwright s) (_user_data_dir s) evs) /\
  (idle s -> history (snd (_cleanup env s)) = history s).
Proof.
  unfold _cleanup.
  erewrite bind_Return by reflexivity.
  destruct (release_call_run (_context s) ContextClose s) as (R1 & F1 & H1).
  cbv zeta in R1, F1, H1.
  destruct ((if _context s then try_except (invoke env ContextClose) (fun _ => ret tt)
             else ret tt) s) as [r1 s1] eqn:E1.
  cbn [fst snd] in R1, F1, H1. subst r1.
  erewrite bind_Return by exact E1.
  erewrite bind_Return by reflexivity.
  erewrite bind_Return by reflexivity.
  cbn [_playwright set_context snd].
  set (s1' := mk_state (_playwright s1) false (_page s1) (_user_data_dir s1) (history s1)).
  destruct (release_call_run (_playwright s1) PlaywrightStop s1') as (R2 & F2 & H2).
  cbv zeta in R2, F2, H2.
  destruct ((if _playwright s1 then try_except (invoke env PlaywrightStop) (fun _ => ret tt)
             else ret tt) s1') as [r2 s2] eqn:E2.
  cbn [fst snd] in R2, F2, H2. subst r2.
  erewrite bind_Return by exact E2.
  erewrite bind_Return by reflexivity.
  erewrite bind_Return by reflexivity.
  erewrite bind_Return by reflexivity.
  cbn [set_playwright set_page snd _user_data_dir].
  set (s2' := mk_state false (_context s2) false (_user_data_dir s2) (history s2)).
  destruct (_cleanup_user_data_run (_user_data_dir s2) s2') as (R3 & F3 & (tail & L3 & Hrel) & H3).
  cbv zeta in R3, F3, L3, H3.
  destruct (_cleanup_user_data env (_user_data_dir s2) s2') as [r3 s3] eqn:E3.
  cbn [fst snd] in R3, F3, L3, H3. subst r3.
  erewrite bind_Return by exact E3.
  cbn [set_user_data_dir fst snd].
  unfold handles in F1, F2, F3. subst s1' s2'.
  cbn [_playwright _context _page _user_data_dir history] in *.
  injection F1 as F1a F1b F1c F1d. injection F2 as F2a F2b F2c F2d.
  injection F3 as F3a F3b F3c F3d.
  split; [reflexivity|].
  split; [unfold idle; cbn; rewrite F3a, F3b, F2b, F3c; auto|]. split.
  - refine (ex_intro _
              ((if _context s then [Closed (env (result unit) (history s) ContextClose)]
                else [])
               ++ (if _playwright s
                   then [Stopped (env (result unit) (history s1) PlaywrightStop)] else [])
               ++ tail)%list _).
    split.
    + cbn [history]. rewrite L3, H2, H1, F1a.
      destruct (_context s), (_playwright s); cbn [life life_of];
        rewrite ?app_nil_r, <- ?app_assoc; reflexivity.
    + unfold cleaned. eexists _, _, tail. split; [reflexivity|].
      rewrite <- F1d, <- F2d.
      split; [destruct (_context s); eauto|]. split; [destruct (_playwright s); eauto|].
      exact Hrel.
  - intros (Ip & Ic & Ig & Id). cbn [history].
    rewrite H3, H2, H1, F1a, Ip, Ic by (rewrite F2d, F1d; exact Id). reflexivity.
Qed.

(** [_create_context] from an idle instance: how far it got, with the handles
    set accordingly; a return means the context was launched. *)
Lemma _create_context_run s :
  idle s ->
  exists evs,
    life (history (snd (_create_context env self s))) = (life (history s) ++ evs)%list /\
    created evs (_playwright (snd (_create_context env self s)))
      (_context (snd (_create_context env self s)))
      (_user_data_dir (snd (_create_context env self s))) /\
    (forall u, fst (_create_context env self s) = Return u ->
               _context (snd (_create_context env self s)) = true).
Proof.
  intros (Ip & Ic & Ig & Id). unfold _create_context.
  match goal with |- context [LaunchPersistentContext _ ?o] => set (options := o) end.
  destruct (env (result unit) (history s) SyncPlaywrightStart) as [[]|e] eqn:E0.
  2:{ erewrite bind_Raise by (rewrite invoke_run, E0; reflexivity).
      cbn [fst snd history record_call life life_of _playwright _context _user_data_dir].
      rewrite Ip, Ic, Id.
      eexists. split; [reflexivity|]. split; [constructor|discriminate]. }
  erewrite bind_Return by (rewrite invoke_run, E0; reflexivity).
  erewrite bind_Return by reflexivity.
  cbn [set_playwright snd record_call _playwright _context _page _user_data_dir history].
  match goal with |- context [bind (invoke env (Mkdtemp _)) _ ?st] => set (s1 := st) end.
  destruct (env (result string) (history s1) (Mkdtemp "patchright_")) as [dir|e] eqn:E1.
  2:{ erewrite bind_Raise by (rewrite invoke_run, E1; reflexivity).
      subst s1.
      cbn [fst snd history record_call life life_of _playwright _context _user_data_dir].
      rewrite Ic, Id, <- app_assoc.
      eexists. split; [reflexivity|]. split; [constructor|discriminate]. }
  erewrite bind_Return by (rewrite invoke_run, E1; reflexivity).
  erewrite bind_Return by reflexivity.
  cbn [set_user_data_dir snd record_call _playwright _context _page _user_data_dir history].
  match goal with |- context [bind (if String.eqb (proxy self) "" then _ else _) _ ?st] =>
    set (s2 := st) end.
  assert (L2 : life (history s2)
               = (life (history s) ++ [Started (Return tt); TempDir (Return dir)])%list).
  { subst s2 s1. cbn [history life life_of]. rewrite <- app_assoc. reflexivity. }
  assert (Hproxy : aloof (if String.eqb (proxy self) "" then ret tt
                          else _log env self "info" ("🌐 使用代理: " ++ proxy self)))
    by standoff.
  destruct (aloof_run _ s2 Hproxy) as (A1 & A2 & A3 & A4).
  destruct ((if String.eqb (proxy self) "" then ret tt
             else _log env self "info" ("🌐 使用代理: " ++ proxy self)) s2)
    as [[u|e] s3] eqn:E2; cbn [snd] in A1, A2, A3, A4.
  2:{ erewrite bind_Raise by exact E2. cbn [fst snd].
      rewrite A1, A2, A3, A4, L2. subst s2 s1. cbn [_playwright _context _user_data_dir].
      rewrite Ic.
      eexists. split; [reflexivity|]. split; [constructor|discriminate]. }
  erewrite bind_Return by exact E2.
  destruct (env (result unit) (history s3) (LaunchPersistentContext dir options))
    as [[]|e] eqn:E3.
  2:{ erewrite bind_Raise by (rewrite invoke_run, E3; reflexivity).
      cbn [fst snd history record_call life life_of _playwright _context _user_data_dir].
      rewrite A1, A2, A3, A4, L2, <- app_assoc. subst s2 s1.
      cbn [_playwright _context _user_data_dir]. rewrite Ic.
      eexists. split; [reflexivity|]. split; [constructor|discriminate]. }
  erewrite bind_Return by (rewrite invoke_run, E3; reflexivity).
  erewrite bind_Return by reflexivity.
  cbn [set_context snd record_call _playwright _context _page _user_data_dir history].
  match goal with |- context [bind (invoke env (SetDefaultTimeout _)) _ ?st] =>
    set (s4 := st) end.
  match goal with |- context [?m s4] =>
    assert (Htail : aloof m) by (standoff; apply aloof_set_page);
    destruct (aloof_run _ s4 Htail) as (B1 & B2 & B3 & B4);
    destruct (m s4) as [r s5] eqn:E4 end.
  cbn [fst snd] in *. rewrite B1, B2, B3, B4. subst s4.
  cbn [history life life_of _playwright _context _user_data_dir].
  rewrite A1, A2, A4, L2, <- app_assoc. subst s2 s1.
  cbn [_playwright _user_data_dir app].
  eexists. split; [reflexivity|]. split; [constructor|reflexivity].
Qed.

(** The [try] block and the handler of [login_and_extract] leave the
    footprint as [_create_context] left it. *)
Lemma login_and_extract_run email s :
  idle s ->
  idle (snd (login_and_extract env self email s)) /\
  exists evs,
    life (history (snd (login_and_extract env self email s)))
      = (life (history s) ++ evs)%list /\
    session evs.
Proof.
  intros Hidle. unfold login_and_extract, try_finally.
  destruct (_create_context_run s Hidle) as (opening & L0 & Hcreated & Hret).
  assert (Hrest : aloof ((if warmup_enabled self then _run_warmup env self else ret tt) ;;
                         _run_flow env self email)).
  { apply aloof_bind; [destruct (warmup_enabled self);
                       [apply _run_warmup_aloof|apply aloof_ret]|intros _].
    apply _run_flow_aloof. }
  assert (Hbody : exists r s1,
            try_except_reraising_cancel (login_body env self email)
              (fun exc => _log env self "error" ("automation error: " ++ str_exn exc) ;;
                          ret (Failure (str_exn exc))) s = (r, s1) /\
            life (history s1) = (life (history s) ++ opening)%list /\
            created opening (_playwright s1) (_context s1) (_user_data_dir s1)).
  { unfold try_except_reraising_cancel, login_body.
    destruct (_create_context env self s) as [[u|e] s0] eqn:E0; cbn [fst snd] in *.
    - erewrite bind_Return by exact E0.
      destruct (aloof_run _ s0 Hrest) as (A1 & A2 & A3 & A4).
      match goal with |- context [?m s0] => destruct (m s0) as [[r|[m1|m1]] s1] eqn:E1 end;
        cbn [snd] in A1, A2, A3, A4.
      + eexists _, _. split; [reflexivity|]. rewrite A1, A2, A3, A4. auto.
      + eexists _, _. split; [reflexivity|]. rewrite A1, A2, A3, A4. auto.
      + assert (Hh : aloof (_log env self "error" ("automation error: " ++ str_exn (Exception m1))
                            ;; ret (Failure (str_exn (Exception m1))))) by standoff.
        destruct (aloof_run _ s1 Hh) as (C1 & C2 & C3 & C4).
        match goal with |- context [?m s1] => destruct (m s1) as [r2 s2] eqn:E2 end.
        cbn [snd] in C1, C2, C3, C4.
        eexists _, _. split; [reflexivity|]. rewrite C1, C2, C3, C4, A1, A2, A3, A4. auto.
    - erewrite bind_Raise by exact E0. destruct e as [m1|m1].
      + eexists _, _. split; [reflexivity|]. auto.
      + assert (Hh : aloof (_log env self "error" ("automation error: " ++ str_exn (Exception m1))
                            ;; ret (Failure (str_exn (Exception m1))))) by standoff.
        destruct (aloof_run _ s0 Hh) as (C1 & C2 & C3 & C4).
        match goal with |- context [?m s0] => destruct (m s0) as [r2 s2] eqn:E2 end.
        cbn [snd] in C1, C2, C3, C4.
        eexists _, _. split; [reflexivity|]. rewrite C1, C2, C3, C4. auto. }
  destruct Hbody as (r & s1 & E & L1 & Hc). rewrite E.
  destruct (_cleanup_run s1) as (R & Hidle' & (closing & L2 & Hcleaned) & _).
  destruct (_cleanup env s1) as [rc s2]. cbn [fst snd] in *. subst rc. cbn [fst snd].
  split; [exact Hidle'|].
  exists (opening ++ closing)%list. split; [rewrite L2, L1, app_assoc; reflexivity|].
  destruct Hcleaned as (cl & st & tail & -> & Hcl & Hst & Hrel).
  inversion Hc as [e H1 H2 H3 H4|e H1 H2 H3 H4|dir H1 H2 H3 H4|dir e H1 H2 H3 H4|dir H1 H2 H3 H4];
    subst opening; rewrite <- H2 in Hst; rewrite <- H3 in Hcl; rewrite <- H4 in Hrel.
  - subst cl st. inversion Hrel. apply session_no_driver.
  - destruct Hst as (rs & ->). subst cl. inversion Hrel. apply session_no_directory.
  - destruct Hst as (rs & ->). subst cl. exact (session_no_launch dir rs tail Hrel).
  - destruct Hst as (rs & ->). subst cl. exact (session_launch_failed dir e rs tail Hrel).
  - destruct Hst as (rs & ->). destruct Hcl as (rc & ->).
    exact (session_launched dir rc rs tail Hrel).
Qed.

(** [stop] *)
Lemma stop_run s :
  fst (stop env s) = Return tt /\ idle (snd (stop env s)) /\
  (exists evs,
     life (history (snd (stop env s))) = (life (history s) ++ evs)%list /\
     cleaned (_context s) (_playwright s) (_user_data_dir s) evs) /\
  (idle s -> history (snd (stop env s)) = history s).
Proof.
  unfold stop, try_except. pose proof (_cleanup_run s) as H.
  destruct (_cleanup env s) as [[u|e] s1]; cbn [fst snd] in *; [exact H|].
  destruct H as (H & _). discriminate.
Qed.

End Aloof.

End Lifecycle.

Module LifecycleExtras.
Import Automation AutomationFacts Samples Lifecycle.

(** X2: an attempt releases what it opened, whatever happens in between.
    Started on an instance with no handle set, [login_and_extract] ends with
    no handle set, and its calls to the driver, the temporary directory and
    the browser context are, in order, one of: the driver did not start; the
    driver started, the directory could not be made, the driver is stopped;
    the directory was made, the context was not launched (or the launch
    failed), the driver is stopped and the directory released; the context
    was launched, then it is closed, the driver stopped and the directory
    released.  Releasing the directory is: nothing for an empty path, else
    [os.path.exists], followed by [shutil.rmtree] when it answers true. *)
Theorem attempt_releases_what_it_opened
    (env : environment) (self : settings) (email : string) (s : state) :
  idle s ->
  idle (snd (login_and_extract env self email s)) /\
  exists evs,
    life (history (snd (login_and_extract env self email s)))
      = (life (history s) ++ evs)%list /\
    session evs.
Proof. apply login_and_extract_run. Qed.

Lemma attempt_releases_what_it_opened_witness :
  let run := login_and_extract (stage (scene_signed_in None)) sample_settings
               "user@example.com" initial_state in
  idle (snd run) /\
  life (history (snd run)) =
    [ Started (Return tt); TempDir (Return "/tmp/patchright_0001");
      Launched "/tmp/patchright_0001" (Return tt); Closed (Return tt); Stopped (Return tt);
      Looked "/tmp/patchright_0001" (Return true);
      Removed "/tmp/patchright_0001" (Return tt) ] /\
  session (life (history (snd run))).
Proof.
  cbv zeta.
  assert (Hidle : idle initial_state) by (repeat split).
  destruct (attempt_releases_what_it_opened (stage (scene_signed_in None)) sample_settings
              "user@example.com" initial_state Hidle) as (Hi & evs & Hl & Hs).
  split; [exact Hi|]. split; [vm_compute; reflexivity|].
  rewrite Hl. exact Hs.
Defined.

(** X3: [stop] never raises and leaves no handle set; it closes the context
    when one is set, stops the driver when one is set and releases the
    directory when one is recorded, in this order; a second [stop] makes no
    call at all. *)
Theorem stop_releases_once (env : environment) (s : state) :
  fst (stop env s) = Return tt /\
  idle (snd (stop env s)) /\
  (exists evs,
     life (history (snd (stop env s))) = (life (history s) ++ evs)%list /\
     cleaned (_context s) (_playwright s) (_user_data_dir s) evs) /\
  history (snd (stop env (snd (stop env s)))) = history (snd (stop env s)).
Proof.
  destruct (stop_run env s) as (Hr & Hidle & Hev & _).
  split; [exact Hr|]. split; [exact Hidle|]. split; [exact Hev|].
  destruct (stop_run env (snd (stop env s))) as (_ & _ & _ & Hsame).
  exact (Hsame Hidle).
Qed.

End LifecycleExtras.

(* ===================================================================== *)
(** * Mailbox clients: construction, requests, new addresses *)
(* ===================================================================== *)

Module MailSetup.

(** [s.rstrip("/")] *)
Fixpoint rstrip_slash (s : string) : string :=
  match s with
  | EmptyString => EmptyString
  | String c t =>
      match rstrip_slash t with
      | EmptyString => if Ascii.eqb c "/" then EmptyString else String c EmptyString
      | t' => String c t'
      end
  end.

(** A call of [requests.request] as the transport sees it.  [rq_proxies] is
    the proxy both schemes are sent through. *)
Record request : Type := mk_request {
  rq_method : string;
  rq_url : string;
  rq_headers : gmap string string;
  rq_json : option (gmap string pyval);
  rq_params : option (gmap string pyval);
  rq_proxies : option string;
  rq_verify : bool;
  rq_timeout : Z
}.

(** What a response body is to the code that reads a new address:
    [res.content] is empty; [res.json()] raises; the JSON value is not an
    object, so that [.get] raises [AttributeError]; an object. *)
Inductive json_top (P : Type) : Type :=
| NoContent
| NotJson
| NotAnObject
| JsonObject (p : P).
Arguments NoContent {P}.
Arguments NotJson {P}.
Arguments NotAnObject {P}.
Arguments JsonObject {P} p.

Record reply (P : Type) : Type := mk_reply {
  rp_status : Z;
  rp_body : json_top P
}.
Arguments mk_reply {P} _ _.
Arguments rp_status {P} _.
Arguments rp_body {P} _.

(** The attributes both clients set in [__init__]. *)
Record connection : Type := mk_connection {
  base_url : string;
  api_key : string;
  proxies : option string;
  verify_ssl : bool
}.

(** The part of [__init__] both clients share. *)
Definition connect (base_url api_key proxy : string) (verify_ssl : bool) : connection :=
  {| base_url := rstrip_slash base_url;
     api_key := strip api_key;
     proxies := if String.eqb proxy "" then None else Some proxy;
     verify_ssl := verify_ssl |}.

(** [_request] (the same text in both clients).  [headers], [json],
    [params] and [timeout] are the keyword arguments the callers use; the
    log lines go through [_log], which swallows what the callback raises.
    The value is what [requests.request] gives (the [except] re-raises). *)
Definition _request {P : Type} (conn : connection) (transport : request -> result (reply P))
    (method url : string) (headers : option (gmap string string))
    (json params : option (gmap string pyval)) (timeout : option Z)
  : result (reply P) * request :=
  let headers := match headers with Some h => h | None => ∅ end in
  let headers :=
    if negb (String.eqb (api_key conn) "")
    then match headers !! "X-API-Key" with
         | Some _ => headers
         | None => <["X-API-Key" := api_key conn]> headers
         end
    else headers in
  let rq := {| rq_method := method; rq_url := url; rq_headers := headers;
               rq_json := json; rq_params := params;
               rq_proxies := proxies conn; rq_verify := verify_ssl conn;
               rq_timeout := match timeout with Some t => t | None => 15 end |} in
  (transport rq, rq).

Definition attribute_error : exn := Exception "object has no attribute 'get'".

(** ** GPTMail *)

Record gpt_client : Type := mk_gpt_client {
  gc_conn : connection;
  gc_email : pyval      (* self.email; None at first *)
}.

Definition gpt_init (base_url api_key proxy : string) (verify_ssl : bool) : gpt_client :=
  {| gc_conn := connect base_url api_key proxy verify_ssl; gc_email := PNone |}.

(** [set_credentials] *)
Definition gpt_set_credentials (email : pyval) (c : gpt_client) : gpt_client :=
  {| gc_conn := gc_conn c; gc_email := email |}.

(** [data.get("data") or {}]: falsy, an object with its ["email"], or a
    truthy value that is no object. *)
Inductive gpt_data : Type :=
| DataFalsy
| DataObject (email : pyval)
| DataOther.

Record gpt_generated : Type := mk_gpt_generated {
  gg_success : pyval;   (* data.get("success") *)
  gg_data : gpt_data
}.

(** The part of [generate_email] after the request: what it makes of the
    answer.  The value ([None] is [PNone]) and the client afterwards. *)
Definition gpt_read_address (c : gpt_client) (answer : result (reply gpt_generated))
  : result pyval * gpt_client :=
  match answer with
  | Raise _ => (Return PNone, c)
  | Return res =>
      if negb (rp_status res =? 200) then (Return PNone, c)
      else
        match rp_body res with
        | NoContent | NotJson => (Return PNone, c)   (* data = {} *)
        | NotAnObject => (Raise attribute_error, c)
        | JsonObject data =>
            if negb (truthy (gg_success data)) then (Return PNone, c)
            else
              match gg_data data with
              | DataFalsy => (Return PNone, c)
              | DataOther => (Raise attribute_error, c)
              | DataObject email =>
                  if negb (truthy email) then (Return PNone, c)
                  else (Return email, gpt_set_credentials email c)
              end
        end
  end.

(** [generate_email]: the value, the client afterwards, the requests sent. *)
Definition gpt_generate_email (c : gpt_client)
    (transport : request -> result (reply gpt_generated)) (prefix domain : string)
  : result pyval * gpt_client * list request :=
  let payload : gmap string pyval := ∅ in
  let payload := if String.eqb prefix "" then payload else <["prefix" := PStr prefix]> payload in
  let payload := if String.eqb domain "" then payload else <["domain" := PStr domain]> payload in
  let url := base_url (gc_conn c) ++ "/api/generate-email" in
  let '(res, rq) :=
    if bool_decide (payload = ∅)
    then _request (gc_conn c) transport "GET" url None None None None
    else _request (gc_conn c) transport "POST" url None (Some payload) None None in
  (gpt_read_address c res, [rq]).

(** [_build_prefix]; [rand] is the outcome of [random.choices(..., k=8)],
    drawn only when no prefix is given. *)
Definition _build_prefix (prefix rand : string) : string :=
  if String.eqb prefix "" then "t" ++ rand else prefix.

(** [generate_email_with_fallback]; [transport k] answers the [k]-th request. *)
Definition gpt_generate_email_with_fallback (c : gpt_client)
    (transport : nat -> request -> result (reply gpt_generated)) (rand : string)
    (domain prefix : string) : result pyval * gpt_client * list request :=
  let prefix_value := _build_prefix prefix rand in
  match gpt_generate_email c (transport 0%nat) prefix_value domain with
  | (Return email, c1, sent1) =>
      if truthy email then (Return email, c1, sent1)
      else
        let '(r, c2, sent2) := gpt_generate_email c1 (transport 1%nat) prefix_value "" in
        (r, c2, (sent1 ++ sent2)%list)
  | (Raise e, c1, sent1) => (Raise e, c1, sent1)
  end.

(** ** MoeMail *)

Record moe_client : Type := mk_moe_client {
  mc_conn : connection;
  mc_email : pyval;      (* self.email *)
  mc_email_id : pyval    (* self.email_id *)
}.

Definition moe_init (base_url api_key proxy : string) (verify_ssl : bool) : moe_client :=
  {| mc_conn := connect base_url api_key proxy verify_ssl;
     mc_email := PNone; mc_email_id := PNone |}.

(** [set_credentials]: the id is kept when the new one is falsy. *)
Definition moe_set_credentials (email email_id : pyval) (c : moe_client) : moe_client :=
  {| mc_conn := mc_conn c;
     mc_email := email;
     mc_email_id := if truthy email_id then email_id else mc_email_id c |}.

Record moe_generated : Type := mk_moe_generated {
  mg_id : pyval;        (* data.get("id") *)
  mg_email : pyval;     (* data.get("email") *)
  mg_address : pyval    (* data.get("address") *)
}.

(** [_build_name]; [rand] is the outcome of [random.choices(..., k=6)]. *)
Definition _build_name (prefix rand : string) : string :=
  if String.eqb prefix "" then "user" ++ rand else prefix.

(** The part of [generate_email] after the request. *)
Definition moe_read_address (c : moe_client) (answer : result (reply moe_generated))
  : result (option (pyval * pyval)) * moe_client :=
  match answer with
  | Raise _ => (Return None, c)
  | Return res =>
      if negb (rp_status res =? 200) then (Return None, c)
      else
        match rp_body res with
        | NoContent | NotJson => (Return None, c)   (* data = {} *)
        | NotAnObject => (Raise attribute_error, c)
        | JsonObject data =>
            let email_id := mg_id data in
            let email_addr := py_or (mg_email data) (mg_address data) in
            if negb (truthy email_id) || negb (truthy email_addr) then (Return None, c)
            else
              (Return (Some (email_id, email_addr)),
               {| mc_conn := mc_conn c; mc_email := email_addr; mc_email_id := email_id |})
        end
  end.

(** [generate_email]: [(email_id, email_address)] or [None], the client
    afterwards, the requests sent. *)
Definition moe_generate_email (c : moe_client)
    (transport : request -> result (reply moe_generated)) (rand : string)
    (domain prefix : string) (expiry_ms : Z)
  : result (option (pyval * pyval)) * moe_client * list request :=
  let name_value := _build_name prefix rand in
  let payload : gmap string pyval :=
    <["expiryTime" := PInt expiry_ms]> (<["name" := PStr name_value]> ∅) in
  let payload := if String.eqb domain "" then payload else <["domain" := PStr domain]> payload in
  let '(res, rq) :=
    _request (mc_conn c) transport "POST" (base_url (mc_conn c) ++ "/api/emails/generate")
      (Some (<["Content-Type" := "application/json"]> ∅)) (Some payload) None None in
  (moe_read_address c res, [rq]).

End MailSetup.

Module MailSetupExtras.
Import MailSetup.

(** What [_request] puts on the wire for the API key. *)
Lemma _request_sent {P : Type} conn (transport : request -> result (reply P))
    method url headers json params timeout :
  let rq := snd (_request conn transport method url headers json params timeout) in
  fst (_request conn transport method url headers json params timeout) = transport rq /\
  rq_method rq = method /\ rq_url rq = url /\ rq_json rq = json /\ rq_params rq = params /\
  rq_proxies rq = proxies conn /\ rq_verify rq = verify_ssl conn /\
  rq_timeout rq = match timeout with Some t => t | None => 15 end /\
  rq_headers rq !! "X-API-Key" =
    match (match headers with Some h => h | None => ∅ end) !! "X-API-Key" with
    | Some given => Some given
    | None => if String.eqb (api_key conn) "" then None else Some (api_key conn)
    end /\
  (forall k, k <> "X-API-Key" ->
     rq_headers rq !! k = (match headers with Some h => h | None => ∅ end) !! k).
Proof.
  unfold _request. cbn [fst snd rq_method rq_url rq_json rq_params rq_proxies rq_verify
                        rq_timeout rq_headers].
  set (h := match headers with Some h => h | None => ∅ end).
  repeat split.
  - destruct (String.eqb (api_key conn) ""); cbn [negb].
    + destruct (h !! "X-API-Key"); reflexivity.
    + destruct (h !! "X-API-Key") eqn:Hk; [exact Hk|]. apply lookup_insert_eq.
  - intros k Hk. destruct (String.eqb (api_key conn) ""); cbn [negb]; [reflexivity|].
    destruct (h !! "X-API-Key"); [reflexivity|].
    apply lookup_insert_ne. congruence.
Qed.

(** The answer that gives GPTMail's [generate_email] an address: HTTP 200, a
    JSON object with a truthy "success" and a "data" object whose "email" is
    truthy. *)
Definition gpt_grants (answer : result (reply gpt_generated)) (email : pyval) : Prop :=
  exists success,
    answer = Return (mk_reply 200 (JsonObject (mk_gpt_generated success (DataObject email)))) /\
    truthy success = true /\ truthy email = true.

(** The answers on which it raises: HTTP 200 with a JSON value that is no
    object, or with a truthy "success" and a truthy "data" that is no
    object. *)
Definition gpt_misshapen (answer : result (reply gpt_generated)) : Prop :=
  answer = Return (mk_reply 200 NotAnObject) \/
  exists success,
    answer = Return (mk_reply 200 (JsonObject (mk_gpt_generated success DataOther))) /\
    truthy success = true.

(** The request [generate_email] sends, and what it makes of the answer. *)
Lemma gpt_generate_email_request c transport prefix domain :
  exists rq,
    gpt_generate_email c transport prefix domain = (gpt_read_address c (transport rq), [rq]) /\
    rq_method rq = (if String.eqb prefix "" && String.eqb domain "" then "GET" else "POST") /\
    rq_url rq = base_url (gc_conn c) ++ "/api/generate-email" /\
    rq_json rq =
      (if String.eqb prefix "" && String.eqb domain "" then None
       else Some ((if String.eqb domain "" then fun p => p else <["domain" := PStr domain]>)
                    ((if String.eqb prefix "" then fun p => p
                      else <["prefix" := PStr prefix]>) ∅))) /\
    rq_headers rq !! "X-API-Key" =
      (if String.eqb (api_key (gc_conn c)) "" then None else Some (api_key (gc_conn c))).
Proof.
  unfold gpt_generate_email.
  set (payload := (if String.eqb domain "" then _ else _) : gmap string pyval).
  assert (Hempty : bool_decide (payload = ∅) = String.eqb prefix "" && String.eqb domain "").
  { subst payload.
    destruct (String.eqb prefix ""), (String.eqb domain ""); cbn [andb].
    - apply bool_decide_eq_true_2. reflexivity.
    - apply bool_decide_eq_false_2, insert_non_empty.
    - apply bool_decide_eq_false_2, insert_non_empty.
    - apply bool_decide_eq_false_2, insert_non_empty. }
  rewrite Hempty.
  assert (Hpayload : payload =
            (if String.eqb domain "" then fun p => p else <["domain" := PStr domain]>)
              ((if String.eqb prefix "" then fun p => p else <["prefix" := PStr prefix]>) ∅)).
  { subst payload. destruct (String.eqb prefix ""), (String.eqb domain ""); reflexivity. }
  destruct (String.eqb prefix "" && String.eqb domain "").
  - pose proof (_request_sent (P:=gpt_generated) (gc_conn c) transport "GET"
                  (base_url (gc_conn c) ++ "/api/generate-email") None None None None) as K.
    cbv zeta in K. destruct K as (K0 & K1 & K2 & K3 & _ & _ & _ & _ & K6 & _).
    destruct (_request (gc_conn c) transport "GET" _ None None None None) as [res rq].
    cbn [fst snd] in *. exists rq. subst res.
    split; [reflexivity|]. split; [exact K1|]. split; [exact K2|]. split; [exact K3|].
    rewrite K6, lookup_empty. reflexivity.
  - pose proof (_request_sent (P:=gpt_generated) (gc_conn c) transport "POST"
                  (base_url (gc_conn c) ++ "/api/generate-email") None (Some payload)
                  None None) as K.
    cbv zeta in K. destruct K as (K0 & K1 & K2 & K3 & _ & _ & _ & _ & K6 & _).
    destruct (_request (gc_conn c) transport "POST" _ None (Some payload) None None)
      as [res rq].
    cbn [fst snd] in *. exists rq. subst res.
    split; [reflexivity|]. split; [exact K1|]. split; [exact K2|].
    split; [rewrite K3, Hpayload; reflexivity|].
    rewrite K6, lookup_empty. reflexivity.
Qed.

(** What [generate_email] makes of each answer. *)
Lemma gpt_read_address_cases c answer :
  (forall email, gpt_grants answer email ->
     gpt_read_address c answer = (Return email, gpt_set_credentials email c)) /\
  (gpt_misshapen answer -> gpt_read_address c answer = (Raise attribute_error, c)) /\
  ((forall email, ~ gpt_grants answer email) -> ~ gpt_misshapen answer ->
   gpt_read_address c answer = (Return PNone, c)).
Proof.
  split; [|split].
  - intros email (success & -> & Hs & He). cbn. rewrite Hs, He. reflexivity.
  - intros [->|(success & -> & Hs)]; cbn; [reflexivity|]. rewrite Hs. reflexivity.
  - intros Hno Hshape. unfold gpt_read_address.
    destruct answer as [[st body]|e]; [|reflexivity]. cbn [rp_status rp_body].
    destruct (Z.eqb_spec st 200) as [->|Hst]; cbn [negb]; [|reflexivity].
    destruct body as [| | |[success data]]; try reflexivity.
    + exfalso. apply Hshape. left. reflexivity.
    + cbn [gg_success gg_data].
      destruct (truthy success) eqn:Hs; cbn [negb]; [|reflexivity].
      destruct data as [|email|]; [reflexivity| |].
      * destruct (truthy email) eqn:He; cbn [negb]; [|reflexivity].
        exfalso. apply (Hno email). exists success. auto.
      * exfalso. apply Hshape. right. exists success. auto.
Qed.

(** X4: GPTMail's [generate_email] sends one request to
    [base_url/api/generate-email], a GET without body when neither prefix
    nor domain is given and else a POST whose JSON body holds exactly the
    ones given, with the [X-API-Key] header when a key is configured.  It
    returns the address, and stores it as the client's [email], exactly when
    the answer is HTTP 200 with a truthy "success" and a truthy
    "data.email"; it raises when the 200 answer is JSON but no object (or
    its truthy "data" is no object); on every other answer, a transport
    error included, it returns [None] and leaves the client as it was. *)
Theorem gpt_generate_email_outcome
    (c : gpt_client) (transport : request -> result (reply gpt_generated))
    (prefix domain : string) :
  let out := gpt_generate_email c transport prefix domain in
  exists rq,
    snd out = [rq] /\
    rq_method rq = (if String.eqb prefix "" && String.eqb domain "" then "GET" else "POST") /\
    rq_url rq = base_url (gc_conn c) ++ "/api/generate-email" /\
    rq_json rq =
      (if String.eqb prefix "" && String.eqb domain "" then None
       else Some ((if String.eqb domain "" then fun p => p else <["domain" := PStr domain]>)
                    ((if String.eqb prefix "" then fun p => p
                      else <["prefix" := PStr prefix]>) ∅))) /\
    rq_headers rq !! "X-API-Key" =
      (if String.eqb (api_key (gc_conn c)) "" then None else Some (api_key (gc_conn c))) /\
    (forall email, gpt_grants (transport rq) email ->
       fst out = (Return email, gpt_set_credentials email c)) /\
    (gpt_misshapen (transport rq) -> fst out = (Raise attribute_error, c)) /\
    ((forall email, ~ gpt_grants (transport rq) email) -> ~ gpt_misshapen (transport rq) ->
     fst out = (Return PNone, c)).
Proof.
  cbv zeta.
  destruct (gpt_generate_email_request c transport prefix domain)
    as (rq & -> & Hm & Hu & Hj & Hk).
  exists rq. cbn [fst snd].
  destruct (gpt_read_address_cases c (transport rq)) as (H1 & H2 & H3). auto 10.
Qed.

Lemma _build_prefix_nonempty prefix rand : _build_prefix prefix rand <> "".
Proof.
  unfold _build_prefix. destruct (String.eqb_spec prefix ""); [discriminate|assumption].
Qed.

(** X5: [generate_email_with_fallback] draws the prefix once (the one
    given, else "t" and eight random characters: never empty), so that every
    request is a POST.  The first request carries the domain when one is
    given; when its answer grants an address, that address is returned and
    stored and nothing else is sent; when it makes [generate_email] raise,
    the exception goes through and nothing else is sent; on every other
    answer a second request is sent with the same prefix and no domain, and
    its answer alone decides. *)
Theorem gpt_fallback_retries_without_domain
    (c : gpt_client) (transport : nat -> request -> result (reply gpt_generated))
    (rand domain prefix : string) :
  let out := gpt_generate_email_with_fallback c transport rand domain prefix in
  let p := _build_prefix prefix rand in
  p <> "" /\
  exists rq1,
    rq_method rq1 = "POST" /\
    rq_json rq1 = Some ((if String.eqb domain "" then fun m => m
                         else <["domain" := PStr domain]>) (<["prefix" := PStr p]> ∅)) /\
    (forall email, gpt_grants (transport 0%nat rq1) email ->
       out = (Return email, gpt_set_credentials email c, [rq1])) /\
    (gpt_misshapen (transport 0%nat rq1) -> out = (Raise attribute_error, c, [rq1])) /\
    ((forall email, ~ gpt_grants (transport 0%nat rq1) email) ->
     ~ gpt_misshapen (transport 0%nat rq1) ->
     exists rq2,
       rq_method rq2 = "POST" /\ rq_url rq2 = rq_url rq1 /\
       rq_json rq2 = Some (<["prefix" := PStr p]> ∅) /\
       out = (gpt_read_address c (transport 1%nat rq2), [rq1; rq2])).
Proof.
  cbv zeta. pose proof (_build_prefix_nonempty prefix rand) as Hp.
  split; [exact Hp|].
  unfold gpt_generate_email_with_fallback.
  set (p := _build_prefix prefix rand) in *.
  assert (Hpe : String.eqb p "" = false) by (apply String.eqb_neq; exact Hp).
  destruct (gpt_generate_email_request c (transport 0%nat) p domain)
    as (rq1 & -> & Hm & Hu & Hj & Hk).
  rewrite Hpe in Hm, Hj. cbn [andb] in Hm, Hj.
  exists rq1. split; [exact Hm|]. split; [exact Hj|].
  destruct (gpt_read_address_cases c (transport 0%nat rq1)) as (H1 & H2 & H3).
  split; [|split].
  - intros email Hg. rewrite (H1 email Hg).
    destruct Hg as (_ & _ & _ & He). rewrite He. reflexivity.
  - intros Hs. rewrite (H2 Hs). reflexivity.
  - intros Hno Hshape. rewrite (H3 Hno Hshape). cbn [truthy].
    destruct (gpt_generate_email_request c (transport 1%nat) p "")
      as (rq2 & -> & Hm2 & Hu2 & Hj2 & Hk2).
    rewrite Hpe in Hm2, Hj2. cbn [andb String.eqb] in Hm2, Hj2.
    exists rq2. split; [exact Hm2|]. split; [congruence|]. split; [exact Hj2|].
    destruct (gpt_read_address c (transport 1%nat rq2)). reflexivity.
Qed.

(** The answer that gives MoeMail's [generate_email] a mailbox: HTTP 200 and
    a JSON object with a truthy "id" and a truthy "email" or, failing that,
    "address". *)
Definition moe_grants (answer : result (reply moe_generated)) (email_id email_addr : pyval)
  : Prop :=
  exists data,
    answer = Return (mk_reply 200 (JsonObject data)) /\
    email_id = mg_id data /\ truthy email_id = true /\
    email_addr = py_or (mg_email data) (mg_address data) /\ truthy email_addr = true.

Lemma _build_name_nonempty prefix rand : _build_name prefix rand <> "".
Proof.
  unfold _build_name. destruct (String.eqb_spec prefix ""); [discriminate|assumption].
Qed.

(** X6: MoeMail's [generate_email] sends one POST to
    [base_url/api/emails/generate] with the JSON content type (and the API
    key when one is configured); the body holds the name (the prefix given,
    else "user" and six random characters: never empty), the expiry, and
    the domain only when one is given.  It returns the pair of id and
    address, and stores both, exactly when the answer is HTTP 200 with a
    truthy "id" and a truthy "email" or "address" ("email" first); it raises
    when the 200 answer is JSON but no object; on every other answer it
    returns [None] and leaves the client as it was. *)
Theorem moe_generate_email_outcome
    (c : moe_client) (transport : request -> result (reply moe_generated))
    (rand domain prefix : string) (expiry_ms : Z) :
  let out := moe_generate_email c transport rand domain prefix expiry_ms in
  let name := _build_name prefix rand in
  name <> "" /\
  exists rq,
    snd out = [rq] /\
    rq_method rq = "POST" /\
    rq_url rq = base_url (mc_conn c) ++ "/api/emails/generate" /\
    rq_json rq =
      Some ((if String.eqb domain "" then fun m => m else <["domain" := PStr domain]>)
              (<["expiryTime" := PInt expiry_ms]> (<["name" := PStr name]> ∅))) /\
    rq_headers rq !! "Content-Type" = Some "application/json" /\
    rq_headers rq !! "X-API-Key" =
      (if String.eqb (api_key (mc_conn c)) "" then None else Some (api_key (mc_conn c))) /\
    (forall email_id email_addr, moe_grants (transport rq) email_id email_addr ->
       fst out = (Return (Some (email_id, email_addr)),
                  {| mc_conn := mc_conn c; mc_email := email_addr; mc_email_id := email_id |})) /\
    (transport rq = Return (mk_reply 200 NotAnObject) ->
       fst out = (Raise attribute_error, c)) /\
    ((forall email_id email_addr, ~ moe_grants (transport rq) email_id email_addr) ->
     transport rq <> Return (mk_reply 200 NotAnObject) ->
     fst out = (Return None, c)).
Proof.
  cbv zeta. split; [apply _build_name_nonempty|].
  unfold moe_generate_email.
  set (name := _build_name prefix rand).
  set (payload := (if String.eqb domain "" then _ else _) : gmap string pyval).
  assert (Hpayload : payload =
            (if String.eqb domain "" then fun m => m else <["domain" := PStr domain]>)
              (<["expiryTime" := PInt expiry_ms]> (<["name" := PStr name]> ∅))).
  { subst payload. destruct (String.eqb domain ""); reflexivity. }
  pose proof (_request_sent (P:=moe_generated) (mc_conn c) transport "POST"
                (base_url (mc_conn c) ++ "/api/emails/generate")
                (Some (<["Content-Type" := "application/json"]> ∅)) (Some payload)
                None None) as K.
  cbv zeta in K. destruct K as (K0 & K1 & K2 & K3 & _ & _ & _ & _ & K6 & K7).
  destruct (_request (mc_conn c) transport "POST" _ _ (Some payload) None None) as [res rq].
  cbn [fst snd] in *. subst res. exists rq.
  split; [reflexivity|]. split; [exact K1|]. split; [exact K2|].
  split; [rewrite K3, Hpayload; reflexivity|].
  split; [rewrite K7 by discriminate; apply lookup_insert_eq|].
  split.
  { rewrite K6, lookup_insert_ne by discriminate. rewrite lookup_empty. reflexivity. }
  split; [|split].
  - intros email_id email_addr (data & -> & -> & Hi & -> & Ha).
    cbn. rewrite Hi, Ha. reflexivity.
  - intros ->. reflexivity.
  - intros Hno Hshape. unfold moe_read_address.
    destruct (transport rq) as [[st body]|e]; [|reflexivity]. cbn [rp_status rp_body].
    destruct (Z.eqb_spec st 200) as [->|Hst]; cbn [negb]; [|reflexivity].
    destruct body as [| | |data]; try reflexivity; [congruence|].
    cbv zeta.
    destruct (truthy (mg_id data)) eqn:Hi; cbn [negb orb]; [|reflexivity].
    destruct (truthy (py_or (mg_email data) (mg_address data))) eqn:Ha; cbn [negb];
      [|reflexivity].
    exfalso. apply (Hno (mg_id data) (py_or (mg_email data) (mg_address data))).
    exists data. auto.
Qed.

End MailSetupExtras.

(* ===================================================================== *)
(** * Which message decides a fetch *)
(* ===================================================================== *)

Module MailFetch.
Import Mail MailFacts.

Section Decisive.

Variable extract : string -> option string.

(** A detail reply that ends the scan, with the value the fetch then has: a
    text with a code in it; a request that raises, or a 200 body that is not
    JSON (both caught by the [try] around the whole fetch). *)
Inductive gpt_decides : result (response gpt_detail) -> option string -> Prop :=
| gpt_decides_code r text code :
    gpt_text r = Some text -> extract text = Some code -> code <> "" ->
    gpt_decides r (Some code)
| gpt_decides_raise e : gpt_decides (Raise e) None
| gpt_decides_invalid : gpt_decides (Return (mk_response 200 BodyInvalid)) None.

Inductive moe_decides : result (response moe_detail) -> option string -> Prop :=
| moe_decides_code r text code :
    moe_text r = Some text -> extract text = Some code -> code <> "" ->
    moe_decides r (Some code)
| moe_decides_raise e : moe_decides (Raise e) None
| moe_decides_invalid : moe_decides (Return (mk_response 200 BodyInvalid)) None.

(** The messages whose detail a scan is to ask for: those with an id that
    the time filter lets through. *)
Definition gpt_due (since_ts : option Z) (msg : gpt_message) : bool :=
  truthy (g_id msg) && negb (gpt_skip since_ts (g_timestamp msg)).

Definition moe_due (since_ms : option Z) (msg : moe_message) : bool :=
  truthy (py_or (m_id msg) (m_messageId msg)) && negb (moe_skip since_ms (moe_sent_at msg)).

(** Positions (counted from [base]) of the messages that satisfy [due]. *)
Fixpoint positions {A : Type} (due : A -> bool) (base : nat) (msgs : list A) : list nat :=
  match msgs with
  | [] => []
  | m :: rest =>
      if due m then base :: positions due (S base) rest else positions due (S base) rest
  end.

Definition value_of (r : result (option string)) : option string :=
  match r with Return code => code | Raise _ => None end.

Lemma gpt_text_Some r text :
  gpt_text r = Some text ->
  exists d, r = Return (mk_response 200 (BodyJson d)) /\ truthy (gd_success d) = true /\
            text = str_or_empty (gd_content d) ++ str_or_empty (gd_html_content d).
Proof.
  unfold gpt_text. destruct r as [[st body]|e]; [|discriminate].
  destruct st as [|q|q]; try discriminate.
  do 8 (destruct q as [q|q|]; try discriminate).
  destruct body as [| |d]; try discriminate.
  destruct (truthy (gd_success d)) eqn:Hs; [|discriminate].
  intros H. injection H as <-. exists d. auto.
Qed.

Lemma gpt_scan_decisive mb since_ts :
  forall msgs base k msg v,
    nth_error msgs k = Some msg ->
    gpt_due since_ts msg = true ->
    (forall j m w, (j < k)%nat -> nth_error msgs j = Some m -> gpt_due since_ts m = true ->
                   ~ gpt_decides (gpt_detail_reply mb (base + j) (g_id m)) w) ->
    gpt_decides (gpt_detail_reply mb (base + k) (g_id msg)) v ->
    value_of (fst (gpt_scan extract mb since_ts base msgs)) = v /\
    detail_positions (snd (gpt_scan extract mb since_ts base msgs))
    = positions (gpt_due since_ts) base (firstn (S k) msgs).
Proof.
  induction msgs as [|m msgs IH]; intros base k msg v Hnth Hdue Hpass Hdec.
  - destruct k; discriminate.
  - destruct k as [|k].
    + injection Hnth as ->. rewrite Nat.add_0_r in Hdec.
      cbn [firstn positions]. rewrite Hdue.
      unfold gpt_due in Hdue. apply andb_true_iff in Hdue as [Hid Hskip].
      apply negb_true_iff in Hskip.
      cbn [gpt_scan]. rewrite Hid, Hskip. cbn [negb].
      inversion Hdec as [r text code Ht Hx Hne Hr Hv | e He Hv | Hr Hv]; subst.
      * destruct (gpt_text_Some _ _ Ht) as (d & -> & Hs & ->).
        cbn [status_code content Z.eqb Pos.eqb negb]. rewrite Hs. cbn [negb]. rewrite Hx.
        assert (Hc : truthy_str (Some code) = true).
        { simpl. apply negb_true_iff, String.eqb_neq. exact Hne. }
        rewrite Hc. split; reflexivity.
      * split; reflexivity.
      * split; reflexivity.
    + cbn [nth_error] in Hnth. cbn [firstn positions].
      assert (Hrest :
        value_of (fst (gpt_scan extract mb since_ts (S base) msgs)) = v /\
        detail_positions (snd (gpt_scan extract mb since_ts (S base) msgs))
        = positions (gpt_due since_ts) (S base) (firstn (S k) msgs)).
      { apply (IH (S base) k msg v Hnth Hdue).
        - intros j m' w Hj Hn Hd. replace (S base + j)%nat with (base + S j)%nat by lia.
          apply (Hpass (S j) m' w); [lia|exact Hn|exact Hd].
        - replace (S base + k)%nat with (base + S k)%nat by lia. exact Hdec. }
      destruct (gpt_due since_ts m) eqn:Hm.
      2:{ unfold gpt_due in Hm. cbn [gpt_scan].
          destruct (truthy (g_id m)); cbn [negb andb] in *; [|exact Hrest].
          apply negb_false_iff in Hm. rewrite Hm. exact Hrest. }
      pose proof (fun w => Hpass 0%nat m w ltac:(lia) eq_refl Hm) as Hno.
      rewrite Nat.add_0_r in Hno.
      unfold gpt_due in Hm. apply andb_true_iff in Hm as [Hid Hskip].
      apply negb_true_iff in Hskip.
      cbn [gpt_scan]. rewrite Hid, Hskip. cbn [negb].
      assert (Hcont :
        value_of (fst (let '(r, tr) := gpt_scan extract mb since_ts (S base) msgs in
                       (r, EvDetailRequest base (g_id m) :: tr))) = v /\
        detail_positions (snd (let '(r, tr) := gpt_scan extract mb since_ts (S base) msgs in
                               (r, EvDetailRequest base (g_id m) :: tr)))
        = base :: positions (gpt_due since_ts) (S base) (firstn (S k) msgs)).
      { destruct (gpt_scan extract mb since_ts (S base) msgs) as [r tr].
        cbn [fst snd detail_positions] in *. destruct Hrest as [-> ->]. split; reflexivity. }
      destruct (gpt_detail_reply mb base (g_id m)) as [[st body]|e] eqn:Hd.
      2:{ exfalso. apply (Hno None). constructor. }
      cbn [status_code content].
      destruct (Z.eqb_spec st 200) as [->|Hst]; cbn [negb]; [|exact Hcont].
      destruct body as [| |d]; [exact Hcont| |].
      { exfalso. apply (Hno None). constructor. }
      destruct (truthy (gd_success d)) eqn:Hs; cbn [negb]; [|exact Hcont].
      destruct (truthy_str (extract _)) eqn:Hc; [|exact Hcont].
      exfalso.
      destruct (extract (str_or_empty (gd_content d) ++ str_or_empty (gd_html_content d)))
        as [code|] eqn:Hx; [|discriminate].
      apply (Hno (Some code)).
      eapply gpt_decides_code; [cbn; rewrite Hs; reflexivity|exact Hx|].
      intros ->. discriminate.
Qed.

Lemma moe_text_Some r text :
  moe_text r = Some text ->
  exists body, r = Return (mk_response 200 body) /\ body <> BodyInvalid /\
               text = moe_content body /\ String.eqb (moe_content body) "" = false.
Proof.
  unfold moe_text. destruct r as [[st body]|e]; [|discriminate].
  destruct st as [|q|q]; try discriminate.
  do 8 (destruct q as [q|q|]; try discriminate).
  destruct body as [| |d]; try discriminate;
    (destruct (String.eqb (moe_content _) "") eqn:Hc; [discriminate|]);
    intros H; injection H as <-; eexists; repeat split; try exact Hc; discriminate.
Qed.

Lemma moe_scan_decisive mb since_ms :
  forall msgs base k msg v,
    nth_error msgs k = Some msg ->
    moe_due since_ms msg = true ->
    (forall j m w, (j < k)%nat -> nth_error msgs j = Some m -> moe_due since_ms m = true ->
                   ~ moe_decides (moe_detail_reply mb (base + j) (py_or (m_id m) (m_messageId m))) w) ->
    moe_decides (moe_detail_reply mb (base + k) (py_or (m_id msg) (m_messageId msg))) v ->
    value_of (fst (moe_scan extract mb since_ms base msgs)) = v /\
    detail_positions (snd (moe_scan extract mb since_ms base msgs))
    = positions (moe_due since_ms) base (firstn (S k) msgs).
Proof.
  induction msgs as [|m msgs IH]; intros base k msg v Hnth Hdue Hpass Hdec.
  - destruct k; discriminate.
  - destruct k as [|k].
    + injection Hnth as ->. rewrite Nat.add_0_r in Hdec.
      cbn [firstn positions]. rewrite Hdue.
      unfold moe_due in Hdue. apply andb_true_iff in Hdue as [Hid Hskip].
      apply negb_true_iff in Hskip.
      cbn [moe_scan]. rewrite Hid, Hskip. cbn [negb].
      inversion Hdec as [r text code Ht Hx Hne Hr Hv | e He Hv | Hr Hv]; subst.
      * destruct (moe_text_Some _ _ Ht) as (body & -> & Hb & -> & Hc).
        cbn [status_code content Z.eqb Pos.eqb negb].
        assert (Hcode : truthy_str (Some code) = true).
        { simpl. apply negb_true_iff, String.eqb_neq. exact Hne. }
        destruct body as [| |d]; [|congruence|]; cbv beta iota zeta;
          rewrite Hc, Hx, Hcode; split; reflexivity.
      * split; reflexivity.
      * split; reflexivity.
    + cbn [nth_error] in Hnth. cbn [firstn positions].
      assert (Hrest :
        value_of (fst (moe_scan extract mb since_ms (S base) msgs)) = v /\
        detail_positions (snd (moe_scan extract mb since_ms (S base) msgs))
        = positions (moe_due since_ms) (S base) (firstn (S k) msgs)).
      { apply (IH (S base) k msg v Hnth Hdue).
        - intros j m' w Hj Hn Hd. replace (S base + j)%nat with (base + S j)%nat by lia.
          apply (Hpass (S j) m' w); [lia|exact Hn|exact Hd].
        - replace (S base + k)%nat with (base + S k)%nat by lia. exact Hdec. }
      destruct (moe_due since_ms m) eqn:Hm.
      2:{ unfold moe_due in Hm. cbn [moe_scan].
          destruct (truthy (py_or (m_id m) (m_messageId m))); cbn [negb andb] in *;
            [|exact Hrest].
          apply negb_false_iff in Hm. rewrite Hm. exact Hrest. }
      pose proof (fun w => Hpass 0%nat m w ltac:(lia) eq_refl Hm) as Hno.
      rewrite Nat.add_0_r in Hno.
      unfold moe_due in Hm. apply andb_true_iff in Hm as [Hid Hskip].
      apply negb_true_iff in Hskip.
      cbn [moe_scan]. rewrite Hid, Hskip. cbn [negb].
      set (id := py_or (m_id m) (m_messageId m)) in *.
      assert (Hcont :
        value_of (fst (let '(r, tr) := moe_scan extract mb since_ms (S base) msgs in
                       (r, EvDetailRequest base id :: tr))) = v /\
        detail_positions (snd (let '(r, tr) := moe_scan extract mb since_ms (S base) msgs in
                               (r, EvDetailRequest base id :: tr)))
        = base :: positions (moe_due since_ms) (S base) (firstn (S k) msgs)).
      { destruct (moe_scan extract mb since_ms (S base) msgs) as [r tr].
        cbn [fst snd detail_positions] in *. destruct Hrest as [-> ->]. split; reflexivity. }
      destruct (moe_detail_reply mb base id) as [[st bd]|e] eqn:Hd.
      2:{ exfalso. apply (Hno None). constructor. }
      cbn [status_code content].
      destruct (Z.eqb_spec st 200) as [->|Hst]; cbn [negb]; [|exact Hcont].
      assert (Hbody : forall payload : body moe_detail,
                 bd = payload -> payload <> BodyInvalid ->
                 String.eqb (moe_content payload) "" = false ->
                 truthy_str (extract (moe_content payload)) = true -> False).
      { intros payload -> Hp Hc Ht.
        destruct (extract (moe_content payload)) as [code|] eqn:Hx; [|discriminate].
        apply (Hno (Some code)).
        eapply moe_decides_code; [|exact Hx|intros ->; discriminate].
        destruct payload as [| |d]; [|congruence|]; cbn [moe_text]; rewrite Hc; reflexivity. }
      destruct bd as [| |d].
      * cbv beta iota zeta.
        destruct (String.eqb (moe_content BodyEmpty) "") eqn:Hc; [exact Hcont|].
        destruct (truthy_str (extract (moe_content BodyEmpty))) eqn:Ht; [|exact Hcont].
        exfalso. apply (Hbody BodyEmpty eq_refl); [discriminate|exact Hc|exact Ht].
      * exfalso. apply (Hno None). constructor.
      * cbv beta iota zeta.
        destruct (String.eqb (moe_content (BodyJson d)) "") eqn:Hc; [exact Hcont|].
        destruct (truthy_str (extract (moe_content (BodyJson d)))) eqn:Ht; [|exact Hcont].
        exfalso. apply (Hbody (BodyJson d) eq_refl); [discriminate|exact Hc|exact Ht].
Qed.

End Decisive.

(** A MoeMail inbox with two fresh messages; the detail request for the
    first one fails, the second one holds a code. *)
Definition broken_first_moe_mailbox : moe_mailbox :=
  {| moe_list_reply :=
       Return (mk_response 200
                 (BodyJson [Samples.moe_message_at (PInt 1700000001000);
                            Samples.moe_message_at (PInt 1700000002000)]));
     moe_detail_reply := fun pos id =>
       match pos with
       | O => Raise (Exception "connection reset")
       | _ => moe_detail_reply Samples.same_millisecond_moe_mailbox pos id
       end |}.

End MailFetch.

Module MailFetchExtras.
Import Mail MailFacts Samples MailFetch.

(** X7: which message decides a GPTMail fetch.  Take the newest ten messages
    of a usable list reply and, among them, those with an id that the time
    filter lets through.  The first of these whose detail reply is decisive
    (it holds a code; or the request raises; or its 200 body is not JSON)
    decides the fetch: the code is returned in the first case and [None] in
    the other two, even when a later message holds a code.  Details are
    requested for exactly the due messages up to that one, in order, and for
    none after it. *)
Theorem gpt_fetch_first_decisive
    (extract : string -> option string) (email : option string) (since : option datetime)
    (mb : gpt_mailbox) (p : nat) (msg : gpt_message) (v : option string) :
  let since_ts := option_map int_timestamp since in
  let out := gpt_fetch_verification_code extract email since mb in
  truthy_str email = true ->
  (p < 10)%nat ->
  nth_error (gpt_inbox mb) p = Some msg ->
  gpt_due since_ts msg = true ->
  (forall q m w, (q < p)%nat -> nth_error (gpt_inbox mb) q = Some m ->
                 gpt_due since_ts m = true ->
                 ~ gpt_decides extract (gpt_detail_reply mb q (g_id m)) w) ->
  gpt_decides extract (gpt_detail_reply mb p (g_id msg)) v ->
  fst out = v /\
  detail_positions (snd out) = positions (gpt_due since_ts) 0 (firstn (S p) (gpt_inbox mb)).
Proof.
  cbv zeta. intros Hemail Hp Hnth Hdue Hpass Hdec.
  revert Hnth Hpass.
  unfold gpt_fetch_verification_code, gpt_inbox. rewrite Hemail. cbn [negb].
  destruct (gpt_list_reply mb) as [[st body]|e]; [|destruct p; discriminate].
  destruct (Z.eqb_spec st 200) as [->|Hst].
  2:{ intros Hnth. exfalso. destruct st as [|q|q]; try (destruct p; discriminate).
      do 8 (destruct q as [q|q|]; try (destruct p; discriminate)). congruence. }
  cbn [status_code content negb Z.eqb Pos.eqb].
  destruct body as [| |payload]; try (destruct p; discriminate).
  destruct (truthy (gl_success payload)); [|destruct p; discriminate]. cbn [negb].
  destruct (gl_emails payload) as [|m emails] eqn:He; [destruct p; discriminate|].
  intros Hnth Hpass.
  cbv beta iota zeta. change (m :: firstn 9 emails) with (firstn 10 (m :: emails)).
  set (since_ts := match since with Some t => Some (int_timestamp t) | None => None end).
  assert (Hts : since_ts = option_map int_timestamp since) by (destruct since; reflexivity).
  rewrite <- Hts in *.
  destruct (gpt_scan_decisive extract mb since_ts (firstn 10 (m :: emails)) 0 p msg v)
    as [Hv Htr].
  - rewrite nth_error_firstn. destruct (Nat.ltb_spec p 10); [exact Hnth|lia].
  - exact Hdue.
  - intros j m' w Hj Hn Hd. rewrite nth_error_firstn in Hn.
    destruct (Nat.ltb_spec j 10); [|discriminate]. apply (Hpass j m' w Hj Hn Hd).
  - exact Hdec.
  - destruct (gpt_scan extract mb since_ts 0 (firstn 10 (m :: emails))) as [r tr].
    cbn [fst snd value_of detail_positions] in *. split; [exact Hv|].
    rewrite Htr, firstn_firstn. replace (Nat.min (S p) 10) with (S p) by lia. reflexivity.
Qed.

Lemma gpt_fetch_first_decisive_witness :
  fst (gpt_fetch_verification_code six_digits (Some "t1@mail.example.org") (Some half_past)
         mixed_gpt_mailbox) = Some "123456" /\
  detail_positions
    (snd (gpt_fetch_verification_code six_digits (Some "t1@mail.example.org") (Some half_past)
            mixed_gpt_mailbox)) = [1%nat].
Proof.
  apply (gpt_fetch_first_decisive six_digits (Some "t1@mail.example.org") (Some half_past)
           mixed_gpt_mailbox 1
           {| g_id := PStr "new"; g_timestamp := PInt 1700000007 |} (Some "123456")).
  - reflexivity.
  - lia.
  - reflexivity.
  - reflexivity.
  - intros q m w Hq Hn Hd. destruct q as [|q]; [|lia].
    injection Hn as <-. vm_compute in Hd. discriminate.
  - apply (gpt_decides_code six_digits _ "Your verification code is 123456" "123456");
      [reflexivity|reflexivity|discriminate].
Defined.



End MailFetchExtras.

(* ===================================================================== *)
(** * Saving a registered account: the end of [_register_one] *)
(* ===================================================================== *)

Module Accounts.

(** An account entry as [load_accounts_from_source] lists it, and the
    [config] dict of a finished login: JSON objects with scalar fields. *)
Definition account : Type := gmap string pyval.

(** The number a value compares as ([bool] is an [int]). *)
Definition numeric (v : pyval) : option Q :=
  match v with
  | PBool b => Some (inject_Z (if b then 1 else 0))
  | PInt z => Some (inject_Z z)
  | PFloat q => Some q
  | _ => None
  end.

(** [a == b] on JSON scalars. *)
Definition py_eq (a b : pyval) : bool :=
  match a, b with
  | PNone, PNone => true
  | PStr s, PStr t => String.eqb s t
  | _, _ =>
      match numeric a, numeric b with
      | Some x, Some y => Qeq_bool x y
      | _, _ => false
      end
  end.

(** [acc.get("id")] *)
Definition get_id (acc : account) : pyval :=
  match acc !! "id" with Some v => v | None => PNone end.

Definition key_error (key : string) : exn := Exception ("'" ++ key ++ "'").

(** The loop [for acc in accounts_data]: the list after [acc.update] when an
    entry matched ([updated = True; break]), [None] when the loop ran out.
    [config_data["id"]] is looked up at every entry and raises [KeyError]
    when the key is missing. *)
Fixpoint update_scan (accounts_data : list account) (config_data : account)
  : result (option (list account)) :=
  match accounts_data with
  | [] => Return None
  | acc :: rest =>
      match config_data !! "id" with
      | None => Raise (key_error "id")
      | Some cid =>
          if py_eq (get_id acc) cid
          then Return (Some ((config_data ∪ acc) :: rest))
          else
            match update_scan rest config_data with
            | Return (Some rest') => Return (Some (acc :: rest'))
            | other => other
            end
      end
  end.

(** Lines 291 to 298 of [_register_one]: the list handed to
    [_apply_accounts_update]. *)
Definition upsert_account (accounts_data : list account) (config_data : account)
  : result (list account) :=
  match update_scan accounts_data config_data with
  | Return (Some updated) => Return updated
  | Return None => Return (accounts_data ++ [config_data])%list
  | Raise e => Raise e
  end.

(** The first entry with the id [cid] is at position [i]. *)
Definition first_match (accounts_data : list account) (cid : pyval) (i : nat) (acc : account)
  : Prop :=
  accounts_data !! i = Some acc /\ py_eq (get_id acc) cid = true /\
  forall j other, (j < i)%nat -> accounts_data !! j = Some other ->
                  py_eq (get_id other) cid = false.

End Accounts.

Module AccountsExtras.
Import Accounts.

Lemma py_eq_refl (v : pyval) : py_eq v v = true.
Proof.
  destruct v as [|b|z|q|s]; cbn; try reflexivity.
  - apply Qeq_bool_iff. reflexivity.
  - apply Qeq_bool_iff. reflexivity.
  - apply Qeq_bool_iff. reflexivity.
  - apply String.eqb_refl.
Qed.

Lemma update_scan_cases accounts_data config_data cid :
  config_data !! "id" = Some cid ->
  (exists i acc, first_match accounts_data cid i acc /\
     update_scan accounts_data config_data
     = Return (Some (<[i := config_data ∪ acc]> accounts_data))) \/
  (Forall (fun acc => py_eq (get_id acc) cid = false) accounts_data /\
   update_scan accounts_data config_data = Return None).
Proof.
  intros Hid. induction accounts_data as [|acc rest IH]; cbn [update_scan].
  - right. split; [constructor|reflexivity].
  - rewrite Hid. destruct (py_eq (get_id acc) cid) eqn:Heq.
    + left. exists 0%nat, acc. split; [|reflexivity].
      split; [reflexivity|]. split; [exact Heq|]. intros j other Hj. lia.
    + destruct IH as [(i & a & (Hi & Ha & Hbefore) & ->) | (Hall & ->)].
      * left. exists (S i), a. split; [|reflexivity].
        split; [exact Hi|]. split; [exact Ha|].
        intros [|j] other Hj Hl; [injection Hl as <-; exact Heq|].
        apply (Hbefore j other); [lia|exact Hl].
      * right. split; [constructor; assumption|reflexivity].
Qed.

Lemma get_id_union config_data acc cid :
  config_data !! "id" = Some cid -> get_id (config_data ∪ acc) = cid.
Proof.
  intros Hid. unfold get_id.
  rewrite (lookup_union_Some_l config_data acc "id" cid Hid). reflexivity.
Qed.

Lemma update_scan_again accounts_data config_data cid i acc :
  config_data !! "id" = Some cid ->
  first_match accounts_data cid i acc ->
  update_scan (<[i := config_data ∪ acc]> accounts_data) config_data
  = Return (Some (<[i := config_data ∪ acc]> accounts_data)).
Proof.
  intros Hid. revert i. induction accounts_data as [|a rest IH]; intros i (Hi & Ha & Hbefore).
  - destruct i; discriminate.
  - destruct i as [|i]; cbn [update_scan].
    + injection Hi as ->.
      change (<[0%nat := config_data ∪ acc]> (acc :: rest)) with ((config_data ∪ acc) :: rest).
      cbn [update_scan]. rewrite Hid, (get_id_union _ _ _ Hid), py_eq_refl.
      rewrite (assoc_L (∪)), (idemp_L (∪)). reflexivity.
    + change (<[S i := config_data ∪ acc]> (a :: rest))
        with (a :: <[i := config_data ∪ acc]> rest).
      cbn [update_scan]. rewrite Hid.
      rewrite (Hbefore 0%nat a ltac:(lia) eq_refl).
      rewrite (IH i); [reflexivity|].
      split; [exact Hi|]. split; [exact Ha|].
      intros j other Hj Hl. apply (Hbefore (S j) other); [lia|exact Hl].
Qed.

Lemma update_scan_appended accounts_data config_data cid :
  config_data !! "id" = Some cid ->
  Forall (fun acc => py_eq (get_id acc) cid = false) accounts_data ->
  update_scan (accounts_data ++ [config_data]) config_data
  = Return (Some (accounts_data ++ [config_data])%list).
Proof.
  intros Hid Hall. induction Hall as [|a rest Ha Hall IH].
  - change ([] ++ [config_data])%list with [config_data].
    cbn [update_scan]. rewrite Hid. unfold get_id. rewrite Hid, py_eq_refl.
    rewrite (idemp_L (∪)). reflexivity.
  - change ((a :: rest) ++ [config_data])%list with (a :: (rest ++ [config_data]))%list.
    cbn [update_scan]. rewrite Hid, Ha, IH. reflexivity.
Qed.

(** X9: saving the configuration of a registered account.  With an "id" in
    the configuration, the save never fails and either merges it into the
    first entry of the list that has this id (the fields of the
    configuration win, the other fields of the entry stay, every other
    entry, later ones with the same id included, stays as it is) or, when no
    entry has this id, appends it at the end; saving the same configuration
    again changes nothing.  Without an "id", the save raises [KeyError]
    unless the list is empty, in which case the configuration becomes its
    only entry. *)
Theorem upsert_account_merges_or_appends
    (accounts_data : list account) (config_data : account) :
  (forall cid, config_data !! "id" = Some cid ->
     exists saved,
       upsert_account accounts_data config_data = Return saved /\
       upsert_account saved config_data = Return saved /\
       ((exists i acc, first_match accounts_data cid i acc /\
           saved = <[i := config_data ∪ acc]> accounts_data /\
           length saved = length accounts_data /\
           (forall k v, config_data !! k = Some v -> (config_data ∪ acc) !! k = Some v) /\
           (forall k, config_data !! k = None -> (config_data ∪ acc) !! k = acc !! k)) \/
        (Forall (fun acc => py_eq (get_id acc) cid = false) accounts_data /\
         saved = (accounts_data ++ [config_data])%list))) /\
  (config_data !! "id" = None ->
     (accounts_data <> [] -> upsert_account accounts_data config_data = Raise (key_error "id")) /\
     upsert_account [] config_data = Return [config_data]).
Proof.
  split.
  - intros cid Hid. unfold upsert_account at 1.
    destruct (update_scan_cases accounts_data config_data cid Hid)
      as [(i & acc & Hfirst & ->) | (Hall & ->)].
    + exists (<[i := config_data ∪ acc]> accounts_data).
      split; [reflexivity|]. split.
      * unfold upsert_account.
        rewrite (update_scan_again _ _ cid i acc Hid Hfirst). reflexivity.
      * left. exists i, acc. split; [exact Hfirst|]. split; [reflexivity|].
        split; [apply length_insert|]. split.
        -- intros k v Hk. apply lookup_union_Some_l. exact Hk.
        -- intros k Hk. apply lookup_union_r. exact Hk.
    + exists (accounts_data ++ [config_data])%list.
      split; [reflexivity|]. split.
      * unfold upsert_account. rewrite (update_scan_appended _ _ cid Hid Hall). reflexivity.
      * right. split; [exact Hall|reflexivity].
  - intros Hid. split; [|reflexivity].
    intros Hne. unfold upsert_account.
    destruct accounts_data as [|acc rest]; [congruence|].
    cbn [update_scan]. rewrite Hid. reflexivity.
Qed.

End AccountsExtras.

(* ===================================================================== *)
(** * The pauses of the login flow *)
(* ===================================================================== *)

Module Pacing.
Import Automation AutomationFacts Samples.

(** [random.uniform(a, b)] answers within its bounds. *)
Definition honest (env : environment) : Prop :=
  forall h a b, (a <= b)%Q ->
    (a <= env Q h (RandomUniform a b))%Q /\ (env Q h (RandomUniform a b) <= b)%Q.

(** The delay bounds as [__init__] leaves them. *)
Definition paced (self : settings) : Prop :=
  0 <= random_delay_min_ms self <= random_delay_max_ms self.

(** The length of a [time.sleep]. *)
Definition sleep_of (c : made_call) : option Q :=
  match c with
  | Made c0 _ =>
      match c0 with
      | TimeSleep seconds => Some seconds
      | _ => None
      end
  end.

Fixpoint sleeps (h : list made_call) : list Q :=
  match h with
  | [] => []
  | c :: older =>
      match sleep_of c with
      | Some q => q :: sleeps older
      | None => sleeps older
      end
  end.

(** No [time.sleep] of the history was given a negative length (for which
    it raises [ValueError]). *)
Definition rested (h : list made_call) : Prop := Forall (fun q => (0 <= q)%Q) (sleeps h).

Definition gentle {A : Type} (m : M A) : Prop :=
  forall s, rested (history s) -> rested (history (snd (m s))).

Create HintDb flow_gentle discriminated.

Lemma init_paced user_agent proxy headless stealth_enabled webrtc_protect timezone
    geo_latitude geo_longitude geo_accuracy random_delay_min_ms random_delay_max_ms
    verification_poll_attempts verification_poll_interval_seconds
    verification_resend_clicks warmup_enabled warmup_duration_seconds timeout
    has_log_callback :
  paced (init user_agent proxy headless stealth_enabled webrtc_protect timezone
           geo_latitude geo_longitude geo_accuracy random_delay_min_ms random_delay_max_ms
           verification_poll_attempts verification_poll_interval_seconds
           verification_resend_clicks warmup_enabled warmup_duration_seconds timeout
           has_log_callback).
Proof. unfold paced, init. cbn. lia. Qed.

Lemma stage_honest (sc : scene) : honest (stage sc).
Proof. intros h a b Hab. cbn. split; [apply Qle_refl|exact Hab]. Qed.

Lemma Qmax0_nonneg (q : Q) : (0 <= Qmax0 q)%Q.
Proof.
  unfold Qmax0. destruct (Qle_bool 0 q) eqn:H; [apply Qle_bool_iff; exact H|apply Qle_refl].
Qed.

Section Gentle.

Variable env : environment.
Variable self : settings.
Hypothesis Hhonest : honest env.
Hypothesis Hpaced : paced self.

Lemma gentle_ret {A : Type} (a : A) : gentle (ret a).
Proof. intros s H. exact H. Qed.

Lemma gentle_raise {A : Type} (e : exn) : gentle (raise (A:=A) e).
Proof. intros s H. exact H. Qed.

Lemma gentle_lift {A : Type} (r : result A) : gentle (lift r).
Proof. intros s H. exact H. Qed.

Lemma gentle_get {A : Type} (f : state -> A) : gentle (get f).
Proof. intros s H. exact H. Qed.

Lemma gentle_set_context b : gentle (set_context b).
Proof. intros s H. exact H. Qed.

Lemma gentle_set_playwright b : gentle (set_playwright b).
Proof. intros s H. exact H. Qed.

Lemma gentle_set_page b : gentle (set_page b).
Proof. intros s H. exact H. Qed.

Lemma gentle_set_user_data_dir d : gentle (set_user_data_dir d).
Proof. intros s H. exact H. Qed.

Lemma gentle_bind {A B : Type} (m : M A) (k : A -> M B) :
  gentle m -> (forall a, gentle (k a)) -> gentle (bind m k).
Proof.
  intros Hm Hk s Hs. unfold bind. specialize (Hm s Hs).
  destruct (m s) as [[a|e] s1]; cbn [snd] in *; [|exact Hm].
  apply (Hk a s1 Hm).
Qed.

Lemma gentle_try_except {A : Type} (m : M A) (h : exn -> M A) :
  gentle m -> (forall e, gentle (h e)) -> gentle (try_except m h).
Proof.
  intros Hm Hh s Hs. unfold try_except. specialize (Hm s Hs).
  destruct (m s) as [[a|e] s1]; cbn [snd] in *; [exact Hm|].
  apply (Hh e s1 Hm).
Qed.

Lemma gentle_try_except_reraising_cancel {A : Type} (m : M A) (h : exn -> M A) :
  gentle m -> (forall e, gentle (h e)) -> gentle (try_except_reraising_cancel m h).
Proof.
  intros Hm Hh s Hs. unfold try_except_reraising_cancel. specialize (Hm s Hs).
  destruct (m s) as [[a|[msg|msg]] s1]; cbn [snd] in *; [exact Hm|exact Hm|].
  apply (Hh _ s1 Hm).
Qed.

Lemma gentle_try_finally {A : Type} (m : M A) (f : M unit) :
  gentle m -> gentle f -> gentle (try_finally m f).
Proof.
  intros Hm Hf s Hs. unfold try_finally. specialize (Hm s Hs).
  destruct (m s) as [r s1]. cbn [snd] in Hm. specialize (Hf s1 Hm).
  destruct (f s1) as [[u|e] s2]; exact Hf.
Qed.

Lemma gentle_perform {T : Type} (c : call T) :
  (forall a, sleep_of (Made c a) = None) -> gentle (perform env c).
Proof.
  intros Hc s Hs. unfold perform, record_call, rested. cbn [snd history sleeps].
  rewrite Hc. exact Hs.
Qed.

Lemma gentle_invoke {T : Type} (c : call (result T)) :
  (forall a, sleep_of (Made c a) = None) -> gentle (invoke env c).
Proof.
  intros Hc s Hs. unfold invoke, record_call, rested. cbn [snd history sleeps].
  rewrite Hc. exact Hs.
Qed.

(** [time.sleep(random.uniform(a, b))] with [0 <= a <= b], and what
    follows it. *)
Lemma gentle_random_pause {B : Type} (a b : Q) (k : unit -> M B) :
  (0 <= a)%Q -> (a <= b)%Q -> (forall u, gentle (k u)) ->
  gentle (bind (perform env (RandomUniform a b))
               (fun p => bind (perform env (TimeSleep p)) k)).
Proof.
  intros Ha Hab Hk s Hs. unfold bind, perform. cbn [snd]. apply Hk.
  unfold record_call, rested. cbn [history sleeps sleep_of].
  constructor; [|exact Hs].
  destruct (Hhonest (history s) a b Hab) as [Hlow _].
  eapply Qle_trans; [exact Ha|exact Hlow].
Qed.

Lemma _sleep_gentle base : gentle (_sleep env self base).
Proof.
  intros s Hs. unfold _sleep, bind, perform, ret, record_call, rested.
  pose proof (Qmax0_nonneg base) as Hbase.
  destruct (0 <? random_delay_max_ms self) eqn:Hmax; cbn [snd history sleeps sleep_of].
  - constructor; [|exact Hs].
    assert (Hrange : (inject_Z (random_delay_min_ms self)
                      <= inject_Z (random_delay_max_ms self))%Q).
    { rewrite <- Zle_Qle. apply Hpaced. }
    destruct (Hhonest (history s) _ _ Hrange) as [Hlow _].
    assert (Hmin : (0 <= inject_Z (random_delay_min_ms self))%Q).
    { change 0%Q with (inject_Z 0). rewrite <- Zle_Qle. apply Hpaced. }
    set (u := env Q (history s) _) in *.
    assert (Hu : (0 <= u / 1000)%Q).
    { apply Qle_shift_div_l; [reflexivity|]. lra. }
    revert Hu. generalize (u / 1000)%Q. intros extra Hextra. lra.
  - constructor; [|exact Hs]. lra.
Qed.

Lemma _log_gentle level message : gentle (_log env self level message).
Proof.
  unfold _log. destruct (has_log_callback self); [|apply gentle_ret].
  apply gentle_try_except_reraising_cancel; [|intros; apply gentle_ret].
  apply gentle_invoke. reflexivity.
Qed.

Lemma second_gentle l : gentle (second l).
Proof. unfold second. destruct (nth_error l 1); [apply gentle_ret|apply gentle_raise]. Qed.

#[local] Hint Resolve _sleep_gentle _log_gentle second_gentle : flow_gentle.

Ltac ease :=
  repeat first
    [ apply gentle_ret | apply gentle_raise | apply gentle_lift | apply gentle_get
    | apply gentle_set_context | apply gentle_set_playwright | apply gentle_set_page
    | apply gentle_set_user_data_dir
    | solve [auto with flow_gentle nocore]
    | apply gentle_perform; reflexivity
    | apply gentle_invoke; reflexivity
    | apply gentle_bind; [|intros]
    | apply gentle_try_except; [|intros]
    | match goal with
      | |- gentle (if ?b then _ else _) => destruct b
      | |- gentle (match ?x with _ => _ end) => destruct x
      end ].

Lemma _query_gentle selector timeout_ms : gentle (_query env selector timeout_ms).
Proof. unfold _query. ease. Qed.

Lemma _query_all_gentle selector : gentle (_query_all env selector).
Proof. unfold _query_all. ease. Qed.

Lemma _save_screenshot_gentle name : gentle (_save_screenshot env name).
Proof. unfold _save_screenshot. ease. Qed.

Lemma button_text_gentle post btn : gentle (button_text env post btn).
Proof. unfold button_text. ease. Qed.

#[local] Hint Resolve _query_gentle _query_all_gentle _save_screenshot_gentle
  button_text_gentle : flow_gentle.

Lemma first_found_gentle timeout_ms selectors : gentle (first_found env timeout_ms selectors).
Proof. induction selectors as [|selector rest IH]; simpl; ease. Qed.

#[local] Hint Resolve first_found_gentle : flow_gentle.

Lemma code_input_rounds_gentle rounds : gentle (code_input_rounds env self rounds).
Proof. induction rounds as [|k IH]; simpl; ease. Qed.

Lemma _wait_for_code_input_gentle timeout : gentle (_wait_for_code_input env self timeout).
Proof. apply code_input_rounds_gentle. Qed.

Lemma _poll_for_verification_code_gentle since_time :
  gentle (_poll_for_verification_code env self since_time).
Proof. unfold _poll_for_verification_code. ease. Qed.

Lemma type_chars_gentle element chars : gentle (type_chars env element chars).
Proof. induction chars as [|c rest IH]; simpl; ease. Qed.

Lemma mouse_moves_gentle n : gentle (mouse_moves env n).
Proof.
  induction n as [|k IH]; simpl; [apply gentle_ret|].
  apply gentle_bind; [ease|intros x].
  apply gentle_bind; [ease|intros y].
  apply gentle_bind; [ease|intros _].
  apply gentle_random_pause; [lra|lra|intros _; exact IH].
Qed.

#[local] Hint Resolve _wait_for_code_input_gentle _poll_for_verification_code_gentle
  type_chars_gentle mouse_moves_gentle : flow_gentle.

Lemma _simulate_human_behavior_gentle : gentle (_simulate_human_behavior env).
Proof. unfold _simulate_human_behavior. ease. Qed.

Lemma _simulate_human_input_gentle element text :
  gentle (_simulate_human_input env self element text).
Proof.
  unfold _simulate_human_input. apply gentle_try_except; [|intros; ease].
  apply gentle_bind; [ease|intros _].
  apply gentle_random_pause; [lra|lra|intros _].
  apply gentle_bind; [ease|intros _].
  apply gentle_random_pause; [lra|lra|intros _]. ease.
Qed.

Lemma find_username_submit_gentle buttons : gentle (find_username_submit env buttons).
Proof. induction buttons as [|btn rest IH]; simpl; ease. Qed.

Lemma find_submit_button_gentle buttons : gentle (find_submit_button env buttons).
Proof. induction buttons as [|btn rest IH]; simpl; ease. Qed.

Lemma wait_redirect_gentle rounds current_url :
  gentle (wait_redirect env self rounds current_url).
Proof. revert current_url. induction rounds as [|k IH]; intros current_url; simpl; ease. Qed.

Lemma _handle_agreement_page_gentle : gentle (_handle_agreement_page env self).
Proof. unfold _handle_agreement_page. ease. Qed.

Lemma compute_expires_at_gentle ses_obj : gentle (compute_expires_at env ses_obj).
Proof. unfold compute_expires_at. destruct ses_obj as [[n v [e|]]|]; ease. Qed.

#[local] Hint Resolve _simulate_human_behavior_gentle _simulate_human_input_gentle
  find_username_submit_gentle find_submit_button_gentle wait_redirect_gentle
  _handle_agreement_page_gentle compute_expires_at_gentle : flow_gentle.

Lemma _extract_config_gentle email : gentle (_extract_config env self email).
Proof. unfold _extract_config. ease. Qed.

Lemma _cleanup_user_data_gentle dir : gentle (_cleanup_user_data env dir).
Proof. unfold _cleanup_user_data. destruct dir as [d|]; ease. Qed.

#[local] Hint Resolve _extract_config_gentle _cleanup_user_data_gentle : flow_gentle.

Lemma _cleanup_gentle : gentle (_cleanup env).
Proof. unfold _cleanup. ease. Qed.

Lemma _create_context_gentle : gentle (_create_context env self).
Proof. unfold _create_context. ease. Qed.

Lemma warmup_visits_gentle urls : gentle (warmup_visits env self urls).
Proof. induction urls as [|url rest IH]; simpl; ease. Qed.

Lemma _run_warmup_gentle : gentle (_run_warmup env self).
Proof. apply warmup_visits_gentle. Qed.

Lemma open_login_link_gentle email : gentle (open_login_link env self email).
Proof. unfold open_login_link. ease. Qed.

Lemma send_code_scan_gentle buttons : gentle (send_code_scan env self buttons).
Proof. induction buttons as [|btn rest IH]; simpl; ease. Qed.

Lemma resend_scan_gentle buttons : gentle (resend_scan env self buttons).
Proof. induction buttons as [|btn rest IH]; simpl; ease. Qed.

#[local] Hint Resolve _cleanup_gentle _create_context_gentle _run_warmup_gentle
  open_login_link_gentle send_code_scan_gentle resend_scan_gentle : flow_gentle.

Lemma _click_send_code_button_gentle : gentle (_click_send_code_button env self).
Proof. unfold _click_send_code_button, query_or. ease. Qed.

Lemma _click_resend_code_button_gentle : gentle (_click_resend_code_button env self).
Proof. unfold _click_resend_code_button. ease. Qed.

Lemma _handle_username_setup_gentle : gentle (_handle_username_setup env self).
Proof. unfold _handle_username_setup. ease. Qed.

#[local] Hint Resolve _click_send_code_button_gentle _click_resend_code_button_gentle
  _handle_username_setup_gentle : flow_gentle.

Lemma resend_loop_gentle todo attempt : gentle (resend_loop env self todo attempt).
Proof. revert attempt. induction todo as [|k IH]; intros attempt; simpl; ease. Qed.

#[local] Hint Resolve resend_loop_gentle : flow_gentle.

Lemma obtain_code_gentle send_time : gentle (obtain_code env self send_time).
Proof. unfold obtain_code. ease. Qed.

Lemma submit_attempts_gentle todo attempt code_input current_url :
  gentle (submit_attempts env self todo attempt code_input current_url).
Proof.
  revert attempt current_url.
  induction todo as [|k IH]; intros attempt current_url; simpl; ease.
Qed.

Lemma business_params_rounds_gentle rounds : gentle (business_params_rounds env self rounds).
Proof. induction rounds as [|k IH]; simpl; ease. Qed.

Lemma _wait_for_business_params_gentle timeout :
  gentle (_wait_for_business_params env self timeout).
Proof. apply business_params_rounds_gentle. Qed.

#[local] Hint Resolve obtain_code_gentle submit_attempts_gentle
  _wait_for_business_params_gentle : flow_gentle.

Lemma await_params_and_extract_gentle email : gentle (await_params_and_extract env self email).
Proof. unfold await_params_and_extract. cbv zeta. ease. Qed.

#[local] Hint Resolve await_params_and_extract_gentle : flow_gentle.

Lemma submit_code_and_extract_gentle email code :
  gentle (submit_code_and_extract env self email code).
Proof. unfold submit_code_and_extract, query_or. ease. Qed.

#[local] Hint Resolve submit_code_and_extract_gentle : flow_gentle.

Lemma request_code_and_verify_gentle email send_time :
  gentle (request_code_and_verify env self email send_time).
Proof. unfold request_code_and_verify. ease. Qed.

#[local] Hint Resolve request_code_and_verify_gentle : flow_gentle.

Lemma _run_flow_gentle email : gentle (_run_flow env self email).
Proof. unfold _run_flow. ease. Qed.

#[local] Hint Resolve _run_flow_gentle : flow_gentle.

Lemma login_body_gentle email : gentle (login_body env self email).
Proof. unfold login_body. ease. Qed.

Lemma login_and_extract_gentle email : gentle (login_and_extract env self email).
Proof.
  unfold login_and_extract.
  apply gentle_try_finally; [|apply _cleanup_gentle].
  apply gentle_try_except_reraising_cancel; [apply login_body_gentle|intros; ease].
Qed.

End Gentle.

End Pacing.

Module PacingExtras.
Import Automation AutomationFacts Samples Pacing.

(** X10: no pause of a login attempt has a negative length, so that
    [time.sleep] never raises [ValueError].  Whatever arguments the instance
    was built with, [__init__] leaves [0 <= random_delay_min_ms <=
    random_delay_max_ms]; then, with a [random.uniform] that answers within
    its bounds, every [time.sleep] that [login_and_extract] makes, through
    [_sleep] or directly, is given a length of at least 0. *)
Theorem pauses_are_never_negative
    (env : environment) (user_agent proxy : string)
    (headless stealth_enabled webrtc_protect : bool) (timezone : string)
    (geo_latitude geo_longitude : option Q) (geo_accuracy : Z)
    (random_delay_min_ms random_delay_max_ms : Z)
    (verification_poll_attempts verification_poll_interval_seconds : Z)
    (verification_resend_clicks : Z) (warmup_enabled : bool)
    (warmup_duration_seconds timeout : Z) (has_log_callback : bool)
    (email : string) (s : state) :
  let self :=
    init user_agent proxy headless stealth_enabled webrtc_protect timezone
      geo_latitude geo_longitude geo_accuracy random_delay_min_ms random_delay_max_ms
      verification_poll_attempts verification_poll_interval_seconds
      verification_resend_clicks warmup_enabled warmup_duration_seconds timeout
      has_log_callback in
  honest env -> rested (history s) ->
  rested (history (snd (login_and_extract env self email s))).
Proof.
  cbv zeta. intros Hhonest Hs.
  apply (login_and_extract_gentle env _ Hhonest (init_paced _ _ _ _ _ _ _ _ _ _ _ _ _ _ _ _ _ _)
           email s Hs).
Qed.

Lemma pauses_are_never_negative_witness :
  rested (history (snd (login_and_extract (stage (scene_code_at_third_poll)) sample_settings
                          "t1@mail.example.org" initial_state))).
Proof.
  apply (pauses_are_never_negative (stage (scene_code_at_third_poll))
           "" "" true true true "" None None 50 120 380 3 4 4 true 5 60 true
           "t1@mail.example.org" initial_state).
  - apply stage_honest.
  - constructor.
Defined.

End PacingExtras.

(* ===================================================================== *)
(** * The login flow and the mailbox client together *)
(* ===================================================================== *)

Module PollBudgetExtras.
Import Mail MailFacts Automation AutomationFacts.

(** X11: what a poll of the login flow costs.  [_poll_for_verification_code]
    makes one call, [poll_for_code(timeout=attempts * interval,
    interval=interval, since_time=since_time)], with [attempts] and
    [interval] the configured numbers raised to at least 1, and returns its
    answer.  Called so, [poll_for_code] of either mailbox client returns
    (no division by zero, no negative sleep) after at most [attempts] fetches
    with a sleep of [interval] seconds between consecutive ones, and it gives
    up only after exactly [attempts] fetches. *)
Theorem poll_budget_is_the_configured_attempts
    (extract : string -> option string) (env : environment) (self : settings)
    (since_time : datetime) (s : state)
    (email email_id : option string)
    (gpt_server : nat -> gpt_mailbox) (moe_server : nat -> moe_mailbox) :
  let attempts := Z.max 1 (verification_poll_attempts self) in
  let interval := Z.max 1 (verification_poll_interval_seconds self) in
  let call := PollForCode (attempts * interval) interval since_time in
  let gpt := gpt_poll_for_code extract email gpt_server (attempts * interval) interval
               (Some since_time) in
  let moe := moe_poll_for_code extract email_id moe_server (attempts * interval) interval
               (Some since_time) in
  _poll_for_verification_code env self since_time s
  = (env _ (history s) call, record_call (Made call (env _ (history s) call)) s) /\
  (exists k r, fst gpt = Return r /\ (1 <= k <= Z.to_nat attempts)%nat /\
               cycle_events (snd gpt) = cycles k interval /\
               (truthy_str r = false -> r = None /\ k = Z.to_nat attempts)) /\
  (exists k r, fst moe = Return r /\ (1 <= k <= Z.to_nat attempts)%nat /\
               cycle_events (snd moe) = cycles k interval /\
               (truthy_str r = false -> r = None /\ k = Z.to_nat attempts)).
Proof.
  cbv zeta.
  set (attempts := Z.max 1 (verification_poll_attempts self)).
  set (interval := Z.max 1 (verification_poll_interval_seconds self)).
  assert (Ha : 1 <= attempts) by (subst attempts; lia).
  assert (Hi : 1 <= interval) by (subst interval; lia).
  assert (Hbound : Z.to_nat (Z.max 1 (attempts * interval / interval)) = Z.to_nat attempts).
  { rewrite Z.div_mul by lia. f_equal. lia. }
  split; [reflexivity|]. split.
  - unfold gpt_poll_for_code.
    destruct (poll_polled
                (fun k => gpt_fetch_verification_code extract email (Some since_time)
                            (gpt_server k))
                (attempts * interval) interval) as (k & r & Hr & Hk & Hc & _ & Hlast).
    + intros k. apply (gpt_fetch_trace extract email (Some since_time) (gpt_server k)).
    + exact Hi.
    + rewrite Hbound in Hk, Hlast. exists k, r.
      split; [exact Hr|]. split; [exact Hk|]. split; [exact Hc|].
      intros Hnone. destruct Hlast as [(Ht & _) | (-> & -> & _)]; [congruence|auto].
  - unfold moe_poll_for_code.
    destruct (poll_polled
                (fun k => moe_fetch_verification_code extract email_id (Some since_time)
                            (moe_server k))
                (attempts * interval) interval) as (k & r & Hr & Hk & Hc & _ & Hlast).
    + intros k. apply (moe_fetch_trace extract email_id (Some since_time) (moe_server k)).
    + exact Hi.
    + rewrite Hbound in Hk, Hlast. exists k, r.
      split; [exact Hr|]. split; [exact Hk|]. split; [exact Hc|].
      intros Hnone. destruct Hlast as [(Ht & _) | (-> & -> & _)]; [congruence|auto].
Qed.

End PollBudgetExtras.

(* ===================================================================== *)
(** * Reading the account out of the address *)
(* ===================================================================== *)

Module Address.
Import Automation AutomationFacts.

(** No occurrence of [sep] in [a ++ b] starts inside [a]. *)
Fixpoint clear (sep a b : string) : bool :=
  match a with
  | EmptyString => true
  | String c t => negb (String.prefix sep (a ++ b)) && clear sep t b
  end.

(** [ch in s] for a character. *)
Definition has (ch : ascii) (s : string) : bool := contains (String ch "") s.

Lemma sapp_cons (x : ascii) (a b : string) : String x a ++ b = String x (a ++ b).
Proof. reflexivity. Qed.

Lemma sapp_nil_l (a : string) : "" ++ a = a.
Proof. reflexivity. Qed.

Lemma sapp_assoc (a b c : string) : (a ++ b) ++ c = a ++ (b ++ c).
Proof. induction a as [|x a IH]; [reflexivity|rewrite !sapp_cons, IH; reflexivity]. Qed.

Lemma sapp_nil_r (a : string) : a ++ "" = a.
Proof. induction a as [|x a IH]; [reflexivity|rewrite sapp_cons, IH; reflexivity]. Qed.

Lemma prefix_nil (s : string) : String.prefix "" s = true.
Proof. destruct s; reflexivity. Qed.

Lemma prefix_app_self (sep post : string) : String.prefix sep (sep ++ post) = true.
Proof.
  induction sep as [|c sep IH]; [destruct post; reflexivity|].
  rewrite sapp_cons. cbn [String.prefix].
  destruct (ascii_dec c c); [exact IH|congruence].
Qed.

Lemma prefix_split (sep s : string) :
  String.prefix sep s = true -> exists r, s = sep ++ r.
Proof.
  revert s. induction sep as [|c sep IH]; intros s H; [exists s; reflexivity|].
  destruct s as [|d s]; [discriminate|]. cbn [String.prefix] in H.
  destruct (ascii_dec c d) as [->|]; [|discriminate].
  destruct (IH s H) as (r & ->). exists r. reflexivity.
Qed.

(** A prefix test looks at no more characters than the prefix has. *)
Lemma prefix_app_long (sep a b : string) :
  (String.length sep <= String.length a)%nat ->
  String.prefix sep (a ++ b) = String.prefix sep a.
Proof.
  revert a. induction sep as [|c sep IH]; intros a Hlen;
    [destruct a, b; reflexivity|].
  destruct a as [|d a]; cbn [String.length] in Hlen; [lia|].
  rewrite sapp_cons. cbn [String.prefix].
  destruct (ascii_dec c d); [apply IH; lia|reflexivity].
Qed.

Lemma slength_app (a b : string) :
  String.length (a ++ b) = (String.length a + String.length b)%nat.
Proof. induction a as [|x a IH]; simpl; [reflexivity|rewrite IH; reflexivity]. Qed.

Lemma contains_cons (sep : string) (c : ascii) (t : string) :
  contains sep (String c t) = false ->
  String.prefix sep (String c t) = false /\ contains sep t = false.
Proof. cbn [contains]. intros H. apply orb_false_iff in H. exact H. Qed.

Lemma contains_app_sep (sep a b : string) : contains sep (a ++ sep ++ b) = true.
Proof.
  induction a as [|c a IH].
  - rewrite sapp_nil_l. destruct (sep ++ b) as [|d t] eqn:E.
    + destruct sep; [reflexivity|discriminate].
    + cbn [contains]. rewrite <- E, prefix_app_self. reflexivity.
  - change (String c a ++ sep ++ b) with (String c (a ++ sep ++ b)).
    cbn [contains]. rewrite IH. apply orb_true_r.
Qed.

(** The first occurrence: [sep] does not occur in [a] followed by all of
    [sep] but its last character. *)
Lemma clear_before_first (sep init : string) (lastc : ascii) (a post : string) :
  sep = init ++ String lastc "" ->
  contains sep (a ++ init) = false ->
  clear sep a (sep ++ post) = true.
Proof.
  intros Hsep. induction a as [|c a IH]; intros Hc; [reflexivity|].
  change (String c a ++ init) with (String c (a ++ init)) in Hc.
  apply contains_cons in Hc as [Hp Hrest].
  cbn [clear]. rewrite (IH Hrest), andb_true_r.
  apply negb_true_iff.
  rewrite Hsep at 2. rewrite sapp_assoc.
  rewrite <- (sapp_assoc (String c a) init).
  rewrite prefix_app_long; [exact Hp|].
  rewrite Hsep, !slength_app. cbn. lia.
Qed.

Lemma has_app (ch : ascii) (a b : string) : has ch (a ++ b) = has ch a || has ch b.
Proof.
  unfold has. induction a as [|c a IH].
  - rewrite sapp_nil_l. destruct b; reflexivity.
  - change (String c a ++ b) with (String c (a ++ b)). cbn [contains].
    rewrite IH. cbn [String.prefix]. destruct (ascii_dec ch c).
    + rewrite !prefix_nil. reflexivity.
    + reflexivity.
Qed.

Lemma has_cons (ch c : ascii) (t : string) :
  has ch (String c t) = Ascii.eqb ch c || has ch t.
Proof.
  unfold has. cbn [contains String.prefix].
  destruct (ascii_dec ch c) as [->|Hne].
  - rewrite Ascii.eqb_refl, prefix_nil. reflexivity.
  - apply Ascii.eqb_neq in Hne. rewrite Hne. reflexivity.
Qed.

(** Two ways to cut the same string. *)
Lemma sapp_eq_app (a b c d : string) :
  a ++ b = c ++ d ->
  (exists u, c = a ++ u /\ b = u ++ d) \/ (exists u, a = c ++ u /\ d = u ++ b).
Proof.
  revert c. induction a as [|x a IH]; intros c H.
  - left. exists c. split; [reflexivity|exact H].
  - destruct c as [|y c].
    + right. exists (String x a). split; [reflexivity|]. symmetry. exact H.
    + cbn in H. injection H as -> H.
      destruct (IH c H) as [(u & -> & ->) | (u & -> & ->)].
      * left. exists u. split; reflexivity.
      * right. exists u. split; reflexivity.
Qed.

(** No occurrence starts inside [a] when the last character of [sep] is not
    in [a] and [b] is empty or starts with a character that is none of the
    later characters of [sep]. *)
Lemma clear_by_chars (sep init : string) (lastc : ascii) (a b : string) :
  sep = init ++ String lastc "" ->
  has lastc a = false ->
  match b with
  | EmptyString => True
  | String ch _ => has ch (match sep with String _ t => t | EmptyString => "" end) = false
  end ->
  clear sep a b = true.
Proof.
  intros Hsep Ha Hb. induction a as [|c a IH]; [reflexivity|].
  rewrite has_cons in Ha. apply orb_false_iff in Ha as [Hc Hrest].
  cbn [clear]. rewrite (IH Hrest), andb_true_r. apply negb_true_iff.
  destruct (String.prefix sep (String c a ++ b)) eqn:Hp; [exfalso|reflexivity].
  apply prefix_split in Hp as (r & Hr).
  assert (Hlast : forall x, has lastc (sep ++ x) = true).
  { intros x. rewrite Hsep, sapp_assoc, has_app, sapp_cons.
    rewrite has_cons, Ascii.eqb_refl. apply orb_true_r. }
  destruct (sapp_eq_app _ _ _ _ Hr) as [(u & Hu & Hbu) | (u & Hu & _)].
  - (* sep = String c a ++ u, b = u ++ r *)
    destruct u as [|ch u].
    + rewrite sapp_nil_r in Hu. specialize (Hlast ""). rewrite sapp_nil_r, Hu in Hlast.
      rewrite has_cons, Hc, Hrest in Hlast. discriminate.
    + subst b. rewrite sapp_cons in Hb. rewrite Hu in Hb.
      rewrite sapp_cons in Hb. rewrite has_app, has_cons, Ascii.eqb_refl in Hb.
      rewrite orb_true_r in Hb. discriminate.
  - specialize (Hlast u). rewrite <- Hu, has_cons, Hc, Hrest in Hlast. discriminate.
Qed.

(** A separator just matched is dropped. *)
Lemma split_go_skip (sep x acc post : string) :
  split_go sep (String.length x) acc (x ++ post) = split_go sep 0 acc post.
Proof.
  induction x as [|c x IH]; [reflexivity|].
  rewrite sapp_cons. simpl String.length. cbn [split_go]. exact IH.
Qed.

Lemma split_go_hit (sep acc post : string) :
  sep <> "" ->
  split_go sep 0 acc (sep ++ post) = acc :: split_go sep 0 "" post.
Proof.
  intros Hne. destruct sep as [|c sep']; [congruence|].
  pose proof (prefix_app_self (String c sep') post) as Hp.
  change (String c sep' ++ post) with (String c (sep' ++ post)) in *.
  cbn [split_go]. rewrite Hp.
  replace (String.length (String c sep') - 1)%nat with (String.length sep')
    by (simpl; lia).
  f_equal. apply split_go_skip.
Qed.

Lemma split_go_through (sep a acc b : string) :
  clear sep a b = true ->
  split_go sep 0 acc (a ++ b) = split_go sep 0 (acc ++ a) b.
Proof.
  revert acc. induction a as [|c a IH]; intros acc Hc.
  - rewrite sapp_nil_r. reflexivity.
  - cbn [clear] in Hc. apply andb_true_iff in Hc as [Hp Hrest].
    apply negb_true_iff in Hp.
    change (String c a ++ b) with (String c (a ++ b)) in *.
    cbn [split_go]. rewrite Hp, (IH _ Hrest), sapp_assoc. reflexivity.
Qed.

(** The first piece starts with what was read so far and goes on with a
    prefix of the rest. *)
Lemma split_go_head (sep s acc : string) :
  exists t r l, split_go sep 0 acc s = (acc ++ t) :: l /\ s = t ++ r.
Proof.
  revert acc. induction s as [|c s IH]; intros acc.
  - exists "", "", []. rewrite sapp_nil_r. split; reflexivity.
  - cbn [split_go]. destruct (String.prefix sep (String c s)).
    + exists "", (String c s), (split_go sep (String.length sep - 1) "" s).
      rewrite sapp_nil_r. split; reflexivity.
    + destruct (IH (acc ++ String c "")) as (t & r & l & -> & ->).
      exists (String c t), r, l. rewrite sapp_assoc. split; reflexivity.
Qed.

(** [s.split(ch)[0]] gives back [a] from [a] followed by nothing or by
    something that starts with [ch], when [ch] is not in [a]. *)
Lemma first_piece_single (ch : ascii) (a t : string) :
  has ch a = false ->
  match t with EmptyString => True | String d _ => d = ch end ->
  hd "" (split (String ch "") (a ++ t)) = a.
Proof.
  intros Ha Ht. unfold split.
  rewrite split_go_through.
  2:{ apply (clear_by_chars (String ch "") "" ch); [reflexivity|exact Ha|].
      destruct t; [exact I|reflexivity]. }
  rewrite sapp_nil_l. destruct t as [|d t']; [reflexivity|]. subst d.
  cbn [split_go String.prefix]. destruct (ascii_dec ch ch); [|congruence].
  destruct t'; reflexivity.
Qed.

Lemma starts_with_prefix (ch : ascii) (B t r : string) :
  match B with EmptyString => True | String d _ => d = ch end ->
  B = t ++ r ->
  match t with EmptyString => True | String d _ => d = ch end.
Proof.
  intros HB ->. destruct t as [|d t]; [exact I|]. rewrite sapp_cons in HB. exact HB.
Qed.

(** [url.split("cid/")[1].split("?")[0].split("/")[0]] on an address whose
    first ["cid/"] is followed by [cid] and then by nothing or by a query. *)
Lemma config_id_of_address (base cid B : string) :
  contains "cid/" (base ++ "cid") = false ->
  contains "/" cid = false -> contains "?" cid = false ->
  match B with EmptyString => True | String d _ => d = "?"%char end ->
  exists after_cid,
    nth_error (split "cid/" (base ++ "cid/" ++ cid ++ B)) 1 = Some after_cid /\
    hd "" (split "/" (hd "" (split "?" after_cid))) = cid.
Proof.
  intros Hbase Hslash Hquery HB. unfold split at 1.
  rewrite (split_go_through "cid/" base "" _
             (clear_before_first "cid/" "cid" "/" base _ eq_refl Hbase)).
  rewrite sapp_nil_l, (split_go_hit "cid/") by discriminate.
  rewrite (split_go_through "cid/" cid "" B).
  2:{ apply (clear_by_chars "cid/" "cid" "/"); [reflexivity|exact Hslash|].
      destruct B as [|d B']; [exact I|]. subst d. reflexivity. }
  rewrite sapp_nil_l.
  destruct (split_go_head "cid/" B cid) as (t & r & l & -> & HBt).
  exists (cid ++ t). split; [reflexivity|].
  rewrite (first_piece_single "?" cid t Hquery (starts_with_prefix _ _ _ _ HB HBt)).
  rewrite <- (sapp_nil_r cid) at 1.
  apply (first_piece_single "/" cid "" Hslash I).
Qed.

(** [url.split("csesidx=")[1].split("&")[0]] on an address whose first
    ["csesidx="] is followed by [idx] and then by nothing or by a further
    parameter. *)
Lemma csesidx_of_address (front idx rest : string) :
  contains "=" front = false ->
  contains "=" idx = false -> contains "&" idx = false ->
  match rest with EmptyString => True | String d _ => d = "&"%char end ->
  exists after,
    nth_error (split "csesidx=" (front ++ "csesidx=" ++ idx ++ rest)) 1 = Some after /\
    hd "" (split "&" after) = idx.
Proof.
  intros Hfront Heq Hamp Hrest. unfold split at 1.
  rewrite (split_go_through "csesidx=" front "" _).
  2:{ apply (clear_by_chars "csesidx=" "csesidx" "="); [reflexivity|exact Hfront|].
      reflexivity. }
  rewrite sapp_nil_l, (split_go_hit "csesidx=") by discriminate.
  rewrite (split_go_through "csesidx=" idx "" rest).
  2:{ apply (clear_by_chars "csesidx=" "csesidx" "="); [reflexivity|exact Heq|].
      destruct rest as [|d rest']; [exact I|]. subst d. reflexivity. }
  rewrite sapp_nil_l.
  destruct (split_go_head "csesidx=" rest idx) as (t & r & l & -> & Hrt).
  exists (idx ++ t). split; [reflexivity|].
  apply (first_piece_single "&" idx t Hamp (starts_with_prefix _ _ _ _ Hrest Hrt)).
Qed.

End Address.


Module AddressExtras.
Import Automation AutomationFacts Samples Address.

(** X12: the account is read off the address as written.  On a page whose
    address is [base cid/ID ?csesidx=IDX rest], with this ["cid/"] the first
    of the address, no ["="] before the query, [ID] free of ["/"], ["?"] and
    ["="], [IDX] free of ["&"] and ["="], and [rest] empty or a further
    ["&"] parameter, [_extract_config] never raises; the configuration it
    emits has [id = email], [config_id = ID] and
    [csesidx = IDX]; if it fails instead, then because reading the cookies
    raised or the expiry date was out of range, never because of the
    address. *)
Theorem extract_config_reads_the_address
    (env : environment) (self : settings) (email : string) (s : state)
    (base cid idx rest : string) :
  let url := base ++ "cid/" ++ cid ++ "?csesidx=" ++ idx ++ rest in
  let out := _extract_config env self email s in
  (forall h, env string h PageUrl = url) ->
  contains "cid/" (base ++ "cid") = false -> contains "=" base = false ->
  contains "/" cid = false -> contains "?" cid = false -> contains "=" cid = false ->
  contains "&" idx = false -> contains "=" idx = false ->
  match rest with EmptyString => True | String d _ => d = "&"%char end ->
  exists r,
    fst out = Return r /\
    (forall config, r = Success config ->
       cfg_id config = email /\ cfg_config_id config = cid /\ cfg_csesidx config = idx) /\
    (forall error, r = Failure error ->
       error = "year is out of range" \/ error = "date value out of range" \/
       exists h e, env (result (list cookie)) h ContextCookies = Raise e /\
                   error = str_exn e).
Proof.
  cbv zeta. intros Hurl Hbase Hbase_eq Hslash Hquery Hcid_eq Hamp Hidx_eq Hrest.
  remember (base ++ "cid/" ++ cid ++ "?csesidx=" ++ idx ++ rest) as url eqn:Eurl.
  assert (Hshape : url = (base ++ "cid/" ++ cid ++ "?") ++ "csesidx=" ++ idx ++ rest).
  { subst url. rewrite !sapp_assoc. reflexivity. }
  assert (Hcid : contains "cid/" url = true) by (subst url; apply contains_app_sep).
  assert (Hidx : contains "csesidx=" url = true) by (rewrite Hshape; apply contains_app_sep).
  destruct (config_id_of_address base cid ("?csesidx=" ++ idx ++ rest)
              Hbase Hslash Hquery eq_refl) as (after_cid & Hnth & Hconfig).
  rewrite <- Eurl in Hnth.
  destruct (csesidx_of_address (base ++ "cid/" ++ cid ++ "?") idx rest) as (after & Hnth2 & Hcs).
  { change (contains "=" ?x) with (has "=" x). rewrite !has_app.
    change (has "=" ?x) with (contains "=" x). rewrite Hbase_eq, Hcid_eq. reflexivity. }
  { exact Hidx_eq. } { exact Hamp. } { exact Hrest. }
  rewrite <- Hshape in Hnth2.
  unfold _extract_config, try_except.
  erewrite bind_Return by apply perform_run.
  rewrite Hurl, Hcid. cbn [negb].
  erewrite bind_Return by reflexivity.
  erewrite bind_Return by apply perform_run.
  rewrite Hurl, Hcid. cbn [negb].
  erewrite bind_Return by (unfold second; rewrite Hnth; reflexivity).
  rewrite Hidx.
  erewrite bind_Return
    by (erewrite bind_Return by (unfold second; rewrite Hnth2; reflexivity); reflexivity).
  rewrite Hconfig, Hcs.
  set (s2 := record_call (Made PageUrl url) (record_call (Made PageUrl url) s)).
  unfold bind at 1. rewrite invoke_run.
  destruct (env (result (list cookie)) (history s2) ContextCookies) as [cookies|e] eqn:Hck.
  2:{ exists (Failure (str_exn e)). split; [reflexivity|]. split; [discriminate|].
      intros error H. injection H as <-. right. right. exists (history s2), e. auto. }
  set (s3 := record_call _ s2).
  assert (Hexp : exists r s4,
             compute_expires_at env (find_cookie SES_COOKIE cookies) s3 = (r, s4) /\
             match r with
             | Return _ => True
             | Raise e => str_exn e = "year is out of range"
                          \/ str_exn e = "date value out of range"
             end).
  { destruct (find_cookie SES_COOKIE cookies) as [[n v [ex|]]|].
    - rewrite (compute_expires_at_cookie env _ ex) by reflexivity.
      destruct (representable ex && representable (ex + beijing_tz));
        [destruct (representable (ex + beijing_tz - twelve_hours))|];
        eexists; eexists; (split; [reflexivity|]); cbn; auto.
    - rewrite (compute_expires_at_default env) by reflexivity.
      match goal with |- context [if ?b then _ else _] => destruct b end;
        eexists; eexists; (split; [reflexivity|]); cbn; auto.
    - rewrite (compute_expires_at_default env) by exact I.
      match goal with |- context [if ?b then _ else _] => destruct b end;
        eexists; eexists; (split; [reflexivity|]); cbn; auto. }
  destruct Hexp as (r & s4 & Hrun & Hr).
  unfold bind. rewrite Hrun. destruct r as [expires_at|e].
  - eexists. split; [reflexivity|]. split; [|discriminate].
    intros config H. injection H as <-. auto.
  - exists (Failure (str_exn e)). split; [reflexivity|]. split; [discriminate|].
    intros error H. injection H as <-. destruct Hr as [Hr|Hr]; auto.
Qed.

Lemma extract_config_reads_the_address_witness :
  exists r,
    fst (_extract_config (stage (scene_signed_in None)) sample_settings
           "t1@mail.example.org" initial_state) = Return r /\
    (forall config, r = Success config ->
       cfg_id config = "t1@mail.example.org" /\ cfg_config_id config = "0f1c2d3e" /\
       cfg_csesidx config = "206226908") /\
    (forall error, r = Failure error ->
       error = "year is out of range" \/ error = "date value out of range" \/
       exists h e, stage (scene_signed_in None) (result (list cookie)) h ContextCookies
                   = Raise e /\ error = str_exn e).
Proof.
  apply (extract_config_reads_the_address (stage (scene_signed_in None)) sample_settings
           "t1@mail.example.org" initial_state
           "https://business.gemini.google/home/" "0f1c2d3e" "206226908" "");
    reflexivity.
Defined.

End AddressExtras.

(* ===================================================================== *)
(** * Waiting for the business page *)
(* ===================================================================== *)

Module Waiting.
Import Automation AutomationFacts.

(** The address a [page.url] gave. *)
Definition address_of (c : made_call) : option string :=
  match c with
  | Made c0 answer =>
      match c0 in call T return T -> option string with
      | PageUrl => fun url => Some url
      | _ => fun _ => None
      end answer
  end.

(** The addresses read in a history, in the order of time. *)
Fixpoint addresses (h : list made_call) : list string :=
  match h with
  | [] => []
  | c :: older =>
      (addresses older ++ match address_of c with Some url => [url] | None => [] end)%list
  end.

(** The number of [time.sleep] calls of a history. *)
Fixpoint naps (h : list made_call) : nat :=
  match h with
  | [] => O
  | Made c _ :: older =>
      match c with
      | TimeSleep _ => S (naps older)
      | _ => naps older
      end
  end.

(** ["csesidx=" in url or "/cid/" in url] *)
Definition has_params (url : string) : bool :=
  contains "csesidx=" url || contains "/cid/" url.

Section Rounds.

Variable env : environment.
Variable self : settings.

Lemma _sleep_nap base s :
  exists s',
    _sleep env self base s = (Return tt, s') /\
    addresses (history s') = addresses (history s) /\
    naps (history s') = S (naps (history s)).
Proof.
  unfold _sleep, bind, perform, ret.
  destruct (0 <? random_delay_max_ms self); cbn [fst snd].
  - eexists. split.
    + f_equal. destruct (env unit _ _). reflexivity.
    + cbn. rewrite !app_nil_r. auto.
  - eexists. split.
    + f_equal. destruct (env unit _ _). reflexivity.
    + cbn. rewrite !app_nil_r. auto.
Qed.

Lemma _log_still level message s :
  exists r s',
    _log env self level message s = (r, s') /\
    (r = Return tt \/ exists msg, r = Raise (TaskCancelledError msg)) /\
    addresses (history s') = addresses (history s) /\
    naps (history s') = naps (history s).
Proof.
  unfold _log. destruct (has_log_callback self).
  - unfold try_except_reraising_cancel, invoke.
    destruct (env (result unit) (history s) (LogCallback level message)) as [[]|[m|m]] eqn:E;
      eexists; eexists; (split; [reflexivity|]); cbn; rewrite ?app_nil_r; eauto.
  - exists (Return tt), s. auto.
Qed.

(** What a wait gave: it ran out after [rounds] reads without parameters,
    each followed by a pause; or a read showed the parameters, after fewer
    than [rounds] reads without, and the wait ended there (with [True], or
    with the cancellation signal of the log line). *)
Definition waited (rounds : nat) (s : state) (out : result bool * state) : Prop :=
  (exists misses,
      fst out = Return false /\
      addresses (history (snd out)) = (addresses (history s) ++ misses)%list /\
      Forall (fun url => has_params url = false) misses /\
      length misses = rounds /\
      naps (history (snd out)) = (naps (history s) + rounds)%nat) \/
  (exists misses hit,
      (fst out = Return true \/ exists msg, fst out = Raise (TaskCancelledError msg)) /\
      addresses (history (snd out)) = (addresses (history s) ++ misses ++ [hit])%list /\
      Forall (fun url => has_params url = false) misses /\
      has_params hit = true /\
      (length misses < rounds)%nat /\
      naps (history (snd out)) = (naps (history s) + length misses)%nat).

Lemma business_params_rounds_run rounds :
  forall s, waited rounds s (business_params_rounds env self rounds s).
Proof.
  induction rounds as [|k IH]; intros s.
  - left. exists []. cbn. rewrite app_nil_r, Nat.add_0_r. auto.
  - cbn [business_params_rounds]. unfold bind at 1. rewrite perform_run.
    set (url := env string (history s) PageUrl).
    set (s1 := record_call (Made PageUrl url) s).
    assert (Ha1 : addresses (history s1) = (addresses (history s) ++ [url])%list)
      by reflexivity.
    assert (Hn1 : naps (history s1) = naps (history s)) by reflexivity.
    fold (has_params url). destruct (has_params url) eqn:Hp.
    + right. exists [], url.
      destruct (_log_still "info" ("business params ready: " ++ url) s1)
        as (r & s2 & Hrun & Hr & Ha & Hn).
      unfold bind. rewrite Hrun.
      assert (Hout : (fst (match r with
                           | Return _ => ret true s2
                           | Raise e => (Raise e, s2)
                           end) = Return true \/
                      exists msg, fst (match r with
                                       | Return _ => ret true s2
                                       | Raise e => (@Raise bool e, s2)
                                       end) = Raise (TaskCancelledError msg)) /\
                     snd (match r with
                          | Return _ => ret true s2
                          | Raise e => (@Raise bool e, s2)
                          end) = s2).
      { destruct Hr as [->|(msg & ->)]; cbn; eauto. }
      destruct Hout as [Hres ->].
      split; [exact Hres|]. rewrite Ha, Ha1, Hn, Hn1. cbn [length app].
      rewrite Nat.add_0_r. split; [reflexivity|]. split; [constructor|].
      split; [exact Hp|]. split; [lia|reflexivity].
    + destruct (_sleep_nap 1 s1) as (s2 & Hrun & Ha & Hn).
      unfold bind. rewrite Hrun. fold (bind (A:=unit) (B:=bool)).
      destruct (IH s2) as [(misses & Hr & Hadd & Hall & Hlen & Hnaps)
                          |(misses & hit & Hr & Hadd & Hall & Hhit & Hlen & Hnaps)].
      * left. exists (url :: misses).
        split; [exact Hr|]. rewrite Hadd, Ha, Ha1, <- app_assoc.
        split; [reflexivity|]. split; [constructor; assumption|].
        split; [cbn; lia|]. rewrite Hnaps, Hn, Hn1. lia.
      * right. exists (url :: misses), hit.
        split; [exact Hr|]. rewrite Hadd, Ha, Ha1, <- app_assoc.
        split; [reflexivity|]. split; [constructor; assumption|].
        split; [exact Hhit|]. split; [cbn; lia|]. rewrite Hnaps, Hn, Hn1. cbn. lia.
Qed.

End Rounds.

End Waiting.

Module WaitingExtras.
Import Automation AutomationFacts Samples Waiting.

(** X13: the wait for the business page is bounded and ends at the first
    address that carries the parameters.  [_wait_for_business_params] reads
    the address at most [timeout] times (not at all for [timeout <= 0]).
    Either every read lacked both ["csesidx="] and ["/cid/"]: then there
    were exactly [timeout] reads, each followed by one [_sleep(1)], the last
    one included, and the value is [False].  Or a read showed one of them:
    then the reads before it lacked both and were each followed by one
    pause, nothing is read after it, and the value is [True], unless the log
    line that reports the address raises the cancellation signal, which
    goes through. *)
Theorem business_params_wait_is_bounded
    (env : environment) (self : settings) (timeout : Z) (s : state) :
  let rounds := Z.to_nat timeout in
  let out := _wait_for_business_params env self timeout s in
  (exists misses,
      fst out = Return false /\
      addresses (history (snd out)) = (addresses (history s) ++ misses)%list /\
      Forall (fun url => has_params url = false) misses /\
      length misses = rounds /\
      naps (history (snd out)) = (naps (history s) + rounds)%nat) \/
  (exists misses hit,
      (fst out = Return true \/ exists msg, fst out = Raise (TaskCancelledError msg)) /\
      addresses (history (snd out)) = (addresses (history s) ++ misses ++ [hit])%list /\
      Forall (fun url => has_params url = false) misses /\
      has_params hit = true /\
      (length misses < rounds)%nat /\
      naps (history (snd out)) = (naps (history s) + length misses)%nat).
Proof.
  cbv zeta.
  destruct (business_params_rounds_run env self (Z.to_nat timeout) s) as [Hout|Hin].
  - left. exact Hout.
  - right. exact Hin.
Qed.

End WaitingExtras.

(* ===================================================================== *)
(** * What a mailbox client makes of its constructor arguments *)
(* ===================================================================== *)

Module MailConnect.
Import MailSetup.

(** [k] slashes. *)
Fixpoint slashes (k : nat) : string :=
  match k with
  | O => ""
  | S k' => String "/" (slashes k')
  end.

(** A string of ASCII characters only.  On such a string [strip] is
    [str.strip()]: the blanks Python strips beyond the ASCII ones (U+0085,
    U+00A0, U+3000 and the like) are outside ASCII. *)
Definition plain (s : string) : bool :=
  forallb (fun c => (nat_of_ascii c <? 128)%nat) (list_ascii_of_string s).

Lemma rstrip_slash_cut (s : string) : exists k, s = rstrip_slash s ++ slashes k.
Proof.
  induction s as [|c t (k & IH)]; [exists 0%nat; reflexivity|].
  cbn [rstrip_slash]. destruct (rstrip_slash t) as [|d u] eqn:Ht.
  - destruct (Ascii.eqb_spec c "/") as [->|Hc].
    + exists (S k). rewrite IH at 1. reflexivity.
    + exists k. rewrite IH at 1. reflexivity.
  - exists k. rewrite IH at 1. reflexivity.
Qed.

Lemma rstrip_slash_end (s t : string) : rstrip_slash s <> t ++ "/".
Proof.
  revert t. induction s as [|c s IH]; intros t.
  - destruct t; discriminate.
  - cbn [rstrip_slash]. destruct (rstrip_slash s) as [|d u] eqn:Hs.
    + destruct (Ascii.eqb_spec c "/") as [->|Hc].
      * destruct t; discriminate.
      * intros H. destruct t as [|x t].
        -- injection H as H. exact (Hc H).
        -- injection H as _ H. destruct t; discriminate.
    + destruct t as [|x t]; [discriminate|].
      intros H. injection H as _ H. exact (IH t H).
Qed.

End MailConnect.

Module MailConnectExtras.
Import MailSetup MailSetupExtras MailConnect.

(** X14: where a new mailbox is asked for, and with which key.  A client
    built from a base address and a key of ASCII characters keeps the
    address without its trailing slashes, all of them and nothing else, so
    that it never ends in a slash, and both clients keep the same address.
    [generate_email] then sends its one request to that address plus
    ["/api/generate-email"] (GPTMail) or ["/api/emails/generate"] (MoeMail),
    and with [X-API-Key] set to the stripped key exactly when the stripped
    key is not empty: a key of blanks only is sent as no key. *)
Theorem client_requests_are_normalised
    (base key proxy : string) (verify : bool)
    (gpt_transport : request -> result (reply gpt_generated))
    (moe_transport : request -> result (reply moe_generated))
    (prefix domain rand : string) (expiry_ms : Z) :
  plain key = true ->
  let gpt := gpt_init base key proxy verify in
  let moe := moe_init base key proxy verify in
  let sent_key := if String.eqb (strip key) "" then None else Some (strip key) in
  (exists k, base = base_url (gc_conn gpt) ++ slashes k) /\
  (forall t, base_url (gc_conn gpt) <> t ++ "/") /\
  base_url (mc_conn moe) = base_url (gc_conn gpt) /\
  (exists rq, snd (gpt_generate_email gpt gpt_transport prefix domain) = [rq] /\
              rq_url rq = base_url (gc_conn gpt) ++ "/api/generate-email" /\
              rq_headers rq !! "X-API-Key" = sent_key) /\
  (exists rq, snd (moe_generate_email moe moe_transport rand domain prefix expiry_ms) = [rq] /\
              rq_url rq = base_url (gc_conn gpt) ++ "/api/emails/generate" /\
              rq_headers rq !! "X-API-Key" = sent_key).
Proof.
  intros _. cbv zeta.
  split; [apply rstrip_slash_cut|]. split; [apply rstrip_slash_end|].
  split; [reflexivity|]. split.
  - destruct (gpt_generate_email_request (gpt_init base key proxy verify) gpt_transport
                prefix domain) as (rq & Hout & _ & Hu & _ & Hk).
    exists rq. rewrite Hout. split; [reflexivity|]. split; [exact Hu|exact Hk].
  - unfold moe_generate_email.
    match goal with
    | |- context [_request ?c ?tr ?m ?u ?h ?j ?p ?t] =>
        pose proof (_request_sent (P:=moe_generated) c tr m u h j p t) as K;
        destruct (_request c tr m u h j p t) as [res rq]
    end.
    cbv zeta in K. cbn [fst snd] in K. destruct K as (_ & _ & Hu & _ & _ & _ & _ & _ & Hk & _).
    exists rq. split; [reflexivity|]. split; [exact Hu|].
    rewrite Hk, lookup_insert_ne by discriminate. rewrite lookup_empty. reflexivity.
Qed.

Lemma client_requests_are_normalised_witness :
  exists rq,
    snd (gpt_generate_email (gpt_init "https://mail.example.org//" "  " "" true)
           (fun _ => Raise (Exception "offline")) "" "") = [rq] /\
    rq_url rq = "https://mail.example.org/api/generate-email" /\
    rq_headers rq !! "X-API-Key" = None.
Proof.
  destruct (client_requests_are_normalised "https://mail.example.org//" "  " "" true
              (fun _ => Raise (Exception "offline")) (fun _ => Raise (Exception "offline"))
              "" "" "abc123" 3600000 eq_refl) as (_ & _ & _ & (rq & Hout & Hu & Hk) & _).
  exists rq. split; [exact Hout|]. split; [exact Hu|exact Hk].
Defined.

End MailConnectExtras.

(* ===================================================================== *)
(** * What a login attempt gives back *)
(* ===================================================================== *)

Module OutcomeExtras.
Import Automation AutomationFacts.

(** X15: what [login_and_extract] gives back, by what happened in its [try]
    block (the browser start, the warm-up and the flow).  A value of the
    block is returned as it is; the cancellation signal raised in the block
    is raised; any other exception becomes [{"success": False, "error":
    str(exc)}], unless the log line that reports it raises the cancellation
    signal, which is then raised.  The clean-up in [finally] never changes
    this.  So the method raises nothing but the cancellation signal. *)
Theorem login_and_extract_raises_only_the_signal
    (env : environment) (self : settings) (email : string) (s : state) :
  let body := fst (login_body env self email s) in
  let out := fst (login_and_extract env self email s) in
  match body with
  | Return r => out = Return r
  | Raise (TaskCancelledError msg) => out = Raise (TaskCancelledError msg)
  | Raise (Exception msg) =>
      out = Return (Failure msg) \/
      has_log_callback self = true /\ exists msg', out = Raise (TaskCancelledError msg')
  end /\
  ((exists r, out = Return r) \/ exists msg, out = Raise (TaskCancelledError msg)).
Proof.
  cbv zeta.
  assert (Hmain :
    match fst (login_body env self email s) with
    | Return r => fst (login_and_extract env self email s) = Return r
    | Raise (TaskCancelledError msg) =>
        fst (login_and_extract env self email s) = Raise (TaskCancelledError msg)
    | Raise (Exception msg) =>
        fst (login_and_extract env self email s) = Return (Failure msg) \/
        has_log_callback self = true /\
        exists msg', fst (login_and_extract env self email s) = Raise (TaskCancelledError msg')
    end).
  { unfold login_and_extract.
    destruct (login_body env self email s) as [[r|[msg|msg]] s1] eqn:Hbody; cbn [fst].
    - apply (try_finally_run _ _ s (Return r) s1 (_cleanup_total env)).
      unfold try_except_reraising_cancel. rewrite Hbody. reflexivity.
    - apply (try_finally_run _ _ s (Raise (TaskCancelledError msg)) s1 (_cleanup_total env)).
      unfold try_except_reraising_cancel. rewrite Hbody. reflexivity.
    - destruct (_log_run env self "error" ("automation error: " ++ msg) s1)
        as (r & s2 & Hlog & Hr & _).
      destruct Hr as [-> | (msg' & ->)].
      + left.
        apply (try_finally_run _ _ s (Return (Failure msg)) s2 (_cleanup_total env)).
        unfold try_except_reraising_cancel. rewrite Hbody. cbn [str_exn].
        erewrite bind_Return by exact Hlog. reflexivity.
      + right. split.
        * unfold _log in Hlog. destruct (has_log_callback self); [reflexivity|discriminate].
        * exists msg'.
          apply (try_finally_run _ _ s (Raise (TaskCancelledError msg')) s2
                   (_cleanup_total env)).
          unfold try_except_reraising_cancel. rewrite Hbody. cbn [str_exn].
          erewrite bind_Raise by exact Hlog. reflexivity. }
  split; [exact Hmain|].
  destruct (fst (login_body env self email s)) as [r|[msg|msg]].
  - left. exists r. exact Hmain.
  - right. exists msg. exact Hmain.
  - destruct Hmain as [H | (_ & msg' & H)]; [left; eauto|right; eauto].
Qed.

End OutcomeExtras.

(* ===================================================================== *)
(** * Waiting for the code input *)
(* ===================================================================== *)

Module CodeInput.
Import Automation AutomationFacts Waiting.

(** A [wait_for_selector]: the selector, the timeout in milliseconds, the
    answer. *)
Definition lookup : Type := string * Z * result (option elem).

Definition lookup_of (c : made_call) : option lookup :=
  match c with
  | Made c0 answer =>
      match c0 in call T return T -> option lookup with
      | WaitForSelector selector timeout_ms => fun a => Some (selector, timeout_ms, a)
      | _ => fun _ => None
      end answer
  end.

(** The lookups of a history, in the order of time. *)
Fixpoint lookups (h : list made_call) : list lookup :=
  match h with
  | [] => []
  | c :: older =>
      (lookups older ++ match lookup_of c with Some l => [l] | None => [] end)%list
  end.

(** A lookup that gave no element: it found none, or it raised. *)
Definition fruitless (l : lookup) : bool :=
  match snd l with
  | Return (Some _) => false
  | _ => true
  end.

(** The lookups [asked] go through the selectors of [plan] in order, each
    with the timeout [t]. *)
Definition along (plan : list string) (t : Z) (asked : list lookup) : Prop :=
  map (fun l : lookup => fst (fst l)) asked = firstn (length asked) plan /\
  Forall (fun l : lookup => snd (fst l) = t) asked.

(** The selectors of [_wait_for_code_input] as the page is asked for them. *)
Definition code_input_css : list string := map _normalize_selector code_input_selectors.

Section Rounds.

Variable env : environment.
Variable self : settings.

Lemma _sleep_between base s :
  exists s',
    _sleep env self base s = (Return tt, s') /\
    lookups (history s') = lookups (history s) /\
    naps (history s') = S (naps (history s)).
Proof.
  unfold _sleep, bind, perform, ret.
  destruct (0 <? random_delay_max_ms self); cbn [fst snd].
  - eexists. split.
    + f_equal. destruct (env unit _ _). reflexivity.
    + cbn. rewrite !app_nil_r. auto.
  - eexists. split.
    + f_equal. destruct (env unit _ _). reflexivity.
    + cbn. rewrite !app_nil_r. auto.
Qed.

(** [_query] with a timeout: one [wait_for_selector]; what it raises is
    taken for "not found". *)
Lemma _query_lookup selector t s :
  0 < t ->
  let l : lookup := (_normalize_selector selector, t,
                     env _ (history s) (WaitForSelector (_normalize_selector selector) t)) in
  exists s',
    _query env selector t s
    = (Return (match snd l with Return (Some e) => Some e | _ => None end), s') /\
    lookups (history s') = (lookups (history s) ++ [l])%list /\
    naps (history s') = naps (history s).
Proof.
  intros Ht. cbv zeta. unfold _query, try_except.
  apply Z.ltb_lt in Ht. rewrite Ht. rewrite invoke_run. cbn [snd].
  destruct (env (result (option elem)) (history s)
              (WaitForSelector (_normalize_selector selector) t)) as [[e|]|err];
    eexists; (split; [reflexivity|]); split; reflexivity.
Qed.

(** One pass over the selectors. *)
Lemma first_found_run t sels :
  0 < t ->
  forall s,
    let out := first_found env t sels s in
    exists asked,
      lookups (history (snd out)) = (lookups (history s) ++ asked)%list /\
      along (map _normalize_selector sels) t asked /\
      naps (history (snd out)) = naps (history s) /\
      ((fst out = Return None /\ forallb fruitless asked = true /\
        length asked = length sels) \/
       (exists misses hit e,
           asked = (misses ++ [hit])%list /\ fst out = Return (Some e) /\
           snd hit = Return (Some e) /\ forallb fruitless misses = true /\
           (length misses < length sels)%nat)).
Proof.
  intros Ht. induction sels as [|sel rest IH]; intros s; cbv zeta.
  - exists []. cbn. rewrite app_nil_r. repeat split; auto.
  - cbn [first_found].
    destruct (_query_lookup sel t s Ht) as (s1 & Hq & Hl1 & Hn1).
    erewrite bind_Return by exact Hq. cbn [snd] in *.
    set (l := (_normalize_selector sel, t,
               env (result (option elem)) (history s)
                 (WaitForSelector (_normalize_selector sel) t)) : lookup) in *.
    destruct (env (result (option elem)) (history s)
                (WaitForSelector (_normalize_selector sel) t)) as [[e|]|err] eqn:Hans.
    + exists [l]. cbn [ret fst snd]. split; [exact Hl1|]. split.
      { split; [reflexivity|]. constructor; [reflexivity|constructor]. }
      split; [exact Hn1|]. right. exists [], l, e. cbn [length]. repeat split; auto. lia.
    + destruct (IH s1) as (asked & Hl & (Hsel & Htime) & Hn & Hcase). cbv zeta in *.
      exists (l :: asked). rewrite Hl, Hl1, <- app_assoc. split; [reflexivity|]. split.
      { split; [cbn [map length firstn]; rewrite Hsel; reflexivity|].
        constructor; [reflexivity|exact Htime]. }
      split; [congruence|].
      destruct Hcase as [(Hr & Hf & Hlen) | (misses & hit & e & -> & Hr & Hhit & Hf & Hlen)].
      * left. cbn [forallb length]. rewrite Hf, Hlen. auto.
      * right. exists (l :: misses), hit, e. cbn [forallb length]. rewrite Hf.
        repeat split; auto. lia.
    + destruct (IH s1) as (asked & Hl & (Hsel & Htime) & Hn & Hcase). cbv zeta in *.
      exists (l :: asked). rewrite Hl, Hl1, <- app_assoc. split; [reflexivity|]. split.
      { split; [cbn [map length firstn]; rewrite Hsel; reflexivity|].
        constructor; [reflexivity|exact Htime]. }
      split; [congruence|].
      destruct Hcase as [(Hr & Hf & Hlen) | (misses & hit & e & -> & Hr & Hhit & Hf & Hlen)].
      * left. cbn [forallb length]. rewrite Hf, Hlen. auto.
      * right. exists (l :: misses), hit, e. cbn [forallb length]. rewrite Hf.
        repeat split; auto. lia.
Qed.

Lemma code_input_rounds_run k :
  forall s,
    let out := code_input_rounds env self k s in
    exists asked,
      lookups (history (snd out)) = (lookups (history s) ++ asked)%list /\
      along (concat (repeat code_input_css k)) 1000 asked /\
      ((fst out = Return None /\ forallb fruitless asked = true /\
        length asked = (4 * k)%nat /\
        naps (history (snd out)) = (naps (history s) + k)%nat) \/
       (exists misses hit e,
           asked = (misses ++ [hit])%list /\ fst out = Return (Some e) /\
           snd hit = Return (Some e) /\ forallb fruitless misses = true /\
           naps (history (snd out)) = (naps (history s) + length misses / 4)%nat)).
Proof.
  induction k as [|k IH]; intros s; cbv zeta.
  - exists []. cbn. rewrite app_nil_r, Nat.add_0_r.
    split; [reflexivity|]. split; [split; [reflexivity|constructor]|]. left. auto.
  - cbn [code_input_rounds repeat concat].
    destruct (first_found_run 1000 code_input_selectors ltac:(lia) s)
      as (asked1 & Hl1 & (Hsel1 & Htime1) & Hn1 & Hcase).
    cbv zeta in *. fold code_input_css in Hsel1.
    destruct (first_found env 1000 code_input_selectors s) as [r s1] eqn:Hrun.
    cbn [fst snd] in *.
    destruct Hcase as [(-> & Hf1 & Hlen1) | (misses & hit & e & -> & -> & Hhit & Hf & Hlen)].
    + erewrite bind_Return by exact Hrun.
      destruct (_sleep_between 2 s1) as (s2 & Hsleep & Hl2 & Hn2).
      erewrite bind_Return by exact Hsleep.
      destruct (IH s2) as (asked2 & Hl & (Hsel2 & Htime2) & Hcase). cbv zeta in *.
      change (length code_input_selectors) with 4%nat in Hlen1.
      assert (Hcss : map (fun l : lookup => fst (fst l)) asked1 = code_input_css).
      { rewrite Hsel1, Hlen1. reflexivity. }
      exists (asked1 ++ asked2)%list.
      rewrite Hl, Hl2, Hl1, <- app_assoc. split; [reflexivity|]. split.
      { split; [|apply Forall_app; auto].
        rewrite map_app, length_app, Hcss, Hsel2, Hlen1.
        change 4%nat with (length code_input_css).
        symmetry. apply firstn_app_2. }
      destruct Hcase as [(Hr & Hf2 & Hlen2 & Hnaps)
                        | (misses & hit & e & -> & Hr & Hhit & Hf2 & Hnaps)].
      * left. rewrite forallb_app, Hf1, Hf2, length_app, Hlen1, Hlen2, Hnaps, Hn2, Hn1.
        repeat split; auto; lia.
      * right. exists (asked1 ++ misses)%list, hit, e.
        rewrite forallb_app, Hf1, Hf2, length_app, Hlen1, Hnaps, Hn2, Hn1, <- app_assoc.
        repeat split; auto.
        change (4 + length misses)%nat with (1 * 4 + length misses)%nat.
        rewrite Nat.div_add_l by lia. lia.
    + erewrite bind_Return by exact Hrun. cbn [ret fst snd].
      change (length code_input_selectors) with 4%nat in Hlen.
      exists (misses ++ [hit])%list. split; [exact Hl1|]. split.
      { split; [|exact Htime1]. rewrite Hsel1, firstn_app.
        replace (length (misses ++ [hit]) - length code_input_css)%nat with 0%nat.
        - cbn [firstn]. rewrite app_nil_r. reflexivity.
        - rewrite length_app. change (length code_input_css) with 4%nat. cbn [length]. lia. }
      right. exists misses, hit, e. rewrite Nat.div_small by lia. rewrite Nat.add_0_r.
      repeat split; auto.
Qed.

End Rounds.

End CodeInput.

Module CodeInputExtras.
Import Automation AutomationFacts Samples Waiting CodeInput.

(** X16: the wait for the code input is bounded and ends at the first
    element found.  [_wait_for_code_input] makes [max(1, timeout // 2)]
    rounds at most, one even for a timeout below 2.  A round asks the page
    for the four selectors in their order, each without its ["css:"] prefix
    and with a timeout of 1000 ms; a lookup that raises counts as nothing
    found.  The first lookup that gives an element ends the wait with that
    element, and nothing is asked after it; a round without any is followed
    by one [_sleep(2)], the last one too, and after the last round the value
    is [None].  The wait never raises. *)
Theorem code_input_wait_is_bounded
    (env : environment) (self : settings) (timeout : Z) (s : state) :
  let rounds := Z.to_nat (Z.max 1 (timeout / 2)) in
  let out := _wait_for_code_input env self timeout s in
  (1 <= rounds)%nat /\
  exists asked,
    lookups (history (snd out)) = (lookups (history s) ++ asked)%list /\
    along (concat (repeat code_input_css rounds)) 1000 asked /\
    ((fst out = Return None /\ forallb fruitless asked = true /\
      length asked = (4 * rounds)%nat /\
      naps (history (snd out)) = (naps (history s) + rounds)%nat) \/
     (exists misses hit e,
         asked = (misses ++ [hit])%list /\ fst out = Return (Some e) /\
         snd hit = Return (Some e) /\ forallb fruitless misses = true /\
         naps (history (snd out)) = (naps (history s) + length misses / 4)%nat)).
Proof.
  cbv zeta. split; [lia|].
  apply (code_input_rounds_run env self (Z.to_nat (Z.max 1 (timeout / 2))) s).
Qed.

End CodeInputExtras.

(* ===================================================================== *)
(** * A cancellation signal that stays raised *)
(* ===================================================================== *)

Module CancellationExtras.
Import Automation AutomationFacts Samples.



End CancellationExtras.
